(** * uqfindexec: the per-file command-pipeline engine

    A shallow embedding of the [uqfindexec] program (assignment A3 of the
    repository): placeholder substitution, redirection validation, stage
    spawning, reaping and classification, the sequential and the parallel
    scheduler, and the final exit decision.

    Conventions.
    - C [int] values are [Z]; array indexes and loop counters that only
      count upwards from zero are [nat].  The statistics counters are
      bounded by the number of files and the placeholder count by the
      length of a string, so no wrap-around is modelled.
    - A C string is a [string]; a [char*] into the middle of a string is
      the suffix it points at, and pointer arithmetic drops characters.
    - An array together with its element count is a list.
    - The operating system is an explicit value [OS] (what [open], [pipe]
      and [execvp] answer, and what the interrupt flag holds at each poll
      point); the coordinator's own state is a [World].  [fork], [pipe]
      and [malloc] are assumed to succeed and every child is assumed to
      terminate; memory is not modelled, so [free] leaves no trace. *)

From Stdlib Require Import ZArith Lia Ascii String Bool List.
From Stdlib Require Import Numbers.DecimalString.
From Equations Require Import Equations.
From Equations.Prop Require Import Logic.
From stdpp Require Import gmap strings list.

Local Open Scope Z_scope.

(** ** Enumerations of the source *)

(** [enum ExitStatus] *)
Definition PROCESS_ERROR : Z := 16.
Definition CHILD_PROCESS_ERROR : Z := 99.
Definition SIGINT_REC : Z := 17.

(** [enum Values]: indexes into the statistics array. *)
Definition SUCCESS : nat := 0.
Definition FAIL : nat := 1.
Definition SIGNAL : nat := 2.
Definition NOTEXEC : nat := 3.
Definition TOTAL_STATS : nat := 4.

(** ** C strings *)

Definition strlen (s : string) : Z := Z.of_nat (String.length s).

(** [p + n] for a pointer [p] into a string. *)
Fixpoint ptr_add (s : string) (n : nat) {struct n} : string :=
  match n with
  | O => s
  | S n' => match s with
            | String _ s' => ptr_add s' n'
            | EmptyString => s
            end
  end.

(** Does [s] begin with [needle]? *)
Fixpoint has_prefix (s needle : string) {struct needle} : bool :=
  match needle, s with
  | EmptyString, _ => true
  | String a needle', String b s' => Ascii.eqb a b && has_prefix s' needle'
  | String _ _, EmptyString => false
  end.

(** [strstr(haystack, needle)]: the suffix of [haystack] at the first
    occurrence of [needle], or [None] for a null pointer. *)
Fixpoint strstr (haystack needle : string) : option string :=
  if has_prefix haystack needle then Some haystack
  else match haystack with
       | EmptyString => None
       | String _ rest => strstr rest needle
       end.

Definition strdup (s : string) : string := s.

Lemma strstr_Some haystack needle found :
  strstr haystack needle = Some found ->
  (String.length found <= String.length haystack)%nat /\
  has_prefix found needle = true.
Proof.
  induction haystack as [|c h IH]; cbn [strstr].
  - destruct (has_prefix "" needle) eqn:E; [intros [= <-]; auto | discriminate].
  - destruct (has_prefix (String c h) needle) eqn:E.
    + intros [= <-]; auto.
    + intros H. apply IH in H as [H1 H2]. split; [simpl; lia | exact H2].
Qed.

Lemma has_prefix_marker s :
  has_prefix s "{}" = true <->
  exists rest, s = String "{"%char (String "}"%char rest).
Proof.
  split.
  - destruct s as [|a [|b s]]; cbn [has_prefix]; try discriminate.
    + destruct (Ascii.eqb _ a); discriminate.
    + destruct (Ascii.eqb_spec "{" a) as [<-|]; [|discriminate].
      destruct (Ascii.eqb_spec "}" b) as [<-|]; [|discriminate]. eauto.
  - intros [r ->]. reflexivity.
Qed.

Lemma ptr_add_marker s :
  has_prefix s "{}" = true ->
  (String.length (ptr_add s 2) + 2 = String.length s)%nat.
Proof. intros [r ->]%has_prefix_marker. simpl. lia. Qed.

(** ** Placeholder substitution *)

(** The [while] loop of [count_placeholders]: [checkStr] is advanced to
    each occurrence in turn and then past it. *)
Equations? count_loop (checkStr : string) (count : Z) : Z
  by wf (String.length checkStr) lt :=
  count_loop checkStr count with inspect (strstr checkStr "{}") := {
    | exist _ (Some found) _ => count_loop (ptr_add found 2) (count + 1)
    | exist _ None _ => count }.
Proof.
  match goal with H : strstr _ _ = Some _ |- _ =>
    apply strstr_Some in H as [H1 H2] end.
  apply ptr_add_marker in H2. lia.
Qed.

Definition count_placeholders (checkStr : string) : Z := count_loop checkStr 0.

(** The [while (1)] loop of [handle_placeholders].  [newStr] is what has
    been written to the buffer so far (so [newStrPtr] is its end) and
    [tempPtr] is the rest of the template. *)
Equations? fill_loop (fill tempPtr newStr : string) : string
  by wf (String.length tempPtr) lt :=
  fill_loop fill tempPtr newStr with inspect (strstr tempPtr "{}") := {
    | exist _ (Some nextPlaceholder) _ =>
        fill_loop fill (ptr_add nextPlaceholder 2)
          (newStr
           +:+ substring 0 (String.length tempPtr - String.length nextPlaceholder) tempPtr
           +:+ fill)
    | exist _ None _ => newStr +:+ tempPtr }.
Proof.
  match goal with H : strstr _ _ = Some _ |- _ =>
    apply strstr_Some in H as [H1 H2] end.
  apply ptr_add_marker in H2. lia.
Qed.

(** The size passed to [malloc], terminator included. *)
Definition new_size (checkStr fill : string) : Z :=
  strlen checkStr - count_placeholders checkStr * 2
  + count_placeholders checkStr * strlen fill + 1.

Definition handle_placeholders (checkStr fill : string) : string :=
  let count := count_placeholders checkStr in
  if count =? 0 then strdup checkStr
  else fill_loop fill checkStr "".

(** [cmd_copy]: a deep copy of one command line with every argument
    substituted. *)
Definition cmd_copy (oldCmd : list string) (fileName : string) : list string :=
  map (fun arg => handle_placeholders arg fileName) oldCmd.

(** The substitution as the specification words it: scanning left to
    right, every occurrence of the marker is replaced by the fill string
    and scanning resumes after the marker in the template. *)
Fixpoint substitute_spec (template fill : string) : string :=
  match template with
  | EmptyString => EmptyString
  | String c t' =>
      match t' with
      | String d rest =>
          if Ascii.eqb "{" c && Ascii.eqb "}" d
          then fill +:+ substitute_spec rest fill
          else String c (substitute_spec t' fill)
      | EmptyString => String c EmptyString
      end
  end.

(** Number of non-overlapping occurrences of the marker, left to right. *)
Fixpoint occurrences (s : string) : nat :=
  match s with
  | EmptyString => O
  | String c s' =>
      match s' with
      | String d rest =>
          if Ascii.eqb "{" c && Ascii.eqb "}" d
          then S (occurrences rest)
          else occurrences s'
      | EmptyString => O
      end
  end.

(** Is [c] the first character of [s]?  Is it the last? *)
Definition starts_with (c : ascii) (s : string) : bool :=
  match s with
  | String a _ => Ascii.eqb c a
  | EmptyString => false
  end.

Fixpoint ends_with (c : ascii) (s : string) : bool :=
  match s with
  | EmptyString => false
  | String a EmptyString => Ascii.eqb c a
  | String _ s' => ends_with c s'
  end.

(** ** Wait statuses

    The status word that [waitpid] stores, decoded with the macros of
    [<sys/wait.h>] as glibc defines them. *)

Definition WTERMSIG (status : Z) : Z := Z.land status 127.
Definition WEXITSTATUS (status : Z) : Z := Z.shiftr (Z.land status 65280) 8.
Definition WIFEXITED (status : Z) : bool := WTERMSIG status =? 0.

(** The conversion to [signed char] inside [WIFSIGNALED]. *)
Definition signed_char (x : Z) : Z :=
  let b := Z.land x 255 in if b <? 128 then b else b - 256.

Definition WIFSIGNALED (status : Z) : bool :=
  0 <? Z.shiftr (signed_char (Z.land status 127 + 1)) 1.

(** The word the kernel builds for [_exit(ret)] and for death by [sig]. *)
Definition W_EXITCODE (ret sig : Z) : Z := Z.lor (Z.shiftl (Z.land ret 255) 8) sig.

(** ** The statistics array *)

(** [stats[i]++] *)
Definition incr (i : nat) (stats : list Z) : list Z :=
  alter (fun v => v + 1) i stats.

(** [stats[i]] *)
Definition stat (stats : list Z) (i : nat) : Z := default 0 (stats !! i).

(** The three flags of [count_stats]. *)
Record Flags := { fail : bool; signal : bool; notexec : bool }.

(** One iteration of the loop over the statuses. *)
Definition scan_status (fl : Flags) (status : Z) : Flags :=
  if WIFEXITED status then
    if WEXITSTATUS status =? CHILD_PROCESS_ERROR then
      {| fail := fail fl; signal := signal fl; notexec := true |}
    else if negb (WEXITSTATUS status =? 0) then
      {| fail := true; signal := signal fl; notexec := notexec fl |}
    else fl
  else if WIFSIGNALED status then
    {| fail := fail fl; signal := true; notexec := notexec fl |}
  else fl.

(** [count_stats]: [statuses] is the array with its [statusCount]
    elements. *)
Definition count_stats (stats : list Z) (statuses : list Z) : list Z :=
  let fl := fold_left scan_status statuses
              {| fail := false; signal := false; notexec := false |} in
  let stats :=
    if notexec fl then incr NOTEXEC stats
    else if signal fl then incr SIGNAL stats
    else if fail fl then incr FAIL stats
    else incr SUCCESS stats in
  incr TOTAL_STATS stats.

(** The four outcomes of the specification, and the bucket of each. *)
Inductive Outcome := Success | Failure | SignalTerminated | NotExecuted.

Definition bucket (o : Outcome) : nat :=
  match o with
  | Success => SUCCESS
  | Failure => FAIL
  | SignalTerminated => SIGNAL
  | NotExecuted => NOTEXEC
  end.

Definition could_not_execute (status : Z) : bool :=
  WIFEXITED status && (WEXITSTATUS status =? CHILD_PROCESS_ERROR).

Definition killed_by_signal (status : Z) : bool := WIFSIGNALED status.

Definition exited_nonzero (status : Z) : bool :=
  WIFEXITED status && negb (WEXITSTATUS status =? 0)
  && negb (WEXITSTATUS status =? CHILD_PROCESS_ERROR).

(** The classification as the specification words it. *)
Definition classify_spec (statuses : list Z) : Outcome :=
  if existsb could_not_execute statuses then NotExecuted
  else if existsb killed_by_signal statuses then SignalTerminated
  else if existsb exited_nonzero statuses then Failure
  else Success.

(** ** Messages *)

Definition dquote : string := String (ascii_of_nat 34) EmptyString.
Definition newline : string := String (ascii_of_nat 10) EmptyString.

Definition quoted (s : string) : string := dquote +:+ s +:+ dquote.

Definition execError (prog fileName : string) : string :=
  "uqfindexec: unable to execute " +:+ quoted prog
  +:+ " when processing " +:+ quoted fileName +:+ newline.

Definition readError (path fileName : string) : string :=
  "uqfindexec: unable to open " +:+ quoted path
  +:+ " for reading when processing " +:+ quoted fileName +:+ newline.

Definition writeError (path fileName : string) : string :=
  "uqfindexec: unable to write " +:+ quoted path
  +:+ " while processing " +:+ quoted fileName +:+ newline.

Definition decimal (n : Z) : string := NilEmpty.string_of_int (Z.to_int n).

Definition openingMsg (n : Z) : string :=
  "Attempted to process a total of " +:+ decimal n +:+ " files" +:+ newline.
Definition successMsg (n : Z) : string :=
  " - operations succeeded for " +:+ decimal n +:+ " files" +:+ newline.
Definition failedMsg (n : Z) : string :=
  " - processing may have failed for " +:+ decimal n +:+ " files" +:+ newline.
Definition signalMsg (n : Z) : string :=
  " - processing was terminated by signal for " +:+ decimal n +:+ " files" +:+ newline.
Definition notexecMsg (n : Z) : string :=
  " - pipeline not executed for " +:+ decimal n +:+ " files" +:+ newline.

(** ** Program data *)

(** [struct Settings] *)
Record Settings := {
  dir : option string;
  dirDefault : bool;
  parallel : bool;
  statistics : bool;
  allfiles : bool;
  cmd : option string;
  processFailed : bool;
  sigInt : bool
}.

Definition set_sigInt (config : Settings) (b : bool) : Settings :=
  {| dir := dir config; dirDefault := dirDefault config;
     parallel := parallel config; statistics := statistics config;
     allfiles := allfiles config; cmd := cmd config;
     processFailed := processFailed config; sigInt := b |}.

(** [CommandPipeline], as the parser of the course library hands it over:
    the fields the program reads. *)
Record CommandPipeline := {
  numCmds : nat;
  cmdArray : list (list string);
  stdinFileName : option string;
  stdoutFileName : option string
}.

(** [cmdArray[i]] *)
Definition nth_cmd (pipeline : CommandPipeline) (i : nat) : list string :=
  default [] (cmdArray pipeline !! i).

(** ** The operating system and the coordinator's world *)

Inductive oflag := O_RDONLY | O_WRONLY | O_CREAT | O_TRUNC.

Definition STDIN_FILENO : Z := 0.
Definition STDOUT_FILENO : Z := 1.

(** What a process does that the outside can see. *)
Inductive event :=
| EvOpen (path : string) (flags : list oflag) (ret : Z)
| EvClose (fd : Z)
| EvDup2 (oldfd newfd : Z)
| EvStderr (msg : string)
| EvPipe (rd wr : Z)
| EvFork (pid : Z) (fileName : string) (cmdIdx : nat) (argv : list string)
| EvExecvp (argv : list string)
| EvExit (code : Z)
| EvWait (pid : Z) (status : option Z).

(** The three places where [run_pipeline] reads [sigintReceived] during
    the iteration for one file. *)
Inductive poll :=
| PollValidate   (* after a failed validation *)
| PollStart      (* before the sequential run of the file *)
| PollBetween.   (* after the sequential run, before the next file *)

(** The environment of one run.
    - [sys_open fileName path flags]: what [open] returns for [path] while
      [fileName] is being processed (a descriptor, or a negative value).
    - [sys_pipe n]: the two descriptors of the [n]-th pipe.
    - [sys_execvp fileName cmdIdx argv]: [None] when [execvp] returns
      (the program could not be executed), [Some status] when the
      program runs; [status] is then the word [waitpid] reports for it.
    - [sigintReceived i p]: the value of the global flag, which the signal
      handler sets asynchronously, as read at poll point [p] of
      iteration [i].
    - [indeterminate]: the content of an automatic variable or of
      allocated memory that has not been written yet. *)
Record OS := {
  sys_open : string -> string -> list oflag -> Z;
  sys_pipe : nat -> Z * Z;
  sys_execvp : string -> nat -> list string -> option Z;
  sigintReceived : nat -> poll -> bool;
  indeterminate : Z
}.

(** The coordinator's view of the system: the next process identity
    [fork] hands out, the number of pipes made, its children that have
    not been reaped (each with the status it terminates with), and what
    it has done so far. *)
Record World := {
  next_pid : Z;
  pipes_made : nat;
  children : gmap Z Z;
  trace : list event
}.

Definition emit (evs : list event) (w : World) : World :=
  {| next_pid := next_pid w; pipes_made := pipes_made w;
     children := children w; trace := trace w ++ evs |}.

Definition initial_world (first_pid : Z) : World :=
  {| next_pid := first_pid; pipes_made := 0; children := ∅; trace := [] |}.

(** ** Opening redirection files *)

(** [try_open_file]: the descriptor or [-1], and what it did. *)
Definition try_open_file (os : OS) (openFileName fileName : string)
    (readOrWrite : bool) : Z * list event :=
  let newReadFileName := handle_placeholders openFileName fileName in
  if readOrWrite then
    let file := sys_open os fileName newReadFileName [O_RDONLY] in
    if file <? 0 then
      (-1, [EvOpen newReadFileName [O_RDONLY] file;
            EvStderr (readError newReadFileName fileName)])
    else (file, [EvOpen newReadFileName [O_RDONLY] file])
  else
    let file := sys_open os fileName newReadFileName [O_WRONLY; O_CREAT; O_TRUNC] in
    if file <? 0 then
      (-1, [EvOpen newReadFileName [O_WRONLY; O_CREAT; O_TRUNC] file;
            EvStderr (writeError newReadFileName fileName)])
    else (file, [EvOpen newReadFileName [O_WRONLY; O_CREAT; O_TRUNC] file]).

(** The second half of [validate_files]; [done] is what the first half
    did. *)
Definition validate_output (os : OS) (outputFile : option string)
    (fileName : string) (done : list event) : bool * list event :=
  match outputFile with
  | Some name =>
      let '(testopen, evs) := try_open_file os name fileName false in
      if testopen =? -1 then (false, done ++ evs)
      else (true, done ++ evs ++ [EvClose testopen])
  | None => (true, done)
  end.

Definition validate_files (os : OS) (inputFile outputFile : option string)
    (fileName : string) : bool * list event :=
  match inputFile with
  | Some name =>
      let '(testopen, evs) := try_open_file os name fileName true in
      if testopen =? -1 then (false, evs)
      else validate_output os outputFile fileName (evs ++ [EvClose testopen])
  | None => validate_output os outputFile fileName []
  end.

(** ** The child side of [spawn_child] *)

Definition redirect_from_file (os : OS) (readFileName fileName : string)
    : list event :=
  let '(inputFile, evs) := try_open_file os readFileName fileName true in
  evs ++ [EvDup2 inputFile STDIN_FILENO; EvClose inputFile].

Definition redirect_to_file (os : OS) (writeFileName fileName : string)
    : list event :=
  let '(outputFile, evs) := try_open_file os writeFileName fileName false in
  evs ++ [EvDup2 outputFile STDOUT_FILENO; EvClose outputFile].

Definition redirect_from_pipe (pipe : Z) : list event :=
  [EvDup2 pipe STDIN_FILENO; EvClose pipe].

(** [pipe] is the pair (read end, write end). *)
Definition redirect_to_pipe (pipe : Z * Z) : list event :=
  [EvClose (fst pipe); EvDup2 (snd pipe) STDOUT_FILENO; EvClose (snd pipe)].

(** The branch [if (!pid)] of [spawn_child]: what the child does, and
    the status its parent will collect for it.  [nextPipe] is [None] for
    a null pointer. *)
Definition child_main (os : OS) (pipeline : CommandPipeline)
    (cmd : list string) (cmdIdx : nat) (fileName : string)
    (prevPipe : Z) (nextPipe : option (Z * Z)) : list event * Z :=
  let n := Z.of_nat (numCmds pipeline) in
  let i := Z.of_nat cmdIdx in
  let evs_in :=
    match stdinFileName pipeline with
    | Some name =>
        if i =? 0 then redirect_from_file os name fileName
        else if (0 <? i) && (1 <? n) then redirect_from_pipe prevPipe
        else []
    | None =>
        if (0 <? i) && (1 <? n) then redirect_from_pipe prevPipe else []
    end in
  let to_pipe :=
    if (i <? n - 1) && (1 <? n)
    then redirect_to_pipe (default (indeterminate os, indeterminate os) nextPipe)
    else [] in
  let evs_out :=
    match stdoutFileName pipeline with
    | Some name =>
        if i =? n - 1 then redirect_to_file os name fileName else to_pipe
    | None => to_pipe
    end in
  match sys_execvp os fileName cmdIdx cmd with
  | Some status => (evs_in ++ evs_out ++ [EvExecvp cmd], status)
  | None =>
      (evs_in ++ evs_out
       ++ [EvExecvp cmd;
           EvStderr (execError (default EmptyString (cmd !! 0%nat)) fileName);
           EvExit CHILD_PROCESS_ERROR],
       W_EXITCODE CHILD_PROCESS_ERROR 0)
  end.

(** ** The parent side: spawning *)

(** [spawn_child].  [prevPipe] is the content of [*prevPipe]; [nextPipe]
    is [None] for a null pointer and otherwise the content of the
    two-element array.  Returns the process identity together with the
    new contents of [*prevPipe] and of the array. *)
Definition spawn_child (os : OS) (pipeline : CommandPipeline)
    (cmd : list string) (cmdIdx : nat) (fileName : string)
    (prevPipe : Z) (nextPipe : option (Z * Z)) (w : World)
    : Z * Z * option (Z * Z) * World :=
  let n := Z.of_nat (numCmds pipeline) in
  let i := Z.of_nat cmdIdx in
  (* open pipe for output *)
  let '(nextPipe, w) :=
    match nextPipe with
    | Some _ =>
        if 1 <? n then
          let fds := sys_pipe os (pipes_made w) in
          (Some fds,
           {| next_pid := next_pid w; pipes_made := S (pipes_made w);
              children := children w;
              trace := trace w ++ [EvPipe (fst fds) (snd fds)] |})
        else (nextPipe, w)
    | None => (nextPipe, w)
    end in
  (* fork *)
  let pid := next_pid w in
  let status := snd (child_main os pipeline cmd cmdIdx fileName prevPipe nextPipe) in
  let w :=
    {| next_pid := pid + 1; pipes_made := pipes_made w;
       children := <[pid := status]> (children w);
       trace := trace w ++ [EvFork pid fileName cmdIdx cmd] |} in
  (* parent *)
  let w := match nextPipe with
           | Some fds => emit [EvClose (snd fds)] w
           | None => w
           end in
  let w := if 0 <? i then emit [EvClose prevPipe] w else w in
  let prevPipe :=
    match nextPipe with
    | Some fds => if i <? n - 1 then fst fds else prevPipe
    | None => prevPipe
    end in
  (pid, prevPipe, nextPipe, w).

(** The [for] loop of [exec_cmd], with [todo] iterations left. *)
Fixpoint exec_cmd_loop (os : OS) (pipeline : CommandPipeline)
    (fileName : string) (todo : nat) (i : nat)
    (prevPipe : Z) (nextPipe : Z * Z) (pids : list Z) (w : World)
    : list Z * World :=
  match todo with
  | O => (pids, w)
  | S todo' =>
      let newCmd := cmd_copy (nth_cmd pipeline i) fileName in
      let '(pid, prevPipe', nextPipe', w') :=
        if Z.of_nat i <? Z.of_nat (numCmds pipeline) - 1
        then spawn_child os pipeline newCmd i fileName prevPipe (Some nextPipe) w
        else spawn_child os pipeline newCmd i fileName prevPipe None w in
      exec_cmd_loop os pipeline fileName todo' (S i) prevPipe'
        (default nextPipe nextPipe') (<[i := pid]> pids) w'
  end.

(** [exec_cmd]: [pids] is the array to fill. *)
Definition exec_cmd (os : OS) (pipeline : CommandPipeline)
    (fileName : string) (pids : list Z) (w : World) : list Z * World :=
  exec_cmd_loop os pipeline fileName (numCmds pipeline) 0
    (indeterminate os) (indeterminate os, indeterminate os) pids w.

(** [malloc(numCmds * sizeof(pid_t))] *)
Definition malloc_pids (os : OS) (pipeline : CommandPipeline) : list Z :=
  replicate (numCmds pipeline) (indeterminate os).

(** ** The parent side: reaping *)

(** [waitpid(pid, &status, 0)]: the new content of [status].  For a
    process that is not an unreaped child the call fails and [status]
    keeps its content. *)
Definition waitpid (pid : Z) (status : Z) (w : World) : Z * World :=
  match children w !! pid with
  | Some s =>
      (s, {| next_pid := next_pid w; pipes_made := pipes_made w;
             children := delete pid (children w);
             trace := trace w ++ [EvWait pid (Some s)] |})
  | None => (status, emit [EvWait pid None] w)
  end.

(** The [for] loop of [reap_children]: the statuses in array order. *)
Fixpoint reap_loop (pids : list Z) (status : Z) (w : World) : list Z * World :=
  match pids with
  | [] => ([], w)
  | pid :: pids' =>
      let '(status, w) := waitpid pid status w in
      let '(statuses, w) := reap_loop pids' status w in
      (status :: statuses, w)
  end.

(** [reap_children]: [pids] is the array with its [numCmds] elements;
    [status] is not initialised before the first [waitpid]. *)
Definition reap_children (os : OS) (pids : list Z) (stats : list Z) (w : World)
    : list Z * World :=
  let '(statuses, w) := reap_loop pids (indeterminate os) w in
  (count_stats stats statuses, w).

(** ** The scheduler *)

(** [sequential_process]: [pids[0]] is allocated, filled, reaped and
    freed within the call. *)
Definition sequential_process (os : OS) (pipeline : CommandPipeline)
    (fileName : string) (stats : list Z) (w : World) : list Z * World :=
  let '(pids0, w) := exec_cmd os pipeline fileName (malloc_pids os pipeline) w in
  reap_children os pids0 stats w.

(** [parallel_process]: the new content of the array of arrays. *)
Definition parallel_process (os : OS) (pipeline : CommandPipeline)
    (fileName : string) (pids : list (option (list Z))) (fileNo : nat)
    (w : World) : list (option (list Z)) * World :=
  let '(filled, w) := exec_cmd os pipeline fileName (malloc_pids os pipeline) w in
  (<[fileNo := Some filled]> pids, w).

(** What [run_pipeline] changes besides the world. *)
Record RunState := {
  rs_stats : list Z;
  rs_config : Settings;
  rs_pids : list (option (list Z))
}.

(** The first [for] loop of [run_pipeline], from iteration [i] on;
    [files] is what is left of the array and [count] is
    [fileList.count]. *)
Fixpoint run_files (os : OS) (pipeline : CommandPipeline) (count : Z)
    (files : list string) (i : nat) (st : RunState) (w : World)
    : RunState * World :=
  match files with
  | [] => (st, w)
  | file :: files' =>
      let config := rs_config st in
      let '(valid, evs) :=
        validate_files os (stdinFileName pipeline) (stdoutFileName pipeline) file in
      let w := emit evs w in
      if negb valid && negb (sigintReceived os i PollValidate) then
        run_files os pipeline count files' (S i)
          {| rs_stats := incr TOTAL_STATS (incr NOTEXEC (rs_stats st));
             rs_config := config; rs_pids := rs_pids st |} w
      else if negb (parallel config) && negb (sigintReceived os i PollStart) then
        let '(stats, w) := sequential_process os pipeline file (rs_stats st) w in
        if sigintReceived os i PollBetween && (Z.of_nat i <? count - 1) then
          ({| rs_stats := stats; rs_config := set_sigInt config true;
              rs_pids := rs_pids st |}, w)
        else
          run_files os pipeline count files' (S i)
            {| rs_stats := stats; rs_config := config; rs_pids := rs_pids st |} w
      else if parallel config then
        let '(pids, w) := parallel_process os pipeline file (rs_pids st) i w in
        run_files os pipeline count files' (S i)
          {| rs_stats := rs_stats st; rs_config := config; rs_pids := pids |} w
      else
        run_files os pipeline count files' (S i) st w
  end.

(** The second [for] loop of [run_pipeline]: parallel mode reaping. *)
Fixpoint reap_all (os : OS) (pids : list (option (list Z))) (stats : list Z)
    (w : World) : list Z * World :=
  match pids with
  | [] => (stats, w)
  | Some ps :: pids' =>
      let '(stats, w) := reap_children os ps stats w in
      reap_all os pids' stats w
  | None :: pids' => reap_all os pids' stats w
  end.

(** [run_pipeline]: the statistics and the settings as it leaves them. *)
Definition run_pipeline (os : OS) (pipeline : CommandPipeline)
    (config : Settings) (stats : list Z) (fileList : list string) (w : World)
    : list Z * Settings * World :=
  let count := Z.of_nat (length fileList) in
  let pids := if parallel config then replicate (length fileList) None else [None] in
  let '(st, w) :=
    run_files os pipeline count fileList 0
      {| rs_stats := stats; rs_config := config; rs_pids := pids |} w in
  if parallel config then
    let '(stats, w) := reap_all os (rs_pids st) (rs_stats st) w in
    (stats, rs_config st, w)
  else (rs_stats st, rs_config st, w).

Definition print_exit (stats : list Z) : list event :=
  [EvStderr (openingMsg (stat stats TOTAL_STATS));
   EvStderr (successMsg (stat stats SUCCESS));
   EvStderr (failedMsg (stat stats FAIL));
   EvStderr (signalMsg (stat stats SIGNAL));
   EvStderr (notexecMsg (stat stats NOTEXEC))].

(** The exit decision at the end of [main]. *)
Definition exit_status (stats : list Z) (config : Settings) : Z :=
  if negb (stat stats NOTEXEC =? 0) then PROCESS_ERROR
  else if sigInt config then SIGINT_REC
  else 0.

(** [main] from the installation of the signal handler on: the command
    line has been processed into [config] and [pipeline], and the
    directory has been read into [fileList].  Returns the exit status,
    the statistics and the final world. *)
Definition main (os : OS) (pipeline : CommandPipeline) (config : Settings)
    (fileList : list string) (w : World) : Z * list Z * World :=
  let '(stats, config, w) :=
    run_pipeline os pipeline config [0; 0; 0; 0; 0] fileList w in
  let w := if statistics config then emit (print_exit stats) w else w in
  (exit_status stats config, stats, w).

(** ** Observations on traces *)

Definition fork_of (e : event) : option (Z * string * nat * list string) :=
  match e with
  | EvFork pid fileName cmdIdx argv => Some (pid, fileName, cmdIdx, argv)
  | _ => None
  end.

Definition wait_of (e : event) : option Z :=
  match e with
  | EvWait pid _ => Some pid
  | _ => None
  end.

Definition reaped_of (e : event) : option Z :=
  match e with
  | EvWait _ (Some status) => Some status
  | _ => None
  end.

(** The processes spawned, the processes waited for, and the statuses
    collected, each in the order of the trace. *)
Definition forks (tr : list event) := omap fork_of tr.
Definition waits (tr : list event) : list Z := omap wait_of tr.
Definition reaped (tr : list event) : list Z := omap reaped_of tr.

(** ** What validation does *)

Definition probe (os : OS) (fileName path : string) (flags : list oflag)
    (diagnostic : string) : list event :=
  let ret := sys_open os fileName path flags in
  EvOpen path flags ret
  :: (if ret <? 0 then [EvStderr diagnostic] else [EvClose ret]).

Definition opens (os : OS) (fileName path : string) (flags : list oflag) : bool :=
  0 <=? sys_open os fileName path flags.

Definition input_ok (os : OS) (inputFile : option string) (fileName : string) : bool :=
  match inputFile with
  | Some name => opens os fileName (handle_placeholders name fileName) [O_RDONLY]
  | None => true
  end.

Definition output_ok (os : OS) (outputFile : option string) (fileName : string) : bool :=
  match outputFile with
  | Some name =>
      opens os fileName (handle_placeholders name fileName) [O_WRONLY; O_CREAT; O_TRUNC]
  | None => true
  end.

Definition input_probe (os : OS) (inputFile : option string) (fileName : string) :=
  match inputFile with
  | Some name =>
      let path := handle_placeholders name fileName in
      probe os fileName path [O_RDONLY] (readError path fileName)
  | None => []
  end.

Definition output_probe (os : OS) (outputFile : option string) (fileName : string) :=
  match outputFile with
  | Some name =>
      let path := handle_placeholders name fileName in
      probe os fileName path [O_WRONLY; O_CREAT; O_TRUNC] (writeError path fileName)
  | None => []
  end.

Definition valid (os : OS) (pipeline : CommandPipeline) (fileName : string) : bool :=
  fst (validate_files os (stdinFileName pipeline) (stdoutFileName pipeline) fileName).

Definition validation (os : OS) (pipeline : CommandPipeline) (fileName : string)
    : list event :=
  snd (validate_files os (stdinFileName pipeline) (stdoutFileName pipeline) fileName).

(** ** Stages and their processes *)

(** The status a stage terminates with. *)
Definition child_status (os : OS) (fileName : string) (cmdIdx : nat)
    (argv : list string) : Z :=
  match sys_execvp os fileName cmdIdx argv with
  | Some status => status
  | None => W_EXITCODE CHILD_PROCESS_ERROR 0
  end.

Definition stage_argv (pipeline : CommandPipeline) (fileName : string) (j : nat) :=
  cmd_copy (nth_cmd pipeline j) fileName.

Definition stage_status (os : OS) (pipeline : CommandPipeline)
    (fileName : string) (j : nat) : Z :=
  child_status os fileName j (stage_argv pipeline fileName j).

Definition stage_statuses (os : OS) (pipeline : CommandPipeline)
    (fileName : string) : list Z :=
  map (stage_status os pipeline fileName) (seq 0 (numCmds pipeline)).

(** The process identities [first], [first + 1], ... of [n] stages. *)
Definition stage_pids (first : Z) (n : nat) : list Z :=
  map (fun j => first + Z.of_nat j) (seq 0 n).

(** The [fork] records of stages [i], [i+1], ... ([n] of them) of one
    file's pipeline, the first one getting identity [first]. *)
Definition stage_forks (pipeline : CommandPipeline) (fileName : string)
    (first : Z) (i n : nat) :=
  map (fun j => (first + Z.of_nat j, fileName, (i + j)%nat,
                 stage_argv pipeline fileName (i + j)))
      (seq 0 n).

(** No unreaped child has an identity that [fork] may still hand out. *)
Definition pids_fresh (w : World) : Prop :=
  forall pid status, children w !! pid = Some status -> pid < next_pid w.

(** The process identities held in the array of arrays. *)
Fixpoint pending (pids : list (option (list Z))) : list Z :=
  match pids with
  | [] => []
  | Some ps :: pids' => ps ++ pending pids'
  | None :: pids' => pending pids'
  end.

(** A pipeline run is the file and the identity of its first stage. *)
Definition run_forks (pipeline : CommandPipeline) (runs : list (string * Z)) :=
  flat_map (fun r => stage_forks pipeline (fst r) (snd r) 0 (numCmds pipeline)) runs.

Definition run_pids (pipeline : CommandPipeline) (runs : list (string * Z)) : list Z :=
  flat_map (fun r => stage_pids (snd r) (numCmds pipeline)) runs.

(** The runs of the files [files] when the first process of the first
    of them gets identity [first] and identities are handed out in
    order. *)
Fixpoint runs_from (pipeline : CommandPipeline) (first : Z) (files : list string)
    : list (string * Z) :=
  match files with
  | [] => []
  | file :: files' =>
      (file, first) :: runs_from pipeline (first + Z.of_nat (numCmds pipeline)) files'
  end.

(** The environment with another answer of [execvp]. *)
Definition with_execvp (os : OS)
    (answer : string -> nat -> list string -> option Z) : OS :=
  {| sys_open := sys_open os; sys_pipe := sys_pipe os; sys_execvp := answer;
     sigintReceived := sigintReceived os; indeterminate := indeterminate os |}.


(** ** The loop over the files, as a relation *)

(** The first loop of [run_pipeline] as a relation: each constructor is
    one way through the body of the loop. *)
Inductive iterates (os : OS) (pipeline : CommandPipeline) (count : Z)
  : list string -> nat -> RunState -> World -> RunState -> World -> Prop :=
| it_end i st w :
    iterates os pipeline count [] i st w st w
| it_not_executed file files i st w st' w' :
    valid os pipeline file = false ->
    sigintReceived os i PollValidate = false ->
    iterates os pipeline count files (S i)
      {| rs_stats := incr TOTAL_STATS (incr NOTEXEC (rs_stats st));
         rs_config := rs_config st; rs_pids := rs_pids st |}
      (emit (validation os pipeline file) w) st' w' ->
    iterates os pipeline count (file :: files) i st w st' w'
| it_sequential_break file files i st w stats w1 :
    valid os pipeline file = true \/ sigintReceived os i PollValidate = true ->
    parallel (rs_config st) = false ->
    sigintReceived os i PollStart = false ->
    sequential_process os pipeline file (rs_stats st)
      (emit (validation os pipeline file) w) = (stats, w1) ->
    sigintReceived os i PollBetween = true ->
    Z.of_nat i < count - 1 ->
    iterates os pipeline count (file :: files) i st w
      {| rs_stats := stats; rs_config := set_sigInt (rs_config st) true;
         rs_pids := rs_pids st |} w1
| it_sequential file files i st w stats w1 st' w' :
    valid os pipeline file = true \/ sigintReceived os i PollValidate = true ->
    parallel (rs_config st) = false ->
    sigintReceived os i PollStart = false ->
    sequential_process os pipeline file (rs_stats st)
      (emit (validation os pipeline file) w) = (stats, w1) ->
    sigintReceived os i PollBetween = false \/ count - 1 <= Z.of_nat i ->
    iterates os pipeline count files (S i)
      {| rs_stats := stats; rs_config := rs_config st; rs_pids := rs_pids st |}
      w1 st' w' ->
    iterates os pipeline count (file :: files) i st w st' w'
| it_parallel file files i st w pids w1 st' w' :
    valid os pipeline file = true \/ sigintReceived os i PollValidate = true ->
    parallel (rs_config st) = true ->
    parallel_process os pipeline file (rs_pids st) i
      (emit (validation os pipeline file) w) = (pids, w1) ->
    iterates os pipeline count files (S i)
      {| rs_stats := rs_stats st; rs_config := rs_config st; rs_pids := pids |}
      w1 st' w' ->
    iterates os pipeline count (file :: files) i st w st' w'
| it_skipped file files i st w st' w' :
    valid os pipeline file = true \/ sigintReceived os i PollValidate = true ->
    parallel (rs_config st) = false ->
    sigintReceived os i PollStart = true ->
    iterates os pipeline count files (S i) st
      (emit (validation os pipeline file) w) st' w' ->
    iterates os pipeline count (file :: files) i st w st' w'.

(** The interrupt flag is never seen set. *)
Definition quiet (os : OS) : Prop :=
  forall i p, sigintReceived os i p = false.

(** ** Tallies *)

(** Every classified file increments its bucket and the total. *)
Definition bump (o : Outcome) (stats : list Z) : list Z :=
  incr TOTAL_STATS (incr (bucket o) stats).

(** What the counters and the collected statuses have to do with each
    other during a run. *)
Definition tally_inv (stats : list Z) (tr : list event) : Prop :=
  length stats = 5%nat /\
  0 <= stat stats NOTEXEC /\
  (existsb could_not_execute (reaped tr) = true -> 1 <= stat stats NOTEXEC).

(** What one file adds to the statistics: in a sequential run, and in
    the first and in the second pass of a parallel run. *)
Definition tally (os : OS) (pipeline : CommandPipeline) (stats : list Z)
    (file : string) : list Z :=
  if valid os pipeline file
  then count_stats stats (stage_statuses os pipeline file)
  else incr TOTAL_STATS (incr NOTEXEC stats).

Definition tally_first_pass (os : OS) (pipeline : CommandPipeline)
    (stats : list Z) (file : string) : list Z :=
  if valid os pipeline file then stats
  else incr TOTAL_STATS (incr NOTEXEC stats).

Definition tally_second_pass (os : OS) (pipeline : CommandPipeline)
    (stats : list Z) (file : string) : list Z :=
  if valid os pipeline file
  then count_stats stats (stage_statuses os pipeline file)
  else stats.

(** An entry of the array of arrays is right for its file: empty for a
    file that failed validation, and otherwise the identities of
    children that will report the statuses of the file's stages. *)
Definition entry_ok (os : OS) (pipeline : CommandPipeline) (m : gmap Z Z)
    (file : string) (entry : option (list Z)) : Prop :=
  match entry with
  | Some ps =>
      valid os pipeline file = true /\
      Forall2 (fun p s => m !! p = Some s) ps (stage_statuses os pipeline file)
  | None => valid os pipeline file = false
  end.

(** ** Runs from [main] *)

Definition run_stats os pipeline config fileList w : list Z :=
  fst (fst (run_pipeline os pipeline config [0; 0; 0; 0; 0] fileList w)).
Definition run_config os pipeline config fileList w : Settings :=
  snd (fst (run_pipeline os pipeline config [0; 0; 0; 0; 0] fileList w)).
Definition run_trace os pipeline config fileList w : list event :=
  trace (snd (run_pipeline os pipeline config [0; 0; 0; 0; 0] fileList w)).

(** ** Example environments *)

Definition EXIT_OK : Z := W_EXITCODE 0 0.

(** [can_open path]: whether [open] succeeds; [program name]: [None] when
    the program cannot be executed, and otherwise the status its process
    ends with; [flag]: the interrupt flag at each poll point. *)
Definition demo_os (can_open : string -> bool) (program : string -> option Z)
    (flag : nat -> poll -> bool) : OS :=
  {| sys_open := fun _ path _ => if can_open path then 3 else -1;
     sys_pipe := fun n => (Z.of_nat (2 * n) + 3, Z.of_nat (2 * n) + 4);
     sys_execvp := fun _ _ argv => program (default EmptyString (argv !! 0%nat));
     sigintReceived := flag;
     indeterminate := 0 |}.

(** The settings of a run in the current directory without statistics. *)
Definition settings (par : bool) : Settings :=
  {| dir := Some "."; dirDefault := true; parallel := par; statistics := false;
     allfiles := false; cmd := None; processFailed := false; sigInt := false |}.

(** [cat < in/{}] *)
Definition cat_pipeline : CommandPipeline :=
  {| numCmds := 1; cmdArray := [["cat"]];
     stdinFileName := Some "in/{}"; stdoutFileName := None |}.

(** [echo {} | wc] *)
Definition echo_wc_pipeline : CommandPipeline :=
  {| numCmds := 2; cmdArray := [["echo"; "{}"]; ["wc"]];
     stdinFileName := None; stdoutFileName := None |}.

Definition interrupted_os : OS :=
  demo_os (fun _ => false) (fun _ => Some EXIT_OK) (fun _ _ => true).

(** The flag is set right after the first file's pipeline has been
    reaped and stays set. *)
Definition interrupt_after_first (i : nat) (p : poll) : bool :=
  match i, p with
  | O, PollBetween => true
  | O, _ => false
  | S _, _ => true
  end.

Definition after_first_os : OS :=
  demo_os (fun _ => true) (fun _ => Some EXIT_OK) interrupt_after_first.

(** Nothing is interrupted; [wc] cannot be executed. *)
Definition no_wc_os : OS :=
  demo_os (fun _ => true)
    (fun prog => if String.eqb prog "wc" then None else Some EXIT_OK)
    (fun _ _ => false).

(** Nothing is interrupted; every program runs and exits with code 99. *)
Definition exit_99_os : OS :=
  demo_os (fun _ => true) (fun _ => Some (W_EXITCODE 99 0)) (fun _ _ => false).


(** ** More observations on runs *)

Definition failed_wait_of (e : event) : option Z :=
  match e with
  | EvWait pid None => Some pid
  | _ => None
  end.

(** The calls of [waitpid] that found no child to wait for. *)
Definition failed_waits (tr : list event) : list Z := omap failed_wait_of tr.

(** The five counters add up: none is negative, the total is the sum of
    the four outcomes, and it does not exceed [files]. *)
Definition counters_add_up (stats : list Z) (files : Z) : Prop :=
  length stats = 5%nat /\
  0 <= stat stats SUCCESS /\ 0 <= stat stats FAIL /\
  0 <= stat stats SIGNAL /\ 0 <= stat stats NOTEXEC /\
  stat stats TOTAL_STATS
  = stat stats SUCCESS + stat stats FAIL + stat stats SIGNAL + stat stats NOTEXEC /\
  stat stats TOTAL_STATS <= files.

(** The number of arrays held in the array of arrays. *)
Fixpoint retained (pids : list (option (list Z))) : nat :=
  match pids with
  | [] => O
  | Some _ :: pids' => S (retained pids')
  | None :: pids' => retained pids'
  end.

(** An entry of the array of arrays holds the identities of children
    that wait to be reaped, in the order of the stages of some file. *)
Definition entry_owned (os : OS) (pipeline : CommandPipeline) (m : gmap Z Z)
    (entry : option (list Z)) : Prop :=
  match entry with
  | Some ps =>
      exists file,
        Forall2 (fun p s => m !! p = Some s) ps (stage_statuses os pipeline file)
  | None => True
  end.

Definition pipe_of (e : event) : option (Z * Z) :=
  match e with
  | EvPipe rd wr => Some (rd, wr)
  | _ => None
  end.

Definition close_of (e : event) : option Z :=
  match e with
  | EvClose fd => Some fd
  | _ => None
  end.

(** The pipes created and the descriptors closed, each in the order of
    the trace. *)
Definition pipes (tr : list event) : list (Z * Z) := omap pipe_of tr.
Definition closes (tr : list event) : list Z := omap close_of tr.

(** Both descriptors of every pipe. *)
Definition pipe_ends (ps : list (Z * Z)) : list Z :=
  flat_map (fun p => [fst p; snd p]) ps.

(** The environment with another content of uninitialised memory. *)
Definition with_indeterminate (os : OS) (x : Z) : OS :=
  {| sys_open := sys_open os; sys_pipe := sys_pipe os;
     sys_execvp := sys_execvp os; sigintReceived := sigintReceived os;
     indeterminate := x |}.

(** ** The front end: command line, directory and command *)

(** [enum ExitStatus], the statuses of the front end, and [MAX_CMD_LEN]. *)
Definition USAGE_ERROR : Z := 18.
Definition DIR_ERROR : Z := 6.
Definition CMD_ERROR : Z := 9.
Definition MAX_CMD_LEN : Z := 8.

Definition usageError : string :=
  "Usage: uqfindexec [--dir dir] [--parallel] [--statistics] [--allfiles] [--descend] [cmd]"
  +:+ newline.
Definition dirError (dirName : string) : string :=
  "uqfindexec: directory " +:+ quoted dirName +:+ " can not be accessed" +:+ newline.
Definition cmdError : string := "uqfindexec: command is not valid" +:+ newline.

Definition dirArg : string := "--dir".
Definition parallelArg : string := "--parallel".
Definition statArg : string := "--statistics".
Definition allFilesArg : string := "--allfiles".
Definition descendArg : string := "--descend".

(** How a function that may call [exit] ends: with its result, or with
    the exit status of the program and what it wrote to [stderr]. *)
Inductive completion (A : Type) : Type :=
| Returned (a : A)
| Exited (status : Z) (diagnostic : string).
Arguments Returned {A} a.
Arguments Exited {A} status diagnostic.

Definition usage_error {A} : completion A := Exited USAGE_ERROR usageError.
Definition dir_error {A} (dirName : string) : completion A :=
  Exited DIR_ERROR (dirError dirName).
Definition cmd_error {A} : completion A := Exited CMD_ERROR cmdError.

(** [check_dd] *)
Definition check_dd (str : string) : bool :=
  if strlen str <? 2 then false
  else match str with
       | String a (String b _) => Ascii.eqb a "-" && Ascii.eqb b "-"
       | _ => false
       end.

Definition set_dir (config : Settings) (d : option string) : Settings :=
  {| dir := d; dirDefault := dirDefault config;
     parallel := parallel config; statistics := statistics config;
     allfiles := allfiles config; cmd := cmd config;
     processFailed := processFailed config; sigInt := sigInt config |}.

Definition set_dirDefault (config : Settings) (b : bool) : Settings :=
  {| dir := dir config; dirDefault := b;
     parallel := parallel config; statistics := statistics config;
     allfiles := allfiles config; cmd := cmd config;
     processFailed := processFailed config; sigInt := sigInt config |}.

Definition set_parallel (config : Settings) (b : bool) : Settings :=
  {| dir := dir config; dirDefault := dirDefault config;
     parallel := b; statistics := statistics config;
     allfiles := allfiles config; cmd := cmd config;
     processFailed := processFailed config; sigInt := sigInt config |}.

Definition set_statistics (config : Settings) (b : bool) : Settings :=
  {| dir := dir config; dirDefault := dirDefault config;
     parallel := parallel config; statistics := b;
     allfiles := allfiles config; cmd := cmd config;
     processFailed := processFailed config; sigInt := sigInt config |}.

Definition set_allfiles (config : Settings) (b : bool) : Settings :=
  {| dir := dir config; dirDefault := dirDefault config;
     parallel := parallel config; statistics := statistics config;
     allfiles := b; cmd := cmd config;
     processFailed := processFailed config; sigInt := sigInt config |}.

Definition set_cmd (config : Settings) (c : option string) : Settings :=
  {| dir := dir config; dirDefault := dirDefault config;
     parallel := parallel config; statistics := statistics config;
     allfiles := allfiles config; cmd := c;
     processFailed := processFailed config; sigInt := sigInt config |}.

(** [!p] for a pointer. *)
Definition is_null {A} (p : option A) : bool :=
  match p with
  | Some _ => false
  | None => true
  end.

(** [i == argc - 1], for [rest] the arguments after [argv[i]]. *)
Definition is_last (rest : list string) : bool :=
  match rest with
  | [] => true
  | _ :: _ => false
  end.

(** The [for] loop of [process_command_line]: [args] is [argv] from
    index [i] on, so that [argc > i + 1] reads: an argument follows, and
    [i == argc - 1] reads: no argument follows. *)
Fixpoint process_arguments (args : list string) (config : Settings)
    (descend : bool) : completion Settings :=
  match args with
  | [] => Returned config
  | arg :: rest =>
      let otherwise :=
        if String.eqb arg parallelArg && negb (parallel config) then
          process_arguments rest (set_parallel config true) descend
        else if String.eqb arg statArg && negb (statistics config) then
          process_arguments rest (set_statistics config true) descend
        else if String.eqb arg allFilesArg && negb (allfiles config) then
          process_arguments rest (set_allfiles config true) descend
        else if String.eqb arg descendArg && negb descend then
          process_arguments rest config true
        else if is_last rest && negb (String.eqb arg dirArg)
                && (0 <? strlen arg) && negb (check_dd arg) then
          process_arguments rest (set_cmd config (Some arg)) descend
        else usage_error in
      match String.eqb arg dirArg && is_null (dir config), rest with
      | true, value :: rest' =>
          if String.eqb value "" then usage_error
          else process_arguments rest' (set_dir config (Some value)) descend
      | _, _ => otherwise
      end
  end.

(** [Settings config = {NULL, 0, 0, 0, 0, NULL, 0, 0}] *)
Definition blank_settings : Settings :=
  {| dir := None; dirDefault := false; parallel := false; statistics := false;
     allfiles := false; cmd := None; processFailed := false; sigInt := false |}.

(** [process_command_line]: [argc] is the length of [argv]. *)
Definition process_command_line (argv : list string) : completion Settings :=
  let argc := Z.of_nat (length argv) in
  if MAX_CMD_LEN <? argc then usage_error
  else process_arguments (drop 1 argv) blank_settings false.

(** What the front end asks of the file system: whether [opendir]
    succeeds; the entry names [scandir] delivers, in its order, or [None]
    when it fails; and for [stat], [None] when it fails and otherwise
    whether the mode is that of a regular file. *)
Record FileSystem := {
  sys_opendir : string -> bool;
  sys_scandir : string -> option (list string);
  sys_stat : string -> option bool
}.

(** [validate_args]: the settings as it leaves them and the pipeline
    pointer it returns.  [parse_pipeline_string] is the parser of the
    course library. *)
Definition validate_args (fs : FileSystem)
    (parse_pipeline_string : string -> option CommandPipeline)
    (config : Settings) : completion (Settings * option CommandPipeline) :=
  let checked :=
    match dir config with
    | Some d => if sys_opendir fs d then Returned config else dir_error d
    | None => Returned (set_dirDefault (set_dir config (Some ".")) true)
    end in
  match checked with
  | Exited status diagnostic => Exited status diagnostic
  | Returned config =>
      match cmd config with
      | Some c =>
          match parse_pipeline_string c with
          | Some pipeline => Returned (config, Some pipeline)
          | None => cmd_error
          end
      | None =>
          Returned (set_cmd config (Some "echo {}"),
                    parse_pipeline_string "echo {}")
      end
  end.

(** [is_hidden] *)
Definition is_hidden (fileName : string) : bool :=
  match fileName with
  | String c _ => Ascii.eqb c "."
  | EmptyString => false
  end.

(** [dir[strLen - 1]]; for the empty string the read is outside the
    array and there is no value. *)
Fixpoint last_char (s : string) : option ascii :=
  match s with
  | EmptyString => None
  | String c EmptyString => Some c
  | String _ s' => last_char s'
  end.

(** [check_dir_format]: [None] when the behaviour is not defined. *)
Definition check_dir_format (dir : string) : option string :=
  let fullDir := strdup dir in
  match last_char dir with
  | Some c => if negb (Ascii.eqb c "/") then Some (fullDir +:+ "/") else Some fullDir
  | None => None
  end.

(** [if_valid_file]; [d_name] is [entry->d_name]. *)
Definition if_valid_file (fs : FileSystem) (d_name dir : string) (config : Settings) : Z :=
  if is_hidden d_name && negb (allfiles config) then 0
  else
    let linkPath := strdup dir +:+ d_name in
    match sys_stat fs linkPath with
    | Some true => 1
    | _ => 0
    end.

(** [struct FileList]: [files] is the allocated array, an element being
    [None] until it is written. *)
Record FileList := {
  files : list (option string);
  count : nat
}.

(** [fileList.files[fileList.count++] = name] *)
Definition store (fileList : FileList) (name : string) : FileList :=
  {| files := <[count fileList := Some name]> (files fileList);
     count := S (count fileList) |}.

(** The [for] loop of [read_dir] over the entries [list]. *)
Fixpoint store_files (fs : FileSystem) (config : Settings) (fullDir : string)
    (list : list string) (fileList : FileList) : FileList :=
  match list with
  | [] => fileList
  | d_name :: list' =>
      let fileName := strdup d_name in
      if negb (if_valid_file fs d_name fullDir config =? 0) then
        if dirDefault config then
          store_files fs config fullDir list' (store fileList fileName)
        else
          store_files fs config fullDir list' (store fileList (fullDir +:+ fileName))
      else store_files fs config fullDir list' fileList
  end.

(** [read_dir]: [None] when the behaviour is not defined, which is the
    case when [scandir] fails: [numFiles] is [-1] and the last loop
    frees [list[-2]], [list[-3]], ... of an array that was never set. *)
Definition read_dir (fs : FileSystem) (config : Settings) : option FileList :=
  match dir config with
  | Some dirpath =>
      match check_dir_format dirpath with
      | Some fullDir =>
          match sys_scandir fs dirpath with
          | Some list =>
              let numFiles := length list in
              Some (store_files fs config fullDir list
                      {| files := replicate numFiles None; count := 0 |})
          | None => None
          end
      | None => None
      end
  | None => None
  end.

(** The names a [FileList] holds. *)
Definition file_names (fileList : FileList) : list string :=
  omap id (take (count fileList) (files fileList)).

(** ** The command line, as the usage message words it *)

Inductive switch :=
| Dir (value : string)
| Parallel
| Statistics
| Allfiles
| Descend.

#[global] Instance switch_eq_dec : EqDecision switch.
Proof. solve_decision. Defined.

Definition option_name (s : switch) : string :=
  match s with
  | Dir _ => dirArg
  | Parallel => parallelArg
  | Statistics => statArg
  | Allfiles => allFilesArg
  | Descend => descendArg
  end.

Definition switch_words (s : switch) : list string :=
  match s with
  | Dir value => [dirArg; value]
  | _ => [option_name s]
  end.

Definition command_words (command : option string) : list string :=
  match command with
  | Some c => [c]
  | None => []
  end.

(** No option is given twice, the directory is not the empty string, and
    the command is neither empty nor does it start with two dashes. *)
Definition well_formed (switches : list switch) (command : option string) : Prop :=
  NoDup (map option_name switches) /\
  (forall value, Dir value ∈ switches -> value <> "") /\
  (forall c, command = Some c -> c <> "" /\ has_prefix c "--" = false).

Fixpoint dir_of (switches : list switch) : option string :=
  match switches with
  | [] => None
  | Dir value :: _ => Some value
  | _ :: switches' => dir_of switches'
  end.

(** The settings that [switches] and [command] ask for, on top of
    [config]. *)
Definition merge_settings (config : Settings) (switches : list switch)
    (command : option string) : Settings :=
  {| dir := match dir_of switches with Some v => Some v | None => dir config end;
     dirDefault := dirDefault config;
     parallel := parallel config || bool_decide (Parallel ∈ switches);
     statistics := statistics config || bool_decide (Statistics ∈ switches);
     allfiles := allfiles config || bool_decide (Allfiles ∈ switches);
     cmd := match command with Some c => Some c | None => cmd config end;
     processFailed := processFailed config; sigInt := sigInt config |}.

Definition settings_of (switches : list switch) (command : option string) : Settings :=
  merge_settings blank_settings switches command.

(** The option has not been seen yet. *)
Definition option_unset (config : Settings) (descend : bool) (s : switch) : bool :=
  match s with
  | Dir _ => is_null (dir config)
  | Parallel => negb (parallel config)
  | Statistics => negb (statistics config)
  | Allfiles => negb (allfiles config)
  | Descend => negb descend
  end.

(** How many arguments the options not seen yet can take up. *)
Definition room (config : Settings) (descend : bool) : nat :=
  ((if is_null (dir config) then 2 else 0)
   + (if parallel config then 0 else 1)
   + (if statistics config then 0 else 1)
   + (if allfiles config then 0 else 1)
   + (if descend then 0 else 1))%nat.

(** [dir] with a slash at its end. *)
Definition with_slash (dir : string) : string :=
  if ends_with "/" dir then dir else dir +:+ "/".

(** What [read_dir] keeps of the entry [name] of [dir]. *)
Definition listed (fs : FileSystem) (config : Settings) (dir name : string) : bool :=
  (negb (is_hidden name) || allfiles config)
  && bool_decide (sys_stat fs (with_slash dir +:+ name) = Some true).

(** The name under which [read_dir] passes on the entry [name]. *)
Definition path_of (config : Settings) (dir name : string) : string :=
  if dirDefault config then name else with_slash dir +:+ name.

(** One iteration of the loop, by cases. *)
Inductive iteration (config : Settings) (descend : bool)
  : list string -> list string -> Settings -> bool -> switch -> Prop :=
| iter_dir value rest :
    is_null (dir config) = true -> value <> "" ->
    iteration config descend (dirArg :: value :: rest) rest
      (set_dir config (Some value)) descend (Dir value)
| iter_parallel rest :
    parallel config = false ->
    iteration config descend (parallelArg :: rest) rest
      (set_parallel config true) descend Parallel
| iter_statistics rest :
    statistics config = false ->
    iteration config descend (statArg :: rest) rest
      (set_statistics config true) descend Statistics
| iter_allfiles rest :
    allfiles config = false ->
    iteration config descend (allFilesArg :: rest) rest
      (set_allfiles config true) descend Allfiles
| iter_descend rest :
    descend = false ->
    iteration config descend (descendArg :: rest) rest config true Descend.

(** ** The program as a whole *)

(** [main] from its first line on: the exit status and the final world,
    or [None] where the behaviour is not defined (a null pipeline is
    dereferenced by [run_pipeline]; see [read_dir]).  A function that
    exits has written its diagnostic to [stderr]. *)
Definition uqfindexec (fs : FileSystem)
    (parse_pipeline_string : string -> option CommandPipeline) (os : OS)
    (argv : list string) (w : World) : option (Z * World) :=
  match process_command_line argv with
  | Exited status diagnostic => Some (status, emit [EvStderr diagnostic] w)
  | Returned config =>
      match validate_args fs parse_pipeline_string config with
      | Exited status diagnostic => Some (status, emit [EvStderr diagnostic] w)
      | Returned (config, Some pipeline) =>
          match read_dir fs config with
          | Some fileList =>
              let '(status, _, w) :=
                main os pipeline config (file_names fileList) w in
              Some (status, w)
          | None => None
          end
      | Returned (_, None) => None
      end
  end.

(** ** Children alive *)

(** The number of children that have been spawned and not reaped, after
    one more event. *)
Definition alive_step (alive : nat) (e : event) : nat :=
  match e with
  | EvFork _ _ _ _ => S alive
  | EvWait _ (Some _) => Nat.pred alive
  | _ => alive
  end.

Definition alive_after (alive : nat) (tr : list event) : nat :=
  fold_left alive_step tr alive.

(** The largest number of children alive at any moment of [tr]. *)
Fixpoint peak (alive : nat) (tr : list event) : nat :=
  match tr with
  | [] => alive
  | e :: tr' => Nat.max alive (peak (alive_step alive e) tr')
  end.

(** ** An example front end *)

(** [/tmp] can be opened and holds two regular files, one of them hidden,
    and a directory. *)
Definition demo_fs : FileSystem :=
  {| sys_opendir := fun d => String.eqb d "/tmp";
     sys_scandir := fun _ => Some ["."; ".."; ".profile"; "a.txt"; "sub"];
     sys_stat := fun path =>
       Some (String.eqb path "/tmp/a.txt" || String.eqb path "/tmp/.profile") |}.

Definition demo_parse (c : string) : option CommandPipeline := Some cat_pipeline.

Definition demo_argv : list string :=
  ["uqfindexec"; "--dir"; "/tmp"; "--parallel"; "cat {}"].

Definition demo_settings : Settings :=
  {| dir := Some "/tmp"; dirDefault := false; parallel := true;
     statistics := false; allfiles := false; cmd := Some "cat {}";
     processFailed := false; sigInt := false |}.

(** ** Waits, one by one *)

Definition reap_of (e : event) : option (Z * option Z) :=
  match e with
  | EvWait pid status => Some (pid, status)
  | _ => None
  end.

(** The calls of [waitpid] in the order of the trace: the process waited
    for, and the status collected or [None] when the call failed. *)
Definition reaps (tr : list event) : list (Z * option Z) := omap reap_of tr.

(** The waits of one file's pipeline whose first stage has identity
    [first]: one per stage, in stage order, each finding its process and
    collecting the status of its stage. *)
Definition stage_reaps (os : OS) (pipeline : CommandPipeline)
    (fileName : string) (first : Z) : list (Z * option Z) :=
  map (fun j => (first + Z.of_nat j, Some (stage_status os pipeline fileName j)))
      (seq 0 (numCmds pipeline)).

Definition run_reaps (os : OS) (pipeline : CommandPipeline)
    (runs : list (string * Z)) : list (Z * option Z) :=
  flat_map (fun r => stage_reaps os pipeline (fst r) (snd r)) runs.

(** The arrays kept in the array of arrays are those of the runs [runs],
    in order, and their processes wait to be reaped. *)
Fixpoint entries_own (os : OS) (pipeline : CommandPipeline) (m : gmap Z Z)
    (runs : list (string * Z)) (entries : list (option (list Z))) : Prop :=
  match entries with
  | [] => runs = []
  | None :: entries' => entries_own os pipeline m runs entries'
  | Some ps :: entries' =>
      match runs with
      | [] => False
      | r :: runs' =>
          ps = stage_pids (snd r) (numCmds pipeline) /\
          Forall2 (fun p s => m !! p = Some s) ps
            (stage_statuses os pipeline (fst r)) /\
          entries_own os pipeline m runs' entries'
      end
  end.

(** The process identity of a [fork] record. *)
Definition fork_pid (f : Z * string * nat * list string) : Z := fst (fst (fst f)).

(** ** The two modes and the environment *)

(** The two environments give every file of the list the same result of
    validation and, where it validates, the same statuses of its
    stages. *)
Definition same_outcomes (os1 os2 : OS) (pipeline : CommandPipeline)
    (fileList : list string) : Prop :=
  forall file,
    file ∈ fileList ->
    valid os1 pipeline file = valid os2 pipeline file /\
    (valid os1 pipeline file = true ->
     stage_statuses os1 pipeline file = stage_statuses os2 pipeline file).

(** [sleep 1 < {} | xargs rm -f b]: the pipeline of every file removes
    the file [b], a second after it was started. *)
Definition remove_b_pipeline : CommandPipeline :=
  {| numCmds := 2; cmdArray := [["sleep"; "1"]; ["xargs"; "rm"; "-f"; "b"]];
     stdinFileName := Some "{}"; stdoutFileName := None |}.

(** What the environment answers when that pipeline is run over the
    files [a] and [b], never interrupted.  In sequential mode the pipeline
    of [a] has ended, and [b] is gone, when [b] is validated; in parallel
    mode [b] is validated right after the pipeline of [a] was spawned,
    while it is still there.  Every program ends with exit code 0. *)
Definition sequential_view : OS :=
  demo_os (fun path => negb (String.eqb path "b")) (fun _ => Some EXIT_OK)
    (fun _ _ => false).

Definition parallel_view : OS :=
  demo_os (fun _ => true) (fun _ => Some EXIT_OK) (fun _ _ => false).

(** ** An interrupt between two polls *)

(** The flag is set after the poll that follows the first file and
    before the second file is looked at, and stays set. *)
Definition interrupt_before_second (i : nat) (p : poll) : bool :=
  match i with
  | O => false
  | S _ => true
  end.

Definition before_second_os : OS :=
  demo_os (fun _ => true) (fun _ => Some EXIT_OK) interrupt_before_second.

(** * Theorems *)

(** ** Strings and the marker *)

Lemma count_loop_step checkStr count :
  count_loop checkStr count =
  match strstr checkStr "{}" with
  | Some found => count_loop (ptr_add found 2) (count + 1)
  | None => count
  end.
Proof.
  funelim (count_loop checkStr count);
    match goal with E : strstr _ _ = _ |- _ => rewrite E end; reflexivity.
Qed.

Lemma fill_loop_step fill tempPtr newStr :
  fill_loop fill tempPtr newStr =
  match strstr tempPtr "{}" with
  | Some nextPlaceholder =>
      fill_loop fill (ptr_add nextPlaceholder 2)
        (newStr
         +:+ substring 0 (String.length tempPtr - String.length nextPlaceholder) tempPtr
         +:+ fill)
  | None => newStr +:+ tempPtr
  end.
Proof.
  funelim (fill_loop fill tempPtr newStr);
    match goal with E : strstr _ _ = _ |- _ => rewrite E end; reflexivity.
Qed.

Lemma append_nil (s : string) : "" +:+ s = s.
Proof. reflexivity. Qed.

Lemma append_cons c (a b : string) : String c a +:+ b = String c (a +:+ b).
Proof. reflexivity. Qed.

Lemma append_assoc (a b c : string) : (a +:+ b) +:+ c = a +:+ (b +:+ c).
Proof.
  induction a as [|x a IH]; [reflexivity|].
  rewrite !append_cons. now rewrite IH.
Qed.

Lemma append_length (a b : string) :
  String.length (a +:+ b) = (String.length a + String.length b)%nat.
Proof.
  induction a as [|x a IH]; [reflexivity|].
  rewrite append_cons. cbn [String.length]. now rewrite IH.
Qed.

Lemma has_prefix_head c d rest :
  has_prefix (String c (String d rest)) "{}" = Ascii.eqb "{" c && Ascii.eqb "}" d.
Proof. cbn [has_prefix]. now rewrite andb_true_r. Qed.

Lemma has_prefix_single c : has_prefix (String c "") "{}" = false.
Proof. cbn [has_prefix]. now rewrite andb_false_r. Qed.

(** Induction that follows the scan: an empty string, a marker followed
    by a string, or a character that does not start a marker followed by
    a string. *)
Lemma marker_ind (P : string -> Prop) :
  P "" ->
  (forall rest, P rest -> P (String "{" (String "}" rest))) ->
  (forall c s, has_prefix (String c s) "{}" = false -> P s -> P (String c s)) ->
  forall s, P s.
Proof.
  intros Hnil Hmark Hchar s.
  assert (H : forall n s, (String.length s <= n)%nat -> P s).
  { clear s. induction n as [|n IH]; intros s Hlen.
    - destruct s; [exact Hnil | simpl in Hlen; lia].
    - destruct s as [|c s]; [exact Hnil|].
      destruct (has_prefix (String c s) "{}") eqn:E.
      + apply has_prefix_marker in E as [rest [= -> ->]].
        apply Hmark, IH. simpl in Hlen. lia.
      + apply Hchar; [exact E | apply IH; simpl in Hlen; lia]. }
  apply (H (String.length s)). lia.
Qed.

Lemma substitute_spec_marker rest fill :
  substitute_spec (String "{" (String "}" rest)) fill
  = fill +:+ substitute_spec rest fill.
Proof. reflexivity. Qed.

Lemma substitute_spec_char c s fill :
  has_prefix (String c s) "{}" = false ->
  substitute_spec (String c s) fill = String c (substitute_spec s fill).
Proof.
  destruct s as [|d rest]; [reflexivity|].
  rewrite has_prefix_head. cbn [substitute_spec]. now intros ->.
Qed.

Lemma occurrences_marker rest :
  occurrences (String "{" (String "}" rest)) = S (occurrences rest).
Proof. reflexivity. Qed.

Lemma occurrences_char c s :
  has_prefix (String c s) "{}" = false ->
  occurrences (String c s) = occurrences s.
Proof.
  destruct s as [|d rest]; [reflexivity|].
  rewrite has_prefix_head. cbn [occurrences]. now intros ->.
Qed.

Lemma strstr_marker rest :
  strstr (String "{" (String "}" rest)) "{}" = Some (String "{" (String "}" rest)).
Proof. reflexivity. Qed.

Lemma strstr_char c s :
  has_prefix (String c s) "{}" = false ->
  strstr (String c s) "{}" = strstr s "{}".
Proof. intros H. cbn [strstr]. now rewrite H. Qed.

(** What [strstr] finds: the text before the first marker is copied
    unchanged by the substitution and holds no marker. *)
Lemma strstr_found s found :
  strstr s "{}" = Some found ->
  exists rest,
    found = String "{" (String "}" rest) /\
    s = substring 0 (String.length s - String.length found) s +:+ found /\
    (forall fill,
       substitute_spec s fill
       = substring 0 (String.length s - String.length found) s
         +:+ fill +:+ substitute_spec rest fill) /\
    occurrences s = S (occurrences rest).
Proof.
  revert found. induction s as [|rest IH|c s Hc IH] using marker_ind; intros found.
  - discriminate.
  - rewrite strstr_marker. intros [= <-]. exists rest.
    rewrite Nat.sub_diag. cbn [substring]. rewrite append_nil. auto.
  - rewrite strstr_char by exact Hc. intros Hs.
    destruct (IH _ Hs) as (rest & -> & Hsplit & Hsub & Hocc).
    exists rest. split; [reflexivity|].
    apply strstr_Some in Hs as [Hlen _].
    replace (String.length (String c s) - String.length (String "{" (String "}" rest)))%nat
      with (S (String.length s - String.length (String "{" (String "}" rest)))).
    2:{ cbn [String.length] in *. lia. }
    cbn [substring]. rewrite !append_cons. split; [now rewrite <- Hsplit|]. split.
    + intros fill. rewrite substitute_spec_char by exact Hc. now rewrite Hsub.
    + now rewrite occurrences_char.
Qed.

Lemma strstr_not_found s :
  strstr s "{}" = None ->
  (forall fill, substitute_spec s fill = s) /\ occurrences s = O.
Proof.
  induction s as [|rest IH|c s Hc IH] using marker_ind.
  - auto.
  - rewrite strstr_marker. discriminate.
  - rewrite strstr_char by exact Hc. intros Hs. destruct (IH Hs) as [Hsub Hocc].
    split.
    + intros fill. rewrite substitute_spec_char by exact Hc. now rewrite Hsub.
    + now rewrite occurrences_char.
Qed.

(** ** Placeholder substitution *)

Lemma count_loop_occurrences checkStr count :
  count_loop checkStr count = count + Z.of_nat (occurrences checkStr).
Proof.
  remember (String.length checkStr) as n eqn:Hn. revert checkStr count Hn.
  induction n as [n IH] using lt_wf_ind. intros checkStr count ->.
  rewrite count_loop_step. destruct (strstr checkStr "{}") as [found|] eqn:E.
  - destruct (strstr_found _ _ E) as (rest & -> & _ & _ & ->).
    apply strstr_Some in E as [Hlen _]. cbn [ptr_add].
    rewrite (IH (String.length rest)); [lia | | reflexivity].
    cbn [String.length] in Hlen. lia.
  - apply strstr_not_found in E as [_ ->]. lia.
Qed.

Lemma count_placeholders_occurrences checkStr :
  count_placeholders checkStr = Z.of_nat (occurrences checkStr).
Proof. unfold count_placeholders. now rewrite count_loop_occurrences. Qed.

Lemma fill_loop_substitute fill tempPtr newStr :
  fill_loop fill tempPtr newStr = newStr +:+ substitute_spec tempPtr fill.
Proof.
  remember (String.length tempPtr) as n eqn:Hn. revert tempPtr newStr Hn.
  induction n as [n IH] using lt_wf_ind. intros tempPtr newStr ->.
  rewrite fill_loop_step. destruct (strstr tempPtr "{}") as [found|] eqn:E.
  - destruct (strstr_found _ _ E) as (rest & -> & _ & Hsub & _).
    apply strstr_Some in E as [Hlen _]. cbn [ptr_add].
    rewrite (IH (String.length rest)); [ | | reflexivity].
    + rewrite Hsub, !append_assoc. reflexivity.
    + cbn [String.length] in Hlen. lia.
  - apply strstr_not_found in E as [-> _]. reflexivity.
Qed.

Lemma substitute_spec_no_marker s fill :
  occurrences s = O -> substitute_spec s fill = s.
Proof.
  induction s as [|rest IH|c s Hc IH] using marker_ind.
  - reflexivity.
  - discriminate.
  - rewrite occurrences_char, substitute_spec_char by exact Hc.
    intros H. now rewrite IH.
Qed.

Lemma handle_placeholders_substitute checkStr fill :
  handle_placeholders checkStr fill = substitute_spec checkStr fill.
Proof.
  unfold handle_placeholders, strdup.
  rewrite count_placeholders_occurrences.
  destruct (Z.eqb_spec (Z.of_nat (occurrences checkStr)) 0) as [H|H].
  - symmetry. apply substitute_spec_no_marker. lia.
  - now rewrite fill_loop_substitute.
Qed.

Lemma substitute_spec_length s fill :
  (String.length (substitute_spec s fill) + 2 * occurrences s
   = String.length s + occurrences s * String.length fill)%nat.
Proof.
  induction s as [|rest IH|c s Hc IH] using marker_ind.
  - reflexivity.
  - rewrite substitute_spec_marker, occurrences_marker, append_length.
    cbn [String.length]. lia.
  - rewrite substitute_spec_char, occurrences_char by exact Hc.
    cbn [String.length]. lia.
Qed.

Lemma has_prefix_starts c s :
  has_prefix (String c s) "{}" = Ascii.eqb "{" c && starts_with "}" s.
Proof.
  destruct s as [|d rest].
  - rewrite has_prefix_single. now rewrite andb_false_r.
  - apply has_prefix_head.
Qed.

Lemma starts_with_append c (a b : string) :
  starts_with c (a +:+ b) = if String.eqb a "" then starts_with c b else starts_with c a.
Proof. destruct a; reflexivity. Qed.

Lemma ends_with_cons c a s :
  ends_with c (String a s) = if String.eqb s "" then Ascii.eqb c a else ends_with c s.
Proof. destruct s; reflexivity. Qed.

(** Counting over a concatenation: nothing is gained or lost unless a
    marker straddles the seam. *)
Lemma occurrences_append (a b : string) :
  ends_with "{" a && starts_with "}" b = false ->
  occurrences (a +:+ b) = (occurrences a + occurrences b)%nat.
Proof.
  induction a as [|rest IH|c s Hc IH] using marker_ind; intros Hseam.
  - reflexivity.
  - rewrite !append_cons, !occurrences_marker, IH; [reflexivity|].
    rewrite !ends_with_cons in Hseam. cbn [String.eqb] in Hseam.
    destruct rest; [reflexivity | exact Hseam].
  - rewrite append_cons, (occurrences_char c s) by exact Hc.
    rewrite ends_with_cons in Hseam.
    rewrite occurrences_char.
    + apply IH. destruct s; [reflexivity | exact Hseam].
    + rewrite has_prefix_starts in *. rewrite starts_with_append.
      destruct s; [exact Hseam | exact Hc].
Qed.

Lemma starts_with_substitute c template fill :
  fill <> "" ->
  starts_with c fill = false ->
  starts_with c template = false ->
  starts_with c (substitute_spec template fill) = false.
Proof.
  intros Hne Hfill Ht. destruct template as [|a t]; [reflexivity|].
  destruct (has_prefix (String a t) "{}") eqn:E.
  - apply has_prefix_marker in E as [rest [= -> ->]].
    rewrite substitute_spec_marker, starts_with_append.
    destruct fill; [congruence | exact Hfill].
  - rewrite substitute_spec_char by exact E. exact Ht.
Qed.

Lemma occurrences_substitute template fill :
  fill <> "" ->
  starts_with "}" fill = false ->
  ends_with "{" fill = false ->
  occurrences (substitute_spec template fill)
  = (occurrences template * occurrences fill)%nat.
Proof.
  intros Hne Hs He.
  induction template as [|rest IH|c s Hc IH] using marker_ind.
  - reflexivity.
  - rewrite substitute_spec_marker, occurrences_marker, occurrences_append.
    + rewrite IH. lia.
    + now rewrite He.
  - rewrite substitute_spec_char, (occurrences_char c s) by exact Hc.
    rewrite occurrences_char; [exact IH|].
    rewrite has_prefix_starts in *.
    destruct (Ascii.eqb "{" c); [|reflexivity].
    cbn [andb] in *. now apply starts_with_substitute.
Qed.

(** C2, as amended.  [handle_placeholders] replaces every occurrence of
    the marker, left to right and without overlap, by the fill string (it
    computes [substitute_spec]).  With [n] the number of occurrences that
    [count_placeholders] finds in the template, the result has length
    [len T - 2n + n * len F], which fills the allocated buffer exactly,
    and it is the template itself when [n = 0].  When the fill string is
    not empty, does not begin with a closing brace and does not end with
    an opening brace, scanning the result again finds [n] times the
    markers of the fill string: those that came with it, and no other. *)
Theorem handle_placeholders_correct (template fill : string) :
  count_placeholders template = Z.of_nat (occurrences template) /\
  handle_placeholders template fill = substitute_spec template fill /\
  strlen (handle_placeholders template fill)
  = strlen template - 2 * count_placeholders template
    + count_placeholders template * strlen fill /\
  strlen (handle_placeholders template fill) + 1 = new_size template fill /\
  (count_placeholders template = 0 -> handle_placeholders template fill = template) /\
  (fill <> "" -> starts_with "}" fill = false -> ends_with "{" fill = false ->
   count_placeholders (handle_placeholders template fill)
   = count_placeholders template * count_placeholders fill).
Proof.
  pose proof (substitute_spec_length template fill) as Hlen.
  assert (Hstrlen : strlen (handle_placeholders template fill)
            = strlen template - 2 * count_placeholders template
              + count_placeholders template * strlen fill).
  { rewrite handle_placeholders_substitute, count_placeholders_occurrences.
    unfold strlen. lia. }
  split; [apply count_placeholders_occurrences|].
  split; [apply handle_placeholders_substitute|].
  split; [exact Hstrlen|].
  split; [unfold new_size; lia|].
  split.
  - unfold handle_placeholders, strdup. now intros ->.
  - intros Hne Hs He.
    rewrite handle_placeholders_substitute, !count_placeholders_occurrences.
    rewrite occurrences_substitute by assumption. lia.
Qed.

(** The amended C2 at the template [a{}-{}] and the fill string [x{}y]. *)
Lemma handle_placeholders_correct_witness :
  count_placeholders (handle_placeholders "a{}-{}" "x{}y")
  = count_placeholders "a{}-{}" * count_placeholders "x{}y".
Proof.
  apply (handle_placeholders_correct "a{}-{}" "x{}y");
    [discriminate | reflexivity | reflexivity].
Defined.

(** C2 as first stated fails.  With the template [{{}] and the fill
    string [}] the result is [{}]: scanning it again finds one marker,
    made of a brace of the template and the brace of the fill string,
    whereas the fill string holds none. *)
Lemma handle_placeholders_rescan_counterexample :
  handle_placeholders "{{}" "}" = "{}" /\
  count_placeholders (handle_placeholders "{{}" "}") = 1 /\
  count_placeholders "{{}" * count_placeholders "}" = 0 /\
  count_placeholders (handle_placeholders "{{}" "}")
  <> count_placeholders "{{}" * count_placeholders "}".
Proof. repeat split; try reflexivity. discriminate. Qed.

(** ** Classification *)

Lemma exited_not_signaled status :
  WIFEXITED status = true -> WIFSIGNALED status = false.
Proof.
  unfold WIFEXITED, WIFSIGNALED, WTERMSIG. intros H%Z.eqb_eq.
  rewrite H. reflexivity.
Qed.

Lemma scan_status_flags fl status :
  notexec (scan_status fl status) = notexec fl || could_not_execute status /\
  signal (scan_status fl status) = signal fl || killed_by_signal status /\
  fail (scan_status fl status) = fail fl || exited_nonzero status.
Proof.
  unfold scan_status, could_not_execute, killed_by_signal, exited_nonzero.
  destruct (WIFEXITED status) eqn:Hex.
  - rewrite (exited_not_signaled _ Hex).
    destruct (WEXITSTATUS status =? CHILD_PROCESS_ERROR);
      destruct (WEXITSTATUS status =? 0);
      destruct fl as [[] [] []]; repeat split; reflexivity.
  - destruct (WIFSIGNALED status); destruct fl as [[] [] []];
      repeat split; reflexivity.
Qed.

Lemma scan_statuses_flags statuses fl :
  notexec (fold_left scan_status statuses fl)
  = notexec fl || existsb could_not_execute statuses /\
  signal (fold_left scan_status statuses fl)
  = signal fl || existsb killed_by_signal statuses /\
  fail (fold_left scan_status statuses fl)
  = fail fl || existsb exited_nonzero statuses.
Proof.
  revert fl. induction statuses as [|s ss IH]; intros fl; cbn [fold_left existsb].
  - now rewrite !orb_false_r.
  - destruct (IH (scan_status fl s)) as (-> & -> & ->).
    destruct (scan_status_flags fl s) as (-> & -> & ->).
    now rewrite !orb_assoc.
Qed.

Lemma count_stats_bump stats statuses :
  count_stats stats statuses = bump (classify_spec statuses) stats.
Proof.
  unfold count_stats, classify_spec, bump.
  destruct (scan_statuses_flags statuses
              {| fail := false; signal := false; notexec := false |})
    as (-> & -> & ->).
  cbn [fail signal notexec orb].
  destruct (existsb could_not_execute statuses); [reflexivity|].
  destruct (existsb killed_by_signal statuses); [reflexivity|].
  destruct (existsb exited_nonzero statuses); reflexivity.
Qed.

(** C1.  [count_stats] classifies a file by the fixed priority over the
    statuses of all its stages: NotExecuted if some stage ended with the
    could-not-execute status, else SignalTerminated if some stage was
    killed by a signal, else Failure if some stage exited with another
    nonzero code, else Success.  It adds one to the counter of that
    outcome and one to the total, and leaves the other counters as they
    were. *)
Theorem count_stats_classifies (statuses : list Z) (s f g n t : Z) :
  count_stats [s; f; g; n; t] statuses =
  match classify_spec statuses with
  | NotExecuted => [s; f; g; n + 1; t + 1]
  | SignalTerminated => [s; f; g + 1; n; t + 1]
  | Failure => [s; f + 1; g; n; t + 1]
  | Success => [s + 1; f; g; n; t + 1]
  end.
Proof.
  rewrite count_stats_bump. destruct (classify_spec statuses); reflexivity.
Qed.

Lemma classify_could_not_execute statuses :
  existsb could_not_execute statuses = true ->
  classify_spec statuses = NotExecuted.
Proof. unfold classify_spec. now intros ->. Qed.

Lemma existsb_elem {A} (p : A -> bool) (l : list A) :
  existsb p l = true <-> exists x, x ∈ l /\ p x = true.
Proof.
  rewrite existsb_exists. split; intros (x & H1 & H2); exists x; split; auto;
    now apply list_elem_of_In.
Qed.


(** ** Redirection validation *)

Lemma forks_app a b : forks (a ++ b) = forks a ++ forks b.
Proof. apply omap_app. Qed.
Lemma waits_app a b : waits (a ++ b) = waits a ++ waits b.
Proof. apply omap_app. Qed.
Lemma reaped_app a b : reaped (a ++ b) = reaped a ++ reaped b.
Proof. apply omap_app. Qed.

Lemma try_open_file_result os name fileName (readOrWrite : bool) :
  let path := handle_placeholders name fileName in
  let flags : list oflag :=
    if readOrWrite then [O_RDONLY] else [O_WRONLY; O_CREAT; O_TRUNC] in
  let ret := sys_open os fileName path flags in
  try_open_file os name fileName readOrWrite =
  if ret <? 0
  then (-1, [EvOpen path flags ret;
             EvStderr (if readOrWrite then readError path fileName
                       else writeError path fileName)])
  else (ret, [EvOpen path flags ret]).
Proof. unfold try_open_file. destruct readOrWrite; reflexivity. Qed.

Lemma validate_output_result os outputFile fileName done :
  validate_output os outputFile fileName done
  = (output_ok os outputFile fileName, done ++ output_probe os outputFile fileName).
Proof.
  unfold validate_output, output_ok, output_probe, opens, probe.
  destruct outputFile as [name|]; [|now rewrite app_nil_r].
  rewrite try_open_file_result. cbv zeta.
  destruct (Z.ltb_spec (sys_open os fileName (handle_placeholders name fileName)
                          [O_WRONLY; O_CREAT; O_TRUNC]) 0) as [Hneg|Hpos].
  - cbn [Z.eqb]. f_equal. symmetry. apply Z.leb_gt. exact Hneg.
  - destruct (Z.eqb_spec (sys_open os fileName (handle_placeholders name fileName)
                          [O_WRONLY; O_CREAT; O_TRUNC]) (-1)) as [E|_]; [lia|].
    f_equal. symmetry. apply Z.leb_le. exact Hpos.
Qed.

Lemma validate_files_result os inputFile outputFile fileName :
  validate_files os inputFile outputFile fileName
  = (input_ok os inputFile fileName && output_ok os outputFile fileName,
     input_probe os inputFile fileName
     ++ (if input_ok os inputFile fileName
         then output_probe os outputFile fileName else [])).
Proof.
  unfold validate_files, input_ok, input_probe, opens, probe.
  destruct inputFile as [name|]; [|now rewrite validate_output_result].
  rewrite try_open_file_result. cbv zeta.
  destruct (Z.ltb_spec (sys_open os fileName (handle_placeholders name fileName)
                          [O_RDONLY]) 0) as [Hneg|Hpos].
  - cbn [Z.eqb]. apply Z.leb_gt in Hneg. rewrite Hneg. reflexivity.
  - destruct (Z.eqb_spec (sys_open os fileName (handle_placeholders name fileName)
                            [O_RDONLY]) (-1)) as [E|_]; [lia|].
    rewrite validate_output_result.
    apply Z.leb_le in Hpos. rewrite Hpos. cbn [andb]. now rewrite <- app_assoc.
Qed.


Lemma probe_quiet os fileName path flags diagnostic :
  forks (probe os fileName path flags diagnostic) = [] /\
  waits (probe os fileName path flags diagnostic) = [] /\
  reaped (probe os fileName path flags diagnostic) = [].
Proof. unfold probe. destruct (_ <? 0); auto. Qed.

Lemma validation_quiet os pipeline fileName :
  forks (validation os pipeline fileName) = [] /\
  waits (validation os pipeline fileName) = [] /\
  reaped (validation os pipeline fileName) = [].
Proof.
  unfold validation. rewrite validate_files_result. cbn [snd].
  rewrite forks_app, waits_app, reaped_app.
  assert (Hin : forks (input_probe os (stdinFileName pipeline) fileName) = [] /\
                waits (input_probe os (stdinFileName pipeline) fileName) = [] /\
                reaped (input_probe os (stdinFileName pipeline) fileName) = []).
  { unfold input_probe. destruct (stdinFileName pipeline); [apply probe_quiet | auto]. }
  assert (Hout : forks (output_probe os (stdoutFileName pipeline) fileName) = [] /\
                 waits (output_probe os (stdoutFileName pipeline) fileName) = [] /\
                 reaped (output_probe os (stdoutFileName pipeline) fileName) = []).
  { unfold output_probe. destruct (stdoutFileName pipeline); [apply probe_quiet | auto]. }
  destruct Hin as (-> & -> & ->), Hout as (Ho1 & Ho2 & Ho3).
  destruct (input_ok _ _ _); auto.
Qed.

(** ** Spawning *)

Lemma child_main_status os pipeline cmd cmdIdx fileName prevPipe nextPipe :
  snd (child_main os pipeline cmd cmdIdx fileName prevPipe nextPipe)
  = child_status os fileName cmdIdx cmd.
Proof.
  unfold child_main, child_status.
  destruct (sys_execvp os fileName cmdIdx cmd); reflexivity.
Qed.

Lemma spawn_child_spec os pipeline cmd cmdIdx fileName prevPipe nextPipe w :
  exists prevPipe' nextPipe' w' evs,
    spawn_child os pipeline cmd cmdIdx fileName prevPipe nextPipe w
    = (next_pid w, prevPipe', nextPipe', w') /\
    next_pid w' = next_pid w + 1 /\
    children w' = <[next_pid w := child_status os fileName cmdIdx cmd]> (children w) /\
    trace w' = trace w ++ evs /\
    forks evs = [(next_pid w, fileName, cmdIdx, cmd)] /\
    waits evs = [] /\ reaped evs = [] /\
    (nextPipe = None -> nextPipe' = None).
Proof.
  unfold spawn_child.
  destruct nextPipe as [fds|]; [destruct (1 <? Z.of_nat (numCmds pipeline))|];
    cbv zeta; rewrite child_main_status;
    destruct (0 <? Z.of_nat cmdIdx); unfold emit; cbn [next_pid children trace pipes_made];
    rewrite <- ?app_assoc; do 4 eexists;
    (split; [reflexivity|]); cbn [next_pid children trace];
    repeat split; try reflexivity; try discriminate.
Qed.


Lemma stage_pids_S first n :
  stage_pids first (S n) = first :: stage_pids (first + 1) n.
Proof.
  unfold stage_pids. cbn [seq map]. f_equal; [lia|].
  rewrite <- seq_shift, map_map. apply map_ext. intros j. lia.
Qed.

Lemma stage_forks_S pipeline fileName first i n :
  stage_forks pipeline fileName first i (S n)
  = (first, fileName, i, stage_argv pipeline fileName i)
    :: stage_forks pipeline fileName (first + 1) (S i) n.
Proof.
  unfold stage_forks. cbn [seq map]. f_equal.
  - rewrite Nat.add_0_r. do 3 f_equal. lia.
  - rewrite <- seq_shift, map_map. apply map_ext. intros j.
    rewrite Nat.add_succ_r. cbn [Nat.add]. do 3 f_equal. lia.
Qed.

Lemma stage_pids_length first n : length (stage_pids first n) = n.
Proof. unfold stage_pids. now rewrite length_map, length_seq. Qed.

Lemma elem_of_stage_pids first n pid :
  pid ∈ stage_pids first n <-> first <= pid < first + Z.of_nat n.
Proof.
  unfold stage_pids. rewrite list_elem_of_fmap. split.
  - intros (j & -> & Hj). apply list_elem_of_In, in_seq in Hj. lia.
  - intros H. exists (Z.to_nat (pid - first)). split; [lia|].
    apply list_elem_of_In, in_seq. lia.
Qed.

Lemma stage_pids_NoDup first n : NoDup (stage_pids first n).
Proof.
  revert first. induction n as [|n IH]; intros first.
  - constructor.
  - rewrite stage_pids_S. constructor; [|apply IH].
    rewrite elem_of_stage_pids. lia.
Qed.

Lemma exec_cmd_loop_spec os pipeline fileName todo :
  forall i prevPipe nextPipe (done rest : list Z) w,
    length done = i -> length rest = todo ->
    exists w' evs,
      exec_cmd_loop os pipeline fileName todo i prevPipe nextPipe (done ++ rest) w
      = (done ++ stage_pids (next_pid w) todo, w') /\
      next_pid w' = next_pid w + Z.of_nat todo /\
      (forall pid,
         children w' !! pid =
         if decide (next_pid w <= pid < next_pid w + Z.of_nat todo)
         then Some (stage_status os pipeline fileName
                      (i + Z.to_nat (pid - next_pid w)))
         else children w !! pid) /\
      trace w' = trace w ++ evs /\
      forks evs = stage_forks pipeline fileName (next_pid w) i todo /\
      waits evs = [] /\ reaped evs = [].
Proof.
  induction todo as [|todo IH]; intros i prevPipe nextPipe done rest w Hdone Hrest.
  - destruct rest; [|discriminate]. exists w, []. cbn [exec_cmd_loop].
    unfold stage_pids. cbn [seq map].
    rewrite !app_nil_r, Z.add_0_r. repeat split; try reflexivity.
    intros pid. destruct (decide _); [lia | reflexivity].
  - destruct rest as [|x rest]; [discriminate|]. cbn [exec_cmd_loop].
    fold (stage_argv pipeline fileName i).
    assert (Hsp : exists prevPipe' nextPipe' w1 evs1,
      (if Z.of_nat i <? Z.of_nat (numCmds pipeline) - 1
       then spawn_child os pipeline (stage_argv pipeline fileName i) i fileName
              prevPipe (Some nextPipe) w
       else spawn_child os pipeline (stage_argv pipeline fileName i) i fileName
              prevPipe None w)
      = (next_pid w, prevPipe', nextPipe', w1) /\
      next_pid w1 = next_pid w + 1 /\
      children w1 = <[next_pid w := stage_status os pipeline fileName i]> (children w) /\
      trace w1 = trace w ++ evs1 /\
      forks evs1 = [(next_pid w, fileName, i, stage_argv pipeline fileName i)] /\
      waits evs1 = [] /\ reaped evs1 = []).
    { destruct (Z.of_nat i <? Z.of_nat (numCmds pipeline) - 1);
        match goal with |- context [spawn_child ?o ?p ?c ?k ?f ?pp ?np ?w0] =>
          destruct (spawn_child_spec o p c k f pp np w0)
            as (pp' & np' & w1 & evs1 & E & H1 & H2 & H3 & H4 & H5 & H6 & _) end;
        exists pp', np', w1, evs1; auto 10. }
    destruct Hsp as (prevPipe' & nextPipe' & w1 & evs1 & -> & Hn1 & Hc1 & Ht1 & Hf1 & Hw1 & Hr1).
    rewrite insert_app_r_alt by lia. rewrite Hdone, Nat.sub_diag. cbn [insert list_insert].
    rewrite (cons_middle (next_pid w) done rest), app_assoc.
    destruct (IH (S i) prevPipe' (default nextPipe nextPipe') (done ++ [next_pid w]) rest w1)
      as (w' & evs & -> & Hn & Hc & Ht & Hf & Hw & Hr).
    { rewrite length_app. cbn [length]. lia. }
    { cbn [length] in Hrest. lia. }
    exists w', (evs1 ++ evs). split.
    { rewrite stage_pids_S, Hn1, <- app_assoc. reflexivity. }
    split; [lia|]. split.
    { intros pid. rewrite Hc, Hc1, Hn1.
      destruct (decide (next_pid w + 1 <= pid < next_pid w + 1 + Z.of_nat todo)) as [H|H].
      - rewrite decide_True by lia. do 2 f_equal. lia.
      - destruct (decide (pid = next_pid w)) as [->|Hne].
        + rewrite lookup_insert_eq, decide_True by lia.
          do 2 f_equal. lia.
        + rewrite lookup_insert_ne by congruence.
          rewrite decide_False by lia. reflexivity. }
    split; [rewrite Ht, Ht1, app_assoc; reflexivity|].
    rewrite forks_app, waits_app, reaped_app, Hf1, Hw1, Hr1, Hf, Hw, Hr, Hn1.
    rewrite stage_forks_S. auto.
Qed.

Lemma malloc_pids_length os pipeline :
  length (malloc_pids os pipeline) = numCmds pipeline.
Proof. apply length_replicate. Qed.

Lemma exec_cmd_spec os pipeline fileName w :
  exists w' evs,
    exec_cmd os pipeline fileName (malloc_pids os pipeline) w
    = (stage_pids (next_pid w) (numCmds pipeline), w') /\
    next_pid w' = next_pid w + Z.of_nat (numCmds pipeline) /\
    (forall pid,
       children w' !! pid =
       if decide (next_pid w <= pid < next_pid w + Z.of_nat (numCmds pipeline))
       then Some (stage_status os pipeline fileName (Z.to_nat (pid - next_pid w)))
       else children w !! pid) /\
    trace w' = trace w ++ evs /\
    forks evs = stage_forks pipeline fileName (next_pid w) 0 (numCmds pipeline) /\
    waits evs = [] /\ reaped evs = [].
Proof.
  unfold exec_cmd.
  apply (exec_cmd_loop_spec os pipeline fileName (numCmds pipeline) 0%nat
           (indeterminate os) (indeterminate os, indeterminate os)
           [] (malloc_pids os pipeline) w eq_refl (malloc_pids_length os pipeline)).
Qed.

Lemma stage_statuses_owned os pipeline fileName (m : gmap Z Z) first :
  (forall pid,
     first <= pid < first + Z.of_nat (numCmds pipeline) ->
     m !! pid = Some (stage_status os pipeline fileName (Z.to_nat (pid - first)))) ->
  Forall2 (fun p s => m !! p = Some s)
    (stage_pids first (numCmds pipeline)) (stage_statuses os pipeline fileName).
Proof.
  intros H. unfold stage_pids, stage_statuses.
  apply Forall2_fmap, Forall_Forall2_diag, Forall_forall.
  intros j Hj%list_elem_of_In%in_seq.
  rewrite H by lia. do 2 f_equal. lia.
Qed.

Lemma pids_fresh_emit evs w : pids_fresh w -> pids_fresh (emit evs w).
Proof. exact (fun H => H). Qed.

Lemma exec_cmd_pids_fresh os pipeline fileName w :
  pids_fresh w ->
  exists w',
    exec_cmd os pipeline fileName (malloc_pids os pipeline) w
    = (stage_pids (next_pid w) (numCmds pipeline), w') /\
    next_pid w' = next_pid w + Z.of_nat (numCmds pipeline) /\
    pids_fresh w' /\ children w ⊆ children w' /\
    Forall2 (fun p s => children w' !! p = Some s)
      (stage_pids (next_pid w) (numCmds pipeline))
      (stage_statuses os pipeline fileName) /\
    (forall pid, ~ (next_pid w <= pid < next_pid w') ->
                 children w' !! pid = children w !! pid).
Proof.
  intros Hfresh.
  destruct (exec_cmd_spec os pipeline fileName w)
    as (w' & evs & E & Hn & Hc & _).
  exists w'. split; [exact E|]. split; [exact Hn|]. split.
  { intros pid s. rewrite Hc. destruct (decide _) as [H|H]; [lia|].
    intros Hs%Hfresh. lia. }
  split.
  { apply map_subseteq_spec. intros pid s Hs. rewrite Hc.
    rewrite decide_False; [exact Hs|]. apply Hfresh in Hs. lia. }
  split.
  { apply stage_statuses_owned. intros pid Hpid. rewrite Hc.
    rewrite decide_True by lia. reflexivity. }
  intros pid Hpid. rewrite Hc. rewrite decide_False by lia. reflexivity.
Qed.

Lemma pids_fresh_initial first_pid : pids_fresh (initial_world first_pid).
Proof. intros pid status H. cbn in H. rewrite lookup_empty in H. discriminate. Qed.

(** ** Reaping *)

Lemma Forall2_impl_elem {A B} (P Q : A -> B -> Prop) (l : list A) (k : list B) :
  Forall2 P l k ->
  (forall x y, x ∈ l -> P x y -> Q x y) ->
  Forall2 Q l k.
Proof.
  induction 1 as [|x y l k Hxy HF IH]; intros Himp; constructor.
  - apply Himp; [now left | exact Hxy].
  - apply IH. intros x' y' Hin. apply Himp. now right.
Qed.

(** Reaping: the waits are issued in array order whatever the children
    do; the collected statuses are those of the children waited for. *)
Lemma reap_loop_spec pids :
  forall status w,
    exists statuses w' evs,
      reap_loop pids status w = (statuses, w') /\
      next_pid w' = next_pid w /\
      (forall q, children w' !! q =
                 if decide (q ∈ pids) then None else children w !! q) /\
      trace w' = trace w ++ evs /\
      forks evs = [] /\ waits evs = pids /\
      (forall s, s ∈ reaped evs -> s ∈ statuses) /\
      (forall sts,
         NoDup pids ->
         Forall2 (fun p s => children w !! p = Some s) pids sts ->
         statuses = sts /\ reaped evs = sts).
Proof.
  induction pids as [|pid pids IH]; intros status w.
  - exists [], w, []. cbn [reap_loop]. rewrite app_nil_r.
    split; [reflexivity|]. split; [reflexivity|]. split.
    { intros q. rewrite decide_False by apply not_elem_of_nil. reflexivity. }
    split; [reflexivity|]. split; [reflexivity|]. split; [reflexivity|]. split.
    { intros s H. inversion H. }
    intros sts _ HF. inversion HF. auto.
  - cbn [reap_loop]. unfold waitpid.
    destruct (children w !! pid) as [s|] eqn:Hpid.
    + match goal with |- context [reap_loop pids s ?w1] =>
        destruct (IH s w1) as (statuses & w' & evs & -> & Hn & Hc & Ht & Hf & Hw & Hr & Hex) end.
      cbn [next_pid children trace] in *.
      exists (s :: statuses), w', (EvWait pid (Some s) :: evs).
      split; [reflexivity|]. split; [exact Hn|]. split.
      { intros q. rewrite Hc. destruct (decide (q ∈ pids)) as [Hin|Hnin].
        - rewrite decide_True by (now right). reflexivity.
        - destruct (decide (q = pid)) as [->|Hne].
          + rewrite lookup_delete_eq, decide_True by (now left). reflexivity.
          + rewrite lookup_delete_ne by congruence.
            rewrite decide_False; [reflexivity|].
            intros [->|H]%elem_of_cons; contradiction. }
      split; [rewrite Ht, <- app_assoc; reflexivity|].
      split; [exact Hf|]. split; [cbn; now rewrite <- Hw|]. split.
      { intros s' [->|H]%elem_of_cons; [now left | right; now apply Hr]. }
      intros sts Hnd HF. inversion HF as [|p s0 ps sts' Hp0 HF']; subst.
      inversion Hnd as [|? ? Hnotin Hnd']; subst.
      rewrite Hpid in Hp0. injection Hp0 as <-.
      destruct (Hex sts' Hnd') as [-> Hre].
      { eapply Forall2_impl_elem; [exact HF'|]. cbn. intros p s' Hin Hps.
        rewrite lookup_delete_ne; [exact Hps|]. intros ->. contradiction. }
      split; [reflexivity|]. unfold reaped in *. cbn. now rewrite Hre.
    + destruct (IH status (emit [EvWait pid None] w))
        as (statuses & w' & evs & -> & Hn & Hc & Ht & Hf & Hw & Hr & Hex).
      cbn [emit next_pid children trace] in *.
      exists (status :: statuses), w', (EvWait pid None :: evs).
      split; [reflexivity|]. split; [exact Hn|]. split.
      { intros q. rewrite Hc. destruct (decide (q ∈ pids)) as [Hin|Hnin].
        - rewrite decide_True by (now right). reflexivity.
        - destruct (decide (q = pid)) as [->|Hne].
          + rewrite decide_True by (now left). exact Hpid.
          + rewrite decide_False; [reflexivity|].
            intros [->|H]%elem_of_cons; contradiction. }
      split; [rewrite Ht, <- app_assoc; reflexivity|].
      split; [exact Hf|]. split; [cbn; now rewrite <- Hw|]. split.
      { intros s' H. right. now apply Hr. }
      intros sts Hnd HF. inversion HF; subst. congruence.
Qed.

Lemma reap_children_spec os pids stats w :
  exists statuses w' evs,
    reap_children os pids stats w = (count_stats stats statuses, w') /\
    next_pid w' = next_pid w /\
    (forall q, children w' !! q =
               if decide (q ∈ pids) then None else children w !! q) /\
    trace w' = trace w ++ evs /\
    forks evs = [] /\ waits evs = pids /\
    (forall s, s ∈ reaped evs -> s ∈ statuses) /\
    (forall sts,
       NoDup pids ->
       Forall2 (fun p s => children w !! p = Some s) pids sts ->
       statuses = sts /\ reaped evs = sts).
Proof.
  unfold reap_children.
  destruct (reap_loop_spec pids (indeterminate os) w)
    as (statuses & w' & evs & -> & H).
  exists statuses, w', evs. split; [reflexivity | exact H].
Qed.

(** One sequential run of a file's pipeline. *)
Lemma sequential_process_spec os pipeline fileName stats w :
  exists statuses w' evs,
    sequential_process os pipeline fileName stats w
    = (count_stats stats statuses, w') /\
    next_pid w' = next_pid w + Z.of_nat (numCmds pipeline) /\
    trace w' = trace w ++ evs /\
    forks evs = stage_forks pipeline fileName (next_pid w) 0 (numCmds pipeline) /\
    waits evs = stage_pids (next_pid w) (numCmds pipeline) /\
    (forall s, s ∈ reaped evs -> s ∈ statuses) /\
    (pids_fresh w ->
       statuses = stage_statuses os pipeline fileName /\
       reaped evs = stage_statuses os pipeline fileName /\
       children w' = children w /\ pids_fresh w').
Proof.
  unfold sequential_process, reap_children.
  destruct (exec_cmd_spec os pipeline fileName w)
    as (w1 & evs1 & -> & Hn1 & Hc1 & Ht1 & Hf1 & Hw1 & Hr1).
  destruct (reap_loop_spec (stage_pids (next_pid w) (numCmds pipeline))
              (indeterminate os) w1)
    as (statuses & w' & evs2 & -> & Hn2 & Hc2 & Ht2 & Hf2 & Hw2 & Hr2 & Hex).
  exists statuses, w', (evs1 ++ evs2).
  split; [reflexivity|]. split; [lia|].
  split; [rewrite Ht2, Ht1, app_assoc; reflexivity|].
  rewrite forks_app, waits_app, reaped_app, Hf1, Hf2, Hw1, Hw2, Hr1, !app_nil_r.
  split; [reflexivity|]. split; [reflexivity|]. split; [exact Hr2|].
  intros Hfresh.
  destruct (Hex (stage_statuses os pipeline fileName)) as [-> ->].
  { apply stage_pids_NoDup. }
  { apply stage_statuses_owned. intros pid Hpid. rewrite Hc1.
    rewrite decide_True by lia. reflexivity. }
  assert (Hsame : children w' = children w).
  { apply map_eq. intros q. rewrite Hc2, Hc1.
    destruct (decide (q ∈ stage_pids (next_pid w) (numCmds pipeline))) as [Hin|Hnin].
    - apply elem_of_stage_pids in Hin.
      destruct (children w !! q) as [s|] eqn:Hq; [|reflexivity].
      apply Hfresh in Hq. lia.
    - rewrite decide_False; [reflexivity|].
      intros H. apply Hnin, elem_of_stage_pids. exact H. }
  repeat split; try reflexivity; [exact Hsame|].
  intros pid s. rewrite Hsame. intros Hs%Hfresh. lia.
Qed.

Lemma parallel_process_spec os pipeline fileName pids fileNo w :
  exists w' evs,
    parallel_process os pipeline fileName pids fileNo w
    = (<[fileNo := Some (stage_pids (next_pid w) (numCmds pipeline))]> pids, w') /\
    next_pid w' = next_pid w + Z.of_nat (numCmds pipeline) /\
    trace w' = trace w ++ evs /\
    forks evs = stage_forks pipeline fileName (next_pid w) 0 (numCmds pipeline) /\
    waits evs = [] /\ reaped evs = [] /\
    (pids_fresh w ->
       pids_fresh w' /\ children w ⊆ children w' /\
       Forall2 (fun p s => children w' !! p = Some s)
         (stage_pids (next_pid w) (numCmds pipeline))
         (stage_statuses os pipeline fileName)).
Proof.
  unfold parallel_process.
  destruct (exec_cmd_spec os pipeline fileName w)
    as (w1 & evs1 & E & Hn1 & Hc1 & Ht1 & Hf1 & Hw1 & Hr1).
  exists w1, evs1. rewrite E. repeat split; try assumption.
  all: destruct (exec_cmd_pids_fresh os pipeline fileName w H)
         as (w2 & E2 & _ & Hfr & Hsub & Hown & _);
       rewrite E in E2; injection E2 as <-; assumption.
Qed.


(** ** The statistics array *)

Lemma incr_length i stats : length (incr i stats) = length stats.
Proof. apply length_alter. Qed.

Lemma stat_incr i j stats :
  (i < length stats)%nat ->
  stat (incr i stats) j = if decide (i = j) then stat stats j + 1 else stat stats j.
Proof.
  intros Hi. unfold stat, incr. destruct (decide (i = j)) as [->|Hne].
  - rewrite list_lookup_alter_eq.
    destruct (lookup_lt_is_Some_2 stats j Hi) as [x ->]. reflexivity.
  - now rewrite list_lookup_alter_ne.
Qed.

Lemma incr_comm i j stats : incr i (incr j stats) = incr j (incr i stats).
Proof.
  unfold incr. destruct (decide (i = j)) as [->|Hne]; [reflexivity|].
  now apply list_alter_alter_ne.
Qed.

Lemma bump_length o stats : length (bump o stats) = length stats.
Proof. unfold bump. now rewrite !incr_length. Qed.

Lemma bump_comm a b stats : bump a (bump b stats) = bump b (bump a stats).
Proof.
  unfold bump.
  rewrite (incr_comm (bucket a) TOTAL_STATS (incr (bucket b) stats)).
  rewrite (incr_comm (bucket b) TOTAL_STATS (incr (bucket a) stats)).
  now rewrite (incr_comm (bucket a) (bucket b)).
Qed.

Lemma stat_bump_notexec o stats :
  length stats = 5%nat ->
  stat (bump o stats) NOTEXEC
  = stat stats NOTEXEC + match o with NotExecuted => 1 | _ => 0 end.
Proof.
  intros Hlen. unfold bump.
  rewrite stat_incr by (rewrite incr_length, Hlen; unfold TOTAL_STATS; lia).
  rewrite decide_False by discriminate.
  rewrite stat_incr
    by (rewrite Hlen; destruct o; unfold bucket, SUCCESS, FAIL, SIGNAL, NOTEXEC; lia).
  destruct o; [rewrite decide_False by discriminate..|rewrite decide_True by reflexivity];
    lia.
Qed.


Lemma tally_inv_emit stats tr evs :
  reaped evs = [] -> tally_inv stats tr -> tally_inv stats (tr ++ evs).
Proof.
  intros Hq (Hlen & H0 & H1). repeat split; auto.
  rewrite reaped_app, Hq, app_nil_r. exact H1.
Qed.

Lemma tally_inv_bump o stats tr evs statuses :
  (forall s, s ∈ reaped evs -> s ∈ statuses) ->
  o = classify_spec statuses ->
  tally_inv stats tr ->
  tally_inv (bump o stats) (tr ++ evs).
Proof.
  intros Hsub -> (Hlen & H0 & H1). split; [now rewrite bump_length|].
  rewrite stat_bump_notexec by exact Hlen. split.
  - destruct (classify_spec statuses); lia.
  - rewrite reaped_app, existsb_app. intros [Hold|Hnew]%orb_prop.
    + specialize (H1 Hold). destruct (classify_spec statuses); lia.
    + apply existsb_elem in Hnew as (s & Hs & Hcne).
      rewrite classify_could_not_execute; [lia|].
      apply existsb_elem. exists s. split; [now apply Hsub | exact Hcne].
Qed.

Lemma tally_inv_not_executed stats tr :
  tally_inv stats tr ->
  tally_inv (incr TOTAL_STATS (incr NOTEXEC stats)) tr.
Proof.
  intros H. rewrite <- (app_nil_r tr).
  apply (tally_inv_bump NotExecuted stats tr [] (W_EXITCODE CHILD_PROCESS_ERROR 0 :: nil)).
  - intros s Hs. inversion Hs.
  - reflexivity.
  - exact H.
Qed.

Lemma tally_inv_initial tr : reaped tr = [] -> tally_inv [0; 0; 0; 0; 0] tr.
Proof.
  intros Hr. split; [reflexivity|]. split; [cbn; lia|].
  rewrite Hr. discriminate.
Qed.

Lemma tally_cases os pipeline stats file :
  (valid os pipeline file = true ->
   tally os pipeline stats file = count_stats stats (stage_statuses os pipeline file) /\
   tally_first_pass os pipeline stats file = stats /\
   tally_second_pass os pipeline stats file
   = count_stats stats (stage_statuses os pipeline file)) /\
  (valid os pipeline file = false ->
   tally os pipeline stats file = incr TOTAL_STATS (incr NOTEXEC stats) /\
   tally_first_pass os pipeline stats file = incr TOTAL_STATS (incr NOTEXEC stats) /\
   tally_second_pass os pipeline stats file = stats).
Proof.
  unfold tally, tally_first_pass, tally_second_pass.
  split; intros ->; auto.
Qed.

Lemma tally_first_pass_bump os pipeline o files :
  forall stats,
    fold_left (tally_first_pass os pipeline) files (bump o stats)
    = bump o (fold_left (tally_first_pass os pipeline) files stats).
Proof.
  induction files as [|file files IH]; intros stats; cbn [fold_left].
  - reflexivity.
  - destruct (valid os pipeline file) eqn:Hv.
    + destruct (proj1 (tally_cases os pipeline stats file) Hv) as (_ & -> & _).
      destruct (proj1 (tally_cases os pipeline (bump o stats) file) Hv) as (_ & -> & _).
      apply IH.
    + destruct (proj2 (tally_cases os pipeline stats file) Hv) as (_ & -> & _).
      destruct (proj2 (tally_cases os pipeline (bump o stats) file) Hv) as (_ & -> & _).
      change (incr TOTAL_STATS (incr NOTEXEC (bump o stats)))
        with (bump NotExecuted (bump o stats)).
      change (incr TOTAL_STATS (incr NOTEXEC stats)) with (bump NotExecuted stats).
      rewrite bump_comm. apply IH.
Qed.

(** The two passes of the parallel mode add up to the sequential tally. *)
Lemma tally_two_passes os pipeline files :
  forall stats,
    fold_left (tally_second_pass os pipeline) files
      (fold_left (tally_first_pass os pipeline) files stats)
    = fold_left (tally os pipeline) files stats.
Proof.
  induction files as [|file files IH]; intros stats; cbn [fold_left].
  - reflexivity.
  - destruct (valid os pipeline file) eqn:Hv.
    + destruct (proj1 (tally_cases os pipeline stats file) Hv) as (-> & -> & _).
      rewrite <- IH.
      destruct (proj1 (tally_cases os pipeline
                         (fold_left (tally_first_pass os pipeline) files stats) file) Hv)
        as (_ & _ & ->).
      rewrite !count_stats_bump, tally_first_pass_bump. reflexivity.
    + destruct (proj2 (tally_cases os pipeline stats file) Hv) as (-> & -> & _).
      rewrite <- IH.
      destruct (proj2 (tally_cases os pipeline
                         (fold_left (tally_first_pass os pipeline) files
                            (incr TOTAL_STATS (incr NOTEXEC stats))) file) Hv)
        as (_ & _ & ->).
      reflexivity.
Qed.

(** ** The loop over the files *)

Lemma run_files_cons os pipeline count file files i st w :
  run_files os pipeline count (file :: files) i st w =
  let w1 := emit (validation os pipeline file) w in
  if negb (valid os pipeline file) && negb (sigintReceived os i PollValidate) then
    run_files os pipeline count files (S i)
      {| rs_stats := incr TOTAL_STATS (incr NOTEXEC (rs_stats st));
         rs_config := rs_config st; rs_pids := rs_pids st |} w1
  else if negb (parallel (rs_config st)) && negb (sigintReceived os i PollStart) then
    if sigintReceived os i PollBetween && (Z.of_nat i <? count - 1) then
      ({| rs_stats := fst (sequential_process os pipeline file (rs_stats st) w1);
          rs_config := set_sigInt (rs_config st) true;
          rs_pids := rs_pids st |},
       snd (sequential_process os pipeline file (rs_stats st) w1))
    else
      run_files os pipeline count files (S i)
        {| rs_stats := fst (sequential_process os pipeline file (rs_stats st) w1);
           rs_config := rs_config st; rs_pids := rs_pids st |}
        (snd (sequential_process os pipeline file (rs_stats st) w1))
  else if parallel (rs_config st) then
    run_files os pipeline count files (S i)
      {| rs_stats := rs_stats st; rs_config := rs_config st;
         rs_pids := fst (parallel_process os pipeline file (rs_pids st) i w1) |}
      (snd (parallel_process os pipeline file (rs_pids st) i w1))
  else run_files os pipeline count files (S i) st w1.
Proof.
  cbn [run_files]. unfold valid, validation.
  destruct (validate_files os (stdinFileName pipeline) (stdoutFileName pipeline) file)
    as [v evs]. cbn [fst snd].
  destruct (sequential_process os pipeline file (rs_stats st) (emit evs w)).
  destruct (parallel_process os pipeline file (rs_pids st) i (emit evs w)).
  reflexivity.
Qed.

Lemma run_files_iterates os pipeline count files :
  forall i st w,
    iterates os pipeline count files i st w
      (fst (run_files os pipeline count files i st w))
      (snd (run_files os pipeline count files i st w)).
Proof.
  induction files as [|file files IH]; intros i st w; cbn [run_files].
  - constructor.
  - pose proof (eq_refl : valid os pipeline file = valid os pipeline file) as Hv.
    pose proof (eq_refl : validation os pipeline file = validation os pipeline file) as He.
    unfold valid at 2 in Hv. unfold validation at 2 in He.
    destruct (validate_files os (stdinFileName pipeline) (stdoutFileName pipeline) file)
      as [v evs]. cbn [fst snd] in Hv, He. subst v evs.
    destruct (valid os pipeline file) eqn:Hvalid; cbn [negb andb].
    + destruct (parallel (rs_config st)) eqn:Hpar; cbn [negb andb].
      * destruct (parallel_process os pipeline file (rs_pids st) i
                    (emit (validation os pipeline file) w)) as [pids w1] eqn:Hpp.
        eapply it_parallel; eauto.
      * destruct (sigintReceived os i PollStart) eqn:Hstart; cbn [negb].
        -- eapply it_skipped; eauto.
        -- destruct (sequential_process os pipeline file (rs_stats st)
                       (emit (validation os pipeline file) w)) as [stats w1] eqn:Hsp.
           destruct (sigintReceived os i PollBetween) eqn:Hbetween; cbn [andb].
           ++ destruct (Z.ltb_spec (Z.of_nat i) (count - 1)).
              ** eapply it_sequential_break; eauto.
              ** eapply it_sequential; eauto.
           ++ eapply it_sequential; eauto.
    + destruct (sigintReceived os i PollValidate) eqn:Hpoll; cbn [negb].
      * destruct (parallel (rs_config st)) eqn:Hpar; cbn [negb andb].
        -- destruct (parallel_process os pipeline file (rs_pids st) i
                       (emit (validation os pipeline file) w)) as [pids w1] eqn:Hpp.
           eapply it_parallel; eauto.
        -- destruct (sigintReceived os i PollStart) eqn:Hstart; cbn [negb].
           ++ eapply it_skipped; eauto.
           ++ destruct (sequential_process os pipeline file (rs_stats st)
                          (emit (validation os pipeline file) w)) as [stats w1] eqn:Hsp.
              destruct (sigintReceived os i PollBetween) eqn:Hbetween; cbn [andb].
              ** destruct (Z.ltb_spec (Z.of_nat i) (count - 1)).
                 --- eapply it_sequential_break; eauto.
                 --- eapply it_sequential; eauto.
              ** eapply it_sequential; eauto.
      * eapply it_not_executed; eauto.
Qed.

Ltac iterates_induction H :=
  induction H as
    [ i st w
    | file files i st w st' w' Hv Hpoll Hrest IH
    | file files i st w stats w1 Hv Hpar Hstart Hseq Hbetween Hi
    | file files i st w stats w1 st' w' Hv Hpar Hstart Hseq Hnext Hrest IH
    | file files i st w pids w1 st' w' Hv Hpar Hpp Hrest IH
    | file files i st w st' w' Hv Hpar Hstart Hrest IH ].

Lemma quiet_valid os pipeline file i :
  quiet os ->
  valid os pipeline file = true \/ sigintReceived os i PollValidate = true ->
  valid os pipeline file = true.
Proof. intros Hq [H|H]; [exact H | rewrite Hq in H; discriminate]. Qed.

(** A file that is passed over after the interrupt: sequential mode, the
    flag set at the polls of its iteration. *)
Lemma run_files_passed_over os pipeline count file files i st w :
  parallel (rs_config st) = false ->
  sigintReceived os i PollValidate = true ->
  sigintReceived os i PollStart = true ->
  run_files os pipeline count (file :: files) i st w
  = run_files os pipeline count files (S i) st (emit (validation os pipeline file) w).
Proof.
  intros Hmode Hv Hs. rewrite run_files_cons. cbv zeta.
  rewrite Hmode, Hv, Hs. cbn [negb]. now rewrite !andb_false_r.
Qed.

(** A failed validation in each mode, with the flag unset and set. *)
Lemma validation_failure_recorded os pipeline count file files i st w :
  valid os pipeline file = false ->
  sigintReceived os i PollValidate = false ->
  run_files os pipeline count (file :: files) i st w
  = run_files os pipeline count files (S i)
      {| rs_stats := incr TOTAL_STATS (incr NOTEXEC (rs_stats st));
         rs_config := rs_config st; rs_pids := rs_pids st |}
      (emit (validation os pipeline file) w).
Proof. intros Hv Hp. rewrite run_files_cons. cbv zeta. now rewrite Hv, Hp. Qed.

Lemma validation_failure_interrupted_parallel os pipeline count file files i st w :
  valid os pipeline file = false ->
  sigintReceived os i PollValidate = true ->
  parallel (rs_config st) = true ->
  let w1 := emit (validation os pipeline file) w in
  run_files os pipeline count (file :: files) i st w
  = run_files os pipeline count files (S i)
      {| rs_stats := rs_stats st; rs_config := rs_config st;
         rs_pids := <[i := Some (stage_pids (next_pid w) (numCmds pipeline))]> (rs_pids st) |}
      (snd (parallel_process os pipeline file (rs_pids st) i w1)).
Proof.
  intros Hv Hp Hmode w1. subst w1. rewrite run_files_cons. cbv zeta.
  rewrite Hv, Hp, Hmode. cbn [negb andb].
  destruct (parallel_process_spec os pipeline file (rs_pids st) i
              (emit (validation os pipeline file) w)) as (w' & evs & -> & _).
  reflexivity.
Qed.

Lemma iterates_tally_inv os pipeline count files i st w st' w' :
  iterates os pipeline count files i st w st' w' ->
  tally_inv (rs_stats st) (trace w) ->
  tally_inv (rs_stats st') (trace w').
Proof.
  induction 1 as
    [ i st w
    | file files i st w st' w' Hv Hpoll _ IH
    | file files i st w stats w1 Hv Hpar Hstart Hseq Hbetween Hi
    | file files i st w stats w1 st' w' Hv Hpar Hstart Hseq Hnext _ IH
    | file files i st w pids w1 st' w' Hv Hpar Hpp _ IH
    | file files i st w st' w' Hv Hpar Hstart _ IH ];
    intros Hinv; cbn [rs_stats] in *.
  - exact Hinv.
  - apply IH. cbn [emit trace].
    apply tally_inv_emit; [apply validation_quiet|].
    now apply tally_inv_not_executed.
  - destruct (sequential_process_spec os pipeline file (rs_stats st)
                (emit (validation os pipeline file) w))
      as (statuses & w2 & evs & E & _ & Ht & _ & _ & Hr & _).
    rewrite E in Hseq. injection Hseq as <- <-.
    rewrite Ht, count_stats_bump. cbn [emit trace].
    eapply tally_inv_bump; [exact Hr | reflexivity|].
    apply tally_inv_emit; [apply validation_quiet | exact Hinv].
  - apply IH.
    destruct (sequential_process_spec os pipeline file (rs_stats st)
                (emit (validation os pipeline file) w))
      as (statuses & w2 & evs & E & _ & Ht & _ & _ & Hr & _).
    rewrite E in Hseq. injection Hseq as <- <-.
    rewrite Ht, count_stats_bump. cbn [emit trace].
    eapply tally_inv_bump; [exact Hr | reflexivity|].
    apply tally_inv_emit; [apply validation_quiet | exact Hinv].
  - apply IH.
    destruct (parallel_process_spec os pipeline file (rs_pids st) i
                (emit (validation os pipeline file) w))
      as (w2 & evs & E & _ & Ht & _ & _ & Hr & _).
    rewrite E in Hpp. injection Hpp as <- <-.
    rewrite Ht. cbn [emit trace].
    apply tally_inv_emit; [exact Hr|].
    apply tally_inv_emit; [apply validation_quiet | exact Hinv].
  - apply IH. cbn [emit trace].
    apply tally_inv_emit; [apply validation_quiet | exact Hinv].
Qed.

Lemma reap_all_tally_inv os pids :
  forall stats w,
    tally_inv stats (trace w) ->
    tally_inv (fst (reap_all os pids stats w)) (trace (snd (reap_all os pids stats w))).
Proof.
  induction pids as [|[ps|] pids IH]; intros stats w Hinv; cbn [reap_all].
  - exact Hinv.
  - destruct (reap_children_spec os ps stats w)
      as (statuses & w' & evs & -> & _ & _ & Ht & _ & _ & Hr & _).
    apply IH. rewrite Ht, count_stats_bump.
    eapply tally_inv_bump; [exact Hr | reflexivity | exact Hinv].
  - now apply IH.
Qed.

(** The sequential loop: every file that is run is spawned and reaped
    before the next one is looked at. *)
Lemma iterates_sequential_trace os pipeline count files i st w st' w' :
  iterates os pipeline count files i st w st' w' ->
  parallel (rs_config st) = false ->
  exists evs spawned,
    trace w' = trace w ++ evs /\
    forks evs = run_forks pipeline (runs_from pipeline (next_pid w) spawned) /\
    waits evs = run_pids pipeline (runs_from pipeline (next_pid w) spawned) /\
    spawned `sublist_of` files /\
    (quiet os -> spawned = List.filter (valid os pipeline) files).
Proof.
  intros H. iterates_induction H; intros Hmode; cbn [rs_config] in *.
  - exists [], []. rewrite app_nil_r. repeat split; reflexivity.
  - destruct (IH Hmode) as (evs & spawned & Ht & Hf & Hw & Hsub & Hq).
    destruct (validation_quiet os pipeline file) as (Hvf & Hvw & _).
    exists (validation os pipeline file ++ evs), spawned.
    split; [rewrite Ht; cbn [emit trace]; now rewrite app_assoc|].
    rewrite forks_app, waits_app, Hvf, Hvw. cbn [app].
    repeat split; auto.
    + now apply sublist_cons.
    + intros Hquiet. cbn [List.filter]. rewrite Hv. auto.
  - destruct (sequential_process_spec os pipeline file (rs_stats st)
                (emit (validation os pipeline file) w))
      as (statuses & w2 & evs & E & _ & Ht & Hf & Hw & _).
    rewrite E in Hseq. injection Hseq as <- <-.
    destruct (validation_quiet os pipeline file) as (Hvf & Hvw & _).
    exists (validation os pipeline file ++ evs), [file].
    split; [rewrite Ht; cbn [emit trace]; now rewrite app_assoc|].
    rewrite forks_app, waits_app, Hvf, Hvw, Hf, Hw. cbn [app emit next_pid].
    unfold run_forks, run_pids. cbn [runs_from flat_map fst snd]. rewrite !app_nil_r.
    repeat split; auto.
    + apply sublist_skip, sublist_nil_l.
    + intros Hquiet. rewrite Hquiet in Hbetween. discriminate.
  - destruct (sequential_process_spec os pipeline file (rs_stats st)
                (emit (validation os pipeline file) w))
      as (statuses & w2 & evs & E & Hn & Ht & Hf & Hw & _).
    rewrite E in Hseq. injection Hseq as <- <-.
    destruct (IH Hmode) as (evs' & spawned & Ht' & Hf' & Hw' & Hsub & Hq).
    rewrite Hn in Hf', Hw'. cbn [emit next_pid] in *.
    destruct (validation_quiet os pipeline file) as (Hvf & Hvw & _).
    exists (validation os pipeline file ++ evs ++ evs'), (file :: spawned).
    split; [rewrite Ht', Ht; cbn [emit trace]; now rewrite !app_assoc|].
    rewrite !forks_app, !waits_app, Hvf, Hvw, Hf, Hw, Hf', Hw'. cbn [app].
    unfold run_forks, run_pids. cbn [runs_from flat_map fst snd].
    repeat split; auto.
    + now apply sublist_skip.
    + intros Hquiet. cbn [List.filter].
      rewrite (quiet_valid os pipeline file i Hquiet Hv). f_equal. auto.
  - congruence.
  - destruct (IH Hmode) as (evs & spawned & Ht & Hf & Hw & Hsub & Hq).
    destruct (validation_quiet os pipeline file) as (Hvf & Hvw & _).
    exists (validation os pipeline file ++ evs), spawned.
    split; [rewrite Ht; cbn [emit trace]; now rewrite app_assoc|].
    rewrite forks_app, waits_app, Hvf, Hvw. cbn [app].
    repeat split; auto.
    + now apply sublist_cons.
    + intros Hquiet. rewrite Hquiet in Hstart. discriminate.
Qed.

Lemma insert_middle {A} (done : list A) (x y : A) (rest : list A) :
  <[length done := y]> (done ++ x :: rest) = (done ++ [y]) ++ rest.
Proof.
  rewrite insert_app_r_alt by lia. rewrite Nat.sub_diag. cbn.
  now rewrite <- app_assoc.
Qed.

(** The first pass of the parallel mode: files are spawned and their
    process identities retained; nothing is reaped. *)
Lemma iterates_parallel_trace os pipeline count files i st w st' w' :
  iterates os pipeline count files i st w st' w' ->
  parallel (rs_config st) = true ->
  forall done,
    rs_pids st = done ++ replicate (length files) None ->
    length done = i ->
    exists evs spawned entries,
      trace w' = trace w ++ evs /\
      forks evs = run_forks pipeline (runs_from pipeline (next_pid w) spawned) /\
      waits evs = [] /\
      spawned `sublist_of` files /\
      rs_pids st' = done ++ entries /\
      pending entries = run_pids pipeline (runs_from pipeline (next_pid w) spawned) /\
      rs_config st' = rs_config st /\
      (quiet os -> spawned = List.filter (valid os pipeline) files).
Proof.
  intros H. iterates_induction H; intros Hmode done Hpids Hdone;
    cbn [rs_config rs_pids] in *; try congruence.
  - exists [], [], []. rewrite app_nil_r. cbn [replicate length] in Hpids.
    repeat split; try reflexivity. exact Hpids.
  - destruct (IH Hmode (done ++ [None]))
      as (evs & spawned & entries & Ht & Hf & Hw & Hsub & Hp & Hpend & Hc & Hq).
    { rewrite Hpids. cbn [length replicate]. now rewrite <- app_assoc. }
    { rewrite length_app. cbn [length]. lia. }
    destruct (validation_quiet os pipeline file) as (Hvf & Hvw & _).
    exists (validation os pipeline file ++ evs), spawned, (None :: entries).
    split; [rewrite Ht; cbn [emit trace]; now rewrite app_assoc|].
    rewrite forks_app, waits_app, Hvf, Hvw. cbn [app].
    repeat split; auto.
    + now apply sublist_cons.
    + rewrite Hp, <- app_assoc. reflexivity.
    + intros Hquiet. cbn [List.filter]. rewrite Hv. auto.
  - destruct (parallel_process_spec os pipeline file (rs_pids st) i
                (emit (validation os pipeline file) w))
      as (w2 & evs1 & E & Hn1 & Ht1 & Hf1 & Hw1 & _).
    rewrite E in Hpp. injection Hpp as <- <-.
    destruct (IH Hmode (done ++ [Some (stage_pids (next_pid w) (numCmds pipeline))]))
      as (evs & spawned & entries & Ht & Hf & Hw & Hsub & Hp & Hpend & Hc & Hq).
    { rewrite Hpids, <- Hdone. cbn [length replicate emit next_pid].
      apply insert_middle. }
    { rewrite length_app. cbn [length]. lia. }
    rewrite Hn1 in Hf, Hpend. cbn [emit next_pid] in *.
    destruct (validation_quiet os pipeline file) as (Hvf & Hvw & _).
    exists (validation os pipeline file ++ evs1 ++ evs), (file :: spawned),
      (Some (stage_pids (next_pid w) (numCmds pipeline)) :: entries).
    split; [rewrite Ht, Ht1; cbn [emit trace]; now rewrite !app_assoc|].
    rewrite !forks_app, !waits_app, Hvf, Hvw, Hf1, Hw1, Hf, Hw. cbn [app].
    unfold run_forks, run_pids. cbn [runs_from flat_map fst snd pending].
    repeat split; auto.
    + now apply sublist_skip.
    + rewrite Hp, <- app_assoc. reflexivity.
    + now rewrite Hpend.
    + intros Hquiet. cbn [List.filter].
      rewrite (quiet_valid os pipeline file i Hquiet Hv). f_equal. auto.
Qed.

(** Identities handed out in order are all different. *)
Lemma run_pids_from_bound pipeline spawned :
  forall first q,
    q ∈ run_pids pipeline (runs_from pipeline first spawned) -> first <= q.
Proof.
  induction spawned as [|file spawned IH]; intros first q;
    unfold run_pids; cbn [runs_from flat_map snd].
  - intros H. inversion H.
  - rewrite elem_of_app, elem_of_stage_pids.
    intros [H|H]; [lia|]. apply IH in H. lia.
Qed.

Lemma run_pids_from_NoDup pipeline spawned :
  forall first, NoDup (run_pids pipeline (runs_from pipeline first spawned)).
Proof.
  induction spawned as [|file spawned IH]; intros first;
    unfold run_pids; cbn [runs_from flat_map snd].
  - constructor.
  - apply NoDup_app. split; [apply stage_pids_NoDup|]. split; [|apply IH].
    intros q Hq%elem_of_stage_pids Hq2%run_pids_from_bound. lia.
Qed.

Lemma reap_all_trace os pids :
  forall stats w,
    exists evs,
      trace (snd (reap_all os pids stats w)) = trace w ++ evs /\
      forks evs = [] /\ waits evs = pending pids.
Proof.
  induction pids as [|[ps|] pids IH]; intros stats w; cbn [reap_all pending].
  - exists []. now rewrite app_nil_r.
  - destruct (reap_children_spec os ps stats w)
      as (statuses & w' & evs & -> & _ & _ & Ht & Hf & Hw & _).
    destruct (IH (count_stats stats statuses) w') as (evs' & Ht' & Hf' & Hw').
    exists (evs ++ evs'). rewrite Ht', Ht, forks_app, waits_app, Hf, Hf', Hw, Hw'.
    now rewrite app_assoc.
  - apply IH.
Qed.

(** Where [config->sigInt] comes from. *)
Lemma iterates_sigInt os pipeline count files i st w st' w' :
  iterates os pipeline count files i st w st' w' ->
  parallel (rs_config st') = parallel (rs_config st) /\
  (sigInt (rs_config st') = true ->
   sigInt (rs_config st) = true \/
   (parallel (rs_config st) = false /\
    exists j, (i <= j)%nat /\ Z.of_nat j < count - 1 /\
              sigintReceived os j PollStart = false /\
              sigintReceived os j PollBetween = true)).
Proof.
  intros H. iterates_induction H; cbn [rs_config] in *.
  - auto.
  - destruct IH as [IH1 IH2]. split; [exact IH1|].
    intros [Hs|(Hp & j & Hj & Hr)]%IH2; [now left | right].
    split; [exact Hp|]. exists j. split; [lia | exact Hr].
  - split; [reflexivity|]. intros _. right. split; [exact Hpar|].
    exists i. auto.
  - destruct IH as [IH1 IH2]. split; [exact IH1|].
    intros [Hs|(Hp & j & Hj & Hr)]%IH2; [now left | right].
    split; [exact Hp|]. exists j. split; [lia | exact Hr].
  - destruct IH as [IH1 IH2]. split; [exact IH1|].
    intros [Hs|(Hp & j & Hj & Hr)]%IH2; [now left | right].
    split; [exact Hp|]. exists j. split; [lia | exact Hr].
  - destruct IH as [IH1 IH2]. split; [exact IH1|].
    intros [Hs|(Hp & j & Hj & Hr)]%IH2; [now left | right].
    split; [exact Hp|]. exists j. split; [lia | exact Hr].
Qed.

Lemma iterates_sequential_quiet os pipeline count files i st w st' w' :
  iterates os pipeline count files i st w st' w' ->
  parallel (rs_config st) = false ->
  quiet os ->
  pids_fresh w ->
  rs_stats st' = fold_left (tally os pipeline) files (rs_stats st) /\
  pids_fresh w' /\ children w' = children w.
Proof.
  intros H. iterates_induction H; intros Hmode Hquiet Hfresh;
    cbn [rs_config rs_stats fold_left] in *.
  - auto.
  - destruct (IH Hmode Hquiet Hfresh) as (-> & Hf & Hc).
    destruct (proj2 (tally_cases os pipeline (rs_stats st) file) Hv) as (-> & _).
    auto.
  - rewrite Hquiet in Hbetween. discriminate.
  - destruct (sequential_process_spec os pipeline file (rs_stats st)
                (emit (validation os pipeline file) w))
      as (statuses & w2 & evs & E & _ & _ & _ & _ & _ & Hex).
    rewrite E in Hseq. injection Hseq as <- <-.
    destruct (Hex Hfresh) as (-> & _ & Hc2 & Hf2).
    destruct (IH Hmode Hquiet Hf2) as (-> & Hf & Hc).
    destruct (proj1 (tally_cases os pipeline (rs_stats st) file)
                (quiet_valid os pipeline file i Hquiet Hv)) as (-> & _).
    split; [reflexivity|]. split; [exact Hf|]. now rewrite Hc, Hc2.
  - congruence.
  - rewrite Hquiet in Hstart. discriminate.
Qed.

Lemma entry_ok_agree os pipeline (m m' : gmap Z Z) files entries :
  (forall p, p ∈ pending entries -> m' !! p = m !! p) ->
  Forall2 (entry_ok os pipeline m) files entries ->
  Forall2 (entry_ok os pipeline m') files entries.
Proof.
  intros Hagree HF. induction HF as [|file entry files entries He HF IH].
  - constructor.
  - constructor.
    + destruct entry as [ps|]; [|exact He]. destruct He as [Hv Hown].
      split; [exact Hv|]. eapply Forall2_impl_elem; [exact Hown|].
      cbn. intros p s Hin Hp. rewrite Hagree; [exact Hp|].
      cbn [pending]. apply elem_of_app. now left.
    + apply IH. intros p Hp. apply Hagree.
      destruct entry; cbn [pending]; [apply elem_of_app; now right | exact Hp].
Qed.

Lemma iterates_parallel_quiet os pipeline count files i st w st' w' :
  iterates os pipeline count files i st w st' w' ->
  parallel (rs_config st) = true ->
  quiet os ->
  pids_fresh w ->
  forall done,
    rs_pids st = done ++ replicate (length files) None ->
    length done = i ->
    exists entries,
      rs_pids st' = done ++ entries /\
      rs_stats st' = fold_left (tally_first_pass os pipeline) files (rs_stats st) /\
      pids_fresh w' /\ children w ⊆ children w' /\
      next_pid w <= next_pid w' /\
      Forall2 (entry_ok os pipeline (children w')) files entries /\
      NoDup (pending entries) /\
      (forall p, p ∈ pending entries -> next_pid w <= p < next_pid w').
Proof.
  intros H. iterates_induction H; intros Hmode Hquiet Hfresh done Hpids Hdone;
    cbn [rs_config rs_stats rs_pids fold_left] in *; try congruence.
  - exists []. cbn [replicate length] in Hpids.
    split; [exact Hpids|]. split; [reflexivity|]. split; [exact Hfresh|].
    split; [reflexivity|]. split; [lia|]. split; [constructor|].
    split; [constructor|]. intros p Hp. inversion Hp.
  - destruct (IH Hmode Hquiet Hfresh (done ++ [None]))
      as (entries & Hp & -> & Hf & Hsub & Hn & HF & Hnd & Hrange).
    { rewrite Hpids. cbn [length replicate]. now rewrite <- app_assoc. }
    { rewrite length_app. cbn [length]. lia. }
    exists (None :: entries).
    destruct (proj2 (tally_cases os pipeline (rs_stats st) file) Hv) as (_ & -> & _).
    split; [rewrite Hp, <- app_assoc; reflexivity|].
    repeat split; auto; try apply Hrange; auto.
  - destruct (parallel_process_spec os pipeline file (rs_pids st) i
                (emit (validation os pipeline file) w))
      as (w2 & evs1 & E & Hn1 & _ & _ & _ & _ & Hex).
    rewrite E in Hpp. injection Hpp as <- <-.
    destruct (Hex Hfresh) as (Hf1 & Hsub1 & Hown1).
    cbn [emit next_pid children] in *.
    destruct (IH Hmode Hquiet Hf1
                (done ++ [Some (stage_pids (next_pid w) (numCmds pipeline))]))
      as (entries & Hp & -> & Hf & Hsub & Hn & HF & Hnd & Hrange).
    { rewrite Hpids, <- Hdone. cbn [length replicate]. apply insert_middle. }
    { rewrite length_app. cbn [length]. lia. }
    exists (Some (stage_pids (next_pid w) (numCmds pipeline)) :: entries).
    destruct (proj1 (tally_cases os pipeline (rs_stats st) file)
                (quiet_valid os pipeline file i Hquiet Hv)) as (_ & -> & _).
    split; [rewrite Hp, <- app_assoc; reflexivity|].
    split; [reflexivity|]. split; [exact Hf|].
    split; [etrans; eassumption|]. split; [lia|]. split.
    { constructor; [|exact HF]. split; [exact (quiet_valid _ _ _ _ Hquiet Hv)|].
      eapply Forall2_impl; [exact Hown1|]. cbn. intros p s Hps.
      eapply lookup_weaken; eassumption. }
    split.
    { cbn [pending]. apply NoDup_app. split; [apply stage_pids_NoDup|].
      split; [|exact Hnd].
      intros p Hin%elem_of_stage_pids Hin2%Hrange. lia. }
    intros p. cbn [pending]. rewrite elem_of_app, elem_of_stage_pids.
    intros [Hin|Hin%Hrange]; lia.
Qed.

Lemma reap_all_quiet os pipeline files entries :
  Forall2 (fun _ _ => True) files entries ->
  forall stats w,
    Forall2 (entry_ok os pipeline (children w)) files entries ->
    NoDup (pending entries) ->
    fst (reap_all os entries stats w)
    = fold_left (tally_second_pass os pipeline) files stats.
Proof.
  induction 1 as [|file entry files entries _ _ IH]; intros stats w HF Hnd.
  - reflexivity.
  - inversion HF as [|? ? ? ? He HF']; subst. cbn [reap_all fold_left].
    destruct entry as [ps|]; cbn [entry_ok pending] in *.
    + destruct He as [Hv Hown].
      destruct (proj1 (tally_cases os pipeline stats file) Hv) as (_ & _ & ->).
      apply NoDup_app in Hnd as (Hnd1 & Hdisj & Hnd2).
      destruct (reap_children_spec os ps stats w)
        as (statuses & w' & evs & -> & _ & Hc & _ & _ & _ & _ & Hex).
      destruct (Hex _ Hnd1 Hown) as [-> _].
      apply IH; [|exact Hnd2].
      eapply entry_ok_agree; [|exact HF'].
      intros p Hp. rewrite Hc. rewrite decide_False; [reflexivity|].
      intros Hin. exact (Hdisj p Hin Hp).
    + destruct (proj2 (tally_cases os pipeline stats file) He) as (_ & _ & ->).
      now apply IH.
Qed.

(** ** Whole runs *)

Lemma run_pipeline_tally_inv os pipeline config stats fileList w :
  tally_inv stats (trace w) ->
  tally_inv (fst (fst (run_pipeline os pipeline config stats fileList w)))
            (trace (snd (run_pipeline os pipeline config stats fileList w))).
Proof.
  intros Hinv. unfold run_pipeline.
  match goal with |- context [run_files ?o ?p ?c ?f ?i ?s ?w0] =>
    pose proof (run_files_iterates o p c f i s w0) as Hit;
    destruct (run_files o p c f i s w0) as [st' w'] end.
  cbn [fst snd] in Hit.
  apply iterates_tally_inv in Hit; [|exact Hinv].
  destruct (parallel config).
  - pose proof (reap_all_tally_inv os (rs_pids st') (rs_stats st') w' Hit) as H.
    destruct (reap_all os (rs_pids st') (rs_stats st') w'). exact H.
  - exact Hit.
Qed.

Lemma run_pipeline_sigInt os pipeline config stats fileList w :
  parallel (snd (fst (run_pipeline os pipeline config stats fileList w)))
  = parallel config /\
  (sigInt (snd (fst (run_pipeline os pipeline config stats fileList w))) = true ->
   sigInt config = true \/
   (parallel config = false /\
    exists j, Z.of_nat j < Z.of_nat (length fileList) - 1 /\
              sigintReceived os j PollStart = false /\
              sigintReceived os j PollBetween = true)).
Proof.
  unfold run_pipeline.
  match goal with |- context [run_files ?o ?p ?c ?f ?i ?s ?w0] =>
    pose proof (run_files_iterates o p c f i s w0) as Hit;
    destruct (run_files o p c f i s w0) as [st' w'] end.
  cbn [fst snd] in Hit. apply iterates_sigInt in Hit. cbn [rs_config] in Hit.
  destruct Hit as [Hp Hs].
  assert (Hgoal : parallel (rs_config st') = parallel config /\
            (sigInt (rs_config st') = true ->
             sigInt config = true \/
             (parallel config = false /\
              exists j, Z.of_nat j < Z.of_nat (length fileList) - 1 /\
                        sigintReceived os j PollStart = false /\
                        sigintReceived os j PollBetween = true))).
  { split; [exact Hp|]. intros [H|(H & j & _ & Hj)]%Hs; [now left | right].
    split; [exact H|]. now exists j. }
  destruct (parallel config); [|exact Hgoal].
  destruct (reap_all os (rs_pids st') (rs_stats st') w'). exact Hgoal.
Qed.

Lemma reaped_elem pid status tr :
  EvWait pid (Some status) ∈ tr -> status ∈ reaped tr.
Proof.
  intros H. unfold reaped. apply list_elem_of_omap.
  exists (EvWait pid (Some status)). split; [exact H | reflexivity].
Qed.

Lemma run_pipeline_sequential_quiet os pipeline config stats fileList w :
  parallel config = false -> quiet os -> pids_fresh w ->
  fst (fst (run_pipeline os pipeline config stats fileList w))
  = fold_left (tally os pipeline) fileList stats.
Proof.
  intros Hmode Hquiet Hfresh. unfold run_pipeline.
  match goal with |- context [run_files ?o ?p ?c ?f ?i ?s ?w0] =>
    pose proof (run_files_iterates o p c f i s w0) as Hit;
    destruct (run_files o p c f i s w0) as [st' w'] end.
  cbn [fst snd] in Hit.
  apply iterates_sequential_quiet in Hit as (Hstats & _); auto.
  rewrite Hmode. exact Hstats.
Qed.

Lemma run_pipeline_parallel_quiet os pipeline config stats fileList w :
  parallel config = true -> quiet os -> pids_fresh w ->
  fst (fst (run_pipeline os pipeline config stats fileList w))
  = fold_left (tally os pipeline) fileList stats.
Proof.
  intros Hmode Hquiet Hfresh. unfold run_pipeline. rewrite Hmode.
  match goal with |- context [run_files ?o ?p ?c ?f ?i ?s ?w0] =>
    pose proof (run_files_iterates o p c f i s w0) as Hit;
    destruct (run_files o p c f i s w0) as [st' w'] end.
  cbn [fst snd] in Hit.
  apply iterates_parallel_quiet with (done := []) in Hit
    as (entries & Hp & Hstats & _ & _ & _ & HF & Hnd & _); auto.
  cbn [app rs_stats] in *.
  rewrite <- tally_two_passes, <- Hstats, Hp.
  pose proof (reap_all_quiet os pipeline fileList entries) as Hreap.
  destruct (reap_all os entries (rs_stats st') w') as [stats' w''] eqn:E.
  cbn [fst]. specialize (Hreap (Forall2_impl _ _ _ _ HF (fun _ _ _ => I))
                           (rs_stats st') w' HF Hnd).
  now rewrite E in Hreap.
Qed.

Lemma run_pipeline_trace os pipeline config stats fileList w :
  exists evs spawned,
    trace (snd (run_pipeline os pipeline config stats fileList w)) = trace w ++ evs /\
    forks evs = run_forks pipeline (runs_from pipeline (next_pid w) spawned) /\
    waits evs = run_pids pipeline (runs_from pipeline (next_pid w) spawned) /\
    spawned `sublist_of` fileList /\
    (quiet os -> spawned = List.filter (valid os pipeline) fileList).
Proof.
  unfold run_pipeline.
  match goal with |- context [run_files ?o ?p ?c ?f ?i ?s ?w0] =>
    pose proof (run_files_iterates o p c f i s w0) as Hit;
    destruct (run_files o p c f i s w0) as [st' w'] end.
  cbn [fst snd] in Hit. destruct (parallel config) eqn:Hmode.
  - apply iterates_parallel_trace with (done := []) in Hit
      as (evs & spawned & entries & Ht & Hf & Hw & Hsub & Hp & Hpend & _ & Hq); auto.
    cbn [app] in Hp.
    destruct (reap_all_trace os (rs_pids st') (rs_stats st') w')
      as (evs' & Ht' & Hf' & Hw').
    destruct (reap_all os (rs_pids st') (rs_stats st') w') as [stats' w''].
    cbn [snd] in *. exists (evs ++ evs'), spawned.
    rewrite Ht', Ht, forks_app, waits_app, Hf, Hf', Hw, Hw', Hp, Hpend, app_nil_r.
    rewrite app_assoc. auto.
  - apply iterates_sequential_trace in Hit
      as (evs & spawned & Ht & Hf & Hw & Hsub & Hq); auto.
    exists evs, spawned. auto.
Qed.

(** ** The scheduler and the exit decision *)

(** C3, the failing run.  Parallel mode, one file whose input redirection
    cannot be opened, and the interrupt flag set when [run_pipeline] looks
    at the result of the validation: the validation fails, and yet the
    stage is spawned, reaped and counted as a success. *)
Theorem validation_failure_spawns_when_interrupted_in_parallel :
  valid interrupted_os cat_pipeline "a.txt" = false /\
  forks (run_trace interrupted_os cat_pipeline (settings true) ["a.txt"]
           (initial_world 100))
  = [(100, "a.txt", 0%nat, ["cat"])] /\
  run_stats interrupted_os cat_pipeline (settings true) ["a.txt"] (initial_world 100)
  = [1; 0; 0; 0; 1].
Proof. vm_compute. repeat split; reflexivity. Qed.



(** ** Programs that cannot be executed, and exit code 99 *)



(** C10.  An exit with code 99 is NotExecuted whoever exits so.  A status
    with exit code 99 among a file's statuses puts the file in the
    NotExecuted bucket; a program that runs and exits with 99 leaves the
    very status of a failed [execvp]; and a run in which some reaped
    status has exit code 99 ends with [PROCESS_ERROR]. *)
Theorem exit_99_is_not_executed (os : OS) (pipeline : CommandPipeline)
    (config : Settings) (fileList : list string) (first_pid : Z) :
  (forall status statuses s f g n t,
     In status statuses ->
     WIFEXITED status = true ->
     WEXITSTATUS status = 99 ->
     count_stats [s; f; g; n; t] statuses = [s; f; g; n + 1; t + 1]) /\
  (forall fileName cmdIdx argv,
     sys_execvp os fileName cmdIdx argv = Some (W_EXITCODE 99 0) ->
     child_status os fileName cmdIdx argv
     = child_status (with_execvp os (fun _ _ _ => None)) fileName cmdIdx argv) /\
  (forall pid status,
     EvWait pid (Some status)
       ∈ trace (snd (main os pipeline config fileList (initial_world first_pid))) ->
     WIFEXITED status = true ->
     WEXITSTATUS status = 99 ->
     fst (fst (main os pipeline config fileList (initial_world first_pid)))
     = PROCESS_ERROR).
Proof.
  split; [|split].
  - intros status statuses s f g n t Hin Hex Hst.
    rewrite count_stats_bump, classify_could_not_execute; [reflexivity|].
    apply existsb_exists. exists status. split; [exact Hin|].
    unfold could_not_execute. rewrite Hex, Hst. reflexivity.
  - intros fileName cmdIdx argv H. unfold child_status. rewrite H. reflexivity.
  - intros pid status Hin Hex Hst.
    pose proof (run_pipeline_tally_inv os pipeline config [0; 0; 0; 0; 0] fileList
                  (initial_world first_pid) (tally_inv_initial [] eq_refl))
      as (Hlen & H0 & H1).
    unfold main in *.
    destruct (run_pipeline os pipeline config [0; 0; 0; 0; 0] fileList
                (initial_world first_pid)) as [[stats config'] w'].
    cbn [fst snd] in *.
    assert (Hin' : status ∈ reaped (trace w')).
    { destruct (statistics config'); [|now apply reaped_elem in Hin].
      cbn [emit trace] in Hin. apply reaped_elem in Hin.
      rewrite reaped_app in Hin. cbn in Hin. now rewrite app_nil_r in Hin. }
    unfold exit_status.
    destruct (Z.eqb_spec (stat stats NOTEXEC) 0) as [Hz|_]; [|reflexivity].
    assert (1 <= stat stats NOTEXEC); [|lia].
    apply H1, existsb_elem. exists status. split; [exact Hin'|].
    unfold could_not_execute. rewrite Hex, Hst. reflexivity.
Qed.

(** C10 at a run whose programs all run and exit with code 99. *)
Lemma exit_99_is_not_executed_witness :
  fst (fst (main exit_99_os echo_wc_pipeline (settings true) ["a"]
              (initial_world 100)))
  = PROCESS_ERROR.
Proof.
  destruct (exit_99_is_not_executed exit_99_os echo_wc_pipeline (settings true)
              ["a"] 100) as (_ & _ & H).
  apply (H 100 (W_EXITCODE 99 0)); [|reflexivity|reflexivity].
  apply list_elem_of_In. vm_compute. tauto.
Defined.

(** * More of the program *)

(** ** The counters of a run *)

Lemma stat_bump o stats j :
  length stats = 5%nat ->
  stat (bump o stats) j
  = stat stats j + (if decide (j = bucket o) then 1 else 0)
    + (if decide (j = TOTAL_STATS) then 1 else 0).
Proof.
  intros Hlen. unfold bump.
  rewrite stat_incr by (rewrite incr_length, Hlen; unfold TOTAL_STATS; lia).
  rewrite stat_incr
    by (rewrite Hlen; destruct o; unfold bucket, SUCCESS, FAIL, SIGNAL, NOTEXEC; lia).
  destruct (decide (TOTAL_STATS = j)), (decide (j = TOTAL_STATS)); try congruence;
    destruct (decide (bucket o = j)), (decide (j = bucket o)); try congruence; lia.
Qed.

Lemma counters_add_up_bump o stats n :
  counters_add_up stats n -> counters_add_up (bump o stats) (n + 1).
Proof.
  intros (Hlen & Hs & Hf & Hg & Hn & Hsum & Hle). unfold counters_add_up.
  rewrite bump_length, !stat_bump by exact Hlen.
  split; [exact Hlen|].
  destruct o; cbn [bucket];
    repeat match goal with
           | |- context [decide (?a = ?b)] =>
               destruct (decide (a = b)); try discriminate
           end; lia.
Qed.

Lemma counters_add_up_le stats n m :
  n <= m -> counters_add_up stats n -> counters_add_up stats m.
Proof. unfold counters_add_up. intros Hnm H. repeat split; try apply H. lia. Qed.

Lemma counters_add_up_initial : counters_add_up [0; 0; 0; 0; 0] 0.
Proof. repeat split; cbn; lia. Qed.

Lemma sequential_process_bump os pipeline fileName stats w :
  exists o, fst (sequential_process os pipeline fileName stats w) = bump o stats.
Proof.
  destruct (sequential_process_spec os pipeline fileName stats w)
    as (statuses & w' & evs & -> & _).
  rewrite count_stats_bump. eauto.
Qed.

Lemma iterates_sequential_counters os pipeline count files i st w st' w' :
  iterates os pipeline count files i st w st' w' ->
  parallel (rs_config st) = false ->
  forall n,
    counters_add_up (rs_stats st) n ->
    counters_add_up (rs_stats st') (n + Z.of_nat (length files)).
Proof.
  intros H. iterates_induction H; intros Hmode n Hc;
    cbn [rs_config rs_stats length] in *; try congruence.
  - now rewrite Z.add_0_r.
  - apply (counters_add_up_bump NotExecuted) in Hc.
    specialize (IH Hmode _ Hc). eapply counters_add_up_le; [|exact IH]. lia.
  - destruct (sequential_process_bump os pipeline file (rs_stats st)
                (emit (validation os pipeline file) w)) as [o Ho].
    rewrite Hseq in Ho. cbn [fst] in Ho. subst stats.
    eapply counters_add_up_le; [|apply counters_add_up_bump; exact Hc]. lia.
  - destruct (sequential_process_bump os pipeline file (rs_stats st)
                (emit (validation os pipeline file) w)) as [o Ho].
    rewrite Hseq in Ho. cbn [fst] in Ho. subst stats.
    apply (counters_add_up_bump o) in Hc.
    specialize (IH Hmode _ Hc). eapply counters_add_up_le; [|exact IH]. lia.
  - specialize (IH Hmode _ Hc). eapply counters_add_up_le; [|exact IH]. lia.
Qed.

Lemma iterates_parallel_counters os pipeline count files i st w st' w' :
  iterates os pipeline count files i st w st' w' ->
  parallel (rs_config st) = true ->
  forall n done,
    counters_add_up (rs_stats st) n ->
    rs_pids st = done ++ replicate (length files) None ->
    length done = i ->
    exists entries m,
      rs_pids st' = done ++ entries /\
      counters_add_up (rs_stats st') m /\
      m + Z.of_nat (retained entries) <= n + Z.of_nat (length files).
Proof.
  intros H. iterates_induction H; intros Hmode n done Hc Hpids Hdone;
    cbn [rs_config rs_stats rs_pids length] in *; try congruence.
  - exists [], n. cbn [replicate] in Hpids. cbn. split; [exact Hpids|].
    split; [exact Hc | lia].
  - apply (counters_add_up_bump NotExecuted) in Hc.
    destruct (IH Hmode _ (done ++ [None]) Hc) as (entries & m & Hp & Hm & Hle).
    { rewrite Hpids. cbn [replicate]. now rewrite <- app_assoc. }
    { rewrite length_app. cbn [length]. lia. }
    exists (None :: entries), m. cbn [retained].
    split; [rewrite Hp, <- app_assoc; reflexivity|]. split; [exact Hm | lia].
  - destruct (parallel_process_spec os pipeline file (rs_pids st) i
                (emit (validation os pipeline file) w)) as (w2 & evs1 & E & _).
    rewrite E in Hpp. injection Hpp as <- <-.
    destruct (IH Hmode _ (done ++ [Some (stage_pids (next_pid w) (numCmds pipeline))]) Hc)
      as (entries & m & Hp & Hm & Hle).
    { rewrite Hpids, <- Hdone. cbn [replicate emit next_pid]. apply insert_middle. }
    { rewrite length_app. cbn [length]. lia. }
    exists (Some (stage_pids (next_pid w) (numCmds pipeline)) :: entries), m.
    cbn [retained]. split; [rewrite Hp, <- app_assoc; reflexivity|].
    split; [exact Hm | lia].
Qed.

Lemma reap_all_counters os pids :
  forall stats w n,
    counters_add_up stats n ->
    counters_add_up (fst (reap_all os pids stats w)) (n + Z.of_nat (retained pids)).
Proof.
  induction pids as [|[ps|] pids IH]; intros stats w n Hc; cbn [reap_all retained].
  - now rewrite Z.add_0_r.
  - destruct (reap_children_spec os ps stats w) as (statuses & w' & evs & -> & _).
    rewrite count_stats_bump.
    eapply counters_add_up_le; [|apply IH, counters_add_up_bump; exact Hc]. lia.
  - now apply IH.
Qed.

Lemma stat_fold_tally os pipeline files :
  forall stats,
    length stats = 5%nat ->
    stat (fold_left (tally os pipeline) files stats) TOTAL_STATS
    = stat stats TOTAL_STATS + Z.of_nat (length files).
Proof.
  induction files as [|file files IH]; intros stats Hlen; cbn [fold_left length].
  - lia.
  - assert (Ho : exists o, tally os pipeline stats file = bump o stats).
    { unfold tally. destruct (valid os pipeline file).
      - rewrite count_stats_bump. eauto.
      - exists NotExecuted. reflexivity. }
    destruct Ho as [o ->]. rewrite IH by (now rewrite bump_length).
    rewrite stat_bump by exact Hlen.
    destruct (decide (TOTAL_STATS = bucket o)) as [E|_]; [destruct o; discriminate|].
    rewrite decide_True by reflexivity. lia.
Qed.

(** X1.  Whatever the environment does and whenever the interrupt flag is
    set, [run_pipeline] started on zeroed statistics leaves five counters
    of which none is negative, the total equals the sum of the four
    outcome counters, and the total does not exceed the number of
    files. *)
Theorem run_counters_add_up (os : OS) (pipeline : CommandPipeline)
    (config : Settings) (fileList : list string) (w : World) :
  counters_add_up (run_stats os pipeline config fileList w)
    (Z.of_nat (length fileList)).
Proof.
  unfold run_stats, run_pipeline.
  match goal with |- context [run_files ?o ?p ?c ?f ?i ?s ?w0] =>
    pose proof (run_files_iterates o p c f i s w0) as Hit;
    destruct (run_files o p c f i s w0) as [st' w'] end.
  cbn [fst snd] in Hit. destruct (parallel config) eqn:Hmode.
  - apply iterates_parallel_counters with (n := 0) (done := []) in Hit
      as (entries & m & Hp & Hm & Hle); auto using counters_add_up_initial.
    cbn [app] in Hp. rewrite Hp.
    pose proof (reap_all_counters os entries (rs_stats st') w' m Hm) as H.
    destruct (reap_all os entries (rs_stats st') w') as [stats' w''].
    cbn [fst] in *. eapply counters_add_up_le; [|exact H]. lia.
  - apply iterates_sequential_counters with (n := 0) in Hit;
      auto using counters_add_up_initial.
Qed.

(** X2.  When the interrupt flag is never seen set, every file of the
    list is counted: the total equals the number of files, in both
    modes. *)
Theorem quiet_run_counts_every_file (os : OS) (pipeline : CommandPipeline)
    (config : Settings) (fileList : list string) (first_pid : Z) :
  quiet os ->
  stat (run_stats os pipeline config fileList (initial_world first_pid)) TOTAL_STATS
  = Z.of_nat (length fileList).
Proof.
  intros Hquiet. unfold run_stats.
  destruct (parallel config) eqn:Hmode.
  - rewrite run_pipeline_parallel_quiet
      by auto using pids_fresh_initial.
    now rewrite stat_fold_tally.
  - rewrite run_pipeline_sequential_quiet
      by auto using pids_fresh_initial.
    now rewrite stat_fold_tally.
Qed.

(** ** Every call of [waitpid] finds its child *)

Lemma failed_waits_app a b : failed_waits (a ++ b) = failed_waits a ++ failed_waits b.
Proof. apply omap_app. Qed.

Lemma waits_count tr :
  length (waits tr) = (length (reaped tr) + length (failed_waits tr))%nat.
Proof.
  induction tr as [|e tr IH]; [reflexivity|].
  destruct e as [| | | | | | | |pid [status|]];
    cbn [waits reaped failed_waits omap wait_of reaped_of failed_wait_of
         list_omap length] in *; try exact IH.
  - cbn. unfold waits, reaped, failed_waits in IH. lia.
  - cbn. unfold waits, reaped, failed_waits in IH. lia.
Qed.

Lemma no_waits_none_failed tr : waits tr = [] -> failed_waits tr = [].
Proof.
  intros H. pose proof (waits_count tr) as Hc. rewrite H in Hc.
  destruct (failed_waits tr); [reflexivity|]. cbn in Hc. lia.
Qed.

Lemma all_reaped_none_failed tr :
  length (waits tr) = length (reaped tr) -> failed_waits tr = [].
Proof.
  intros H. pose proof (waits_count tr) as Hc.
  destruct (failed_waits tr); [reflexivity|]. cbn in Hc. lia.
Qed.

Lemma validation_no_failed_wait os pipeline file :
  failed_waits (validation os pipeline file) = [].
Proof. apply no_waits_none_failed, validation_quiet. Qed.

Lemma exec_cmd_owned os pipeline fileName w :
  exists w' evs,
    exec_cmd os pipeline fileName (malloc_pids os pipeline) w
    = (stage_pids (next_pid w) (numCmds pipeline), w') /\
    next_pid w' = next_pid w + Z.of_nat (numCmds pipeline) /\
    trace w' = trace w ++ evs /\ waits evs = [] /\
    Forall2 (fun p s => children w' !! p = Some s)
      (stage_pids (next_pid w) (numCmds pipeline))
      (stage_statuses os pipeline fileName) /\
    (forall q, q ∉ stage_pids (next_pid w) (numCmds pipeline) ->
               children w' !! q = children w !! q).
Proof.
  destruct (exec_cmd_spec os pipeline fileName w)
    as (w' & evs & E & Hn & Hc & Ht & _ & Hw & _).
  exists w', evs. repeat split; try assumption.
  - apply stage_statuses_owned. intros pid Hpid. rewrite Hc.
    now rewrite decide_True by exact Hpid.
  - intros q Hq. rewrite Hc. rewrite decide_False; [reflexivity|].
    intros Hin. apply Hq, elem_of_stage_pids, Hin.
Qed.

Lemma reap_children_owned os pids stats w sts :
  NoDup pids ->
  Forall2 (fun p s => children w !! p = Some s) pids sts ->
  exists w' evs,
    reap_children os pids stats w = (count_stats stats sts, w') /\
    next_pid w' = next_pid w /\
    (forall q, children w' !! q =
               if decide (q ∈ pids) then None else children w !! q) /\
    trace w' = trace w ++ evs /\ failed_waits evs = [].
Proof.
  intros Hnd Hown.
  destruct (reap_children_spec os pids stats w)
    as (statuses & w' & evs & E & Hn & Hc & Ht & _ & Hw & _ & Hex).
  destruct (Hex _ Hnd Hown) as [-> Hr].
  exists w', evs. repeat split; try assumption.
  apply all_reaped_none_failed. rewrite Hw, Hr. eapply Forall2_length, Hown.
Qed.

Lemma sequential_process_owned os pipeline fileName stats w :
  exists w' evs,
    sequential_process os pipeline fileName stats w
    = (count_stats stats (stage_statuses os pipeline fileName), w') /\
    trace w' = trace w ++ evs /\ failed_waits evs = [].
Proof.
  unfold sequential_process.
  destruct (exec_cmd_owned os pipeline fileName w)
    as (w1 & evs1 & -> & _ & Ht1 & Hw1 & Hown & _).
  destruct (reap_children_owned os _ stats w1 _
              (stage_pids_NoDup _ _) Hown)
    as (w2 & evs2 & -> & _ & _ & Ht2 & Hf2).
  exists w2, (evs1 ++ evs2). split; [reflexivity|].
  split; [rewrite Ht2, Ht1, app_assoc; reflexivity|].
  rewrite failed_waits_app, Hf2, (no_waits_none_failed _ Hw1). reflexivity.
Qed.

Lemma iterates_sequential_owned os pipeline count files i st w st' w' :
  iterates os pipeline count files i st w st' w' ->
  parallel (rs_config st) = false ->
  exists evs, trace w' = trace w ++ evs /\ failed_waits evs = [].
Proof.
  intros H. iterates_induction H; intros Hmode;
    cbn [rs_config] in *; try congruence.
  - exists []. now rewrite app_nil_r.
  - destruct (IH Hmode) as (evs & Ht & Hf).
    exists (validation os pipeline file ++ evs). cbn [emit trace] in Ht.
    rewrite Ht, app_assoc, failed_waits_app, Hf, validation_no_failed_wait. auto.
  - destruct (sequential_process_owned os pipeline file (rs_stats st)
                (emit (validation os pipeline file) w)) as (w2 & evs2 & E & Ht & Hf).
    rewrite E in Hseq. injection Hseq as _ <-.
    exists (validation os pipeline file ++ evs2). cbn [emit trace] in Ht.
    rewrite Ht, app_assoc, failed_waits_app, Hf, validation_no_failed_wait. auto.
  - destruct (sequential_process_owned os pipeline file (rs_stats st)
                (emit (validation os pipeline file) w)) as (w2 & evs2 & E & Ht2 & Hf2).
    rewrite E in Hseq. injection Hseq as _ <-.
    destruct (IH Hmode) as (evs & Ht & Hf).
    exists ((validation os pipeline file ++ evs2) ++ evs). cbn [emit trace] in Ht2.
    rewrite Ht, Ht2, !failed_waits_app, Hf, Hf2, validation_no_failed_wait.
    now rewrite !app_assoc.
  - destruct (IH Hmode) as (evs & Ht & Hf).
    exists (validation os pipeline file ++ evs). cbn [emit trace] in Ht.
    rewrite Ht, app_assoc, failed_waits_app, Hf, validation_no_failed_wait. auto.
Qed.

Lemma entry_owned_agree os pipeline (m m' : gmap Z Z) entries :
  (forall p, p ∈ pending entries -> m' !! p = m !! p) ->
  Forall (entry_owned os pipeline m) entries ->
  Forall (entry_owned os pipeline m') entries.
Proof.
  induction entries as [|[ps|] entries IH]; intros Hagree HF;
    inversion HF as [|? ? He HF']; subst; constructor; cbn [pending] in *.
  - destruct He as [file Hown]. exists file.
    eapply Forall2_impl_elem; [exact Hown|]. cbn. intros p s Hp Hps.
    rewrite Hagree; [exact Hps|]. apply elem_of_app. now left.
  - apply IH; [|exact HF']. intros p Hp. apply Hagree, elem_of_app. now right.
  - exact I.
  - apply IH; assumption.
Qed.

(** The first pass of a parallel run, whatever the interrupt flag does:
    every array kept holds children that wait to be reaped. *)
Lemma iterates_parallel_owned os pipeline count files i st w st' w' :
  iterates os pipeline count files i st w st' w' ->
  parallel (rs_config st) = true ->
  forall done,
    rs_pids st = done ++ replicate (length files) None ->
    length done = i ->
    exists entries evs,
      rs_pids st' = done ++ entries /\
      trace w' = trace w ++ evs /\ waits evs = [] /\
      next_pid w <= next_pid w' /\
      Forall (entry_owned os pipeline (children w')) entries /\
      NoDup (pending entries) /\
      (forall p, p ∈ pending entries -> next_pid w <= p < next_pid w') /\
      (forall q, q ∉ pending entries -> children w' !! q = children w !! q).
Proof.
  intros H. iterates_induction H; intros Hmode done Hpids Hdone;
    cbn [rs_config rs_stats rs_pids] in *; try congruence.
  - exists [], []. cbn [replicate length] in Hpids.
    split; [exact Hpids|]. split; [now rewrite app_nil_r|].
    split; [reflexivity|]. split; [lia|]. split; [constructor|].
    split; [constructor|]. split; [intros p Hp; inversion Hp | reflexivity].
  - destruct (IH Hmode (done ++ [None]))
      as (entries & evs & Hp & Ht & Hw & Hn & HF & Hnd & Hrange & Hrest').
    { rewrite Hpids. cbn [length replicate]. now rewrite <- app_assoc. }
    { rewrite length_app. cbn [length]. lia. }
    exists (None :: entries), (validation os pipeline file ++ evs).
    cbn [emit trace next_pid children pending] in *.
    split; [rewrite Hp, <- app_assoc; reflexivity|].
    split; [rewrite Ht, app_assoc; reflexivity|].
    split; [rewrite waits_app, Hw;
            now destruct (validation_quiet os pipeline file) as (_ & -> & _)|].
    split; [exact Hn|]. split; [constructor; [exact I | exact HF]|].
    split; [exact Hnd|]. split; [exact Hrange | exact Hrest'].
  - destruct (exec_cmd_owned os pipeline file (emit (validation os pipeline file) w))
      as (w2 & evs2 & E & Hn2 & Ht2 & Hw2 & Hown2 & Hrest2).
    unfold parallel_process in Hpp. rewrite E in Hpp. injection Hpp as <- <-.
    cbn [emit trace next_pid children] in *.
    destruct (IH Hmode (done ++ [Some (stage_pids (next_pid w) (numCmds pipeline))]))
      as (entries & evs & Hp & Ht & Hw & Hn & HF & Hnd & Hrange & Hrest').
    { rewrite Hpids, <- Hdone. cbn [length replicate]. apply insert_middle. }
    { rewrite length_app. cbn [length]. lia. }
    exists (Some (stage_pids (next_pid w) (numCmds pipeline)) :: entries),
           ((validation os pipeline file ++ evs2) ++ evs).
    cbn [pending].
    split; [rewrite Hp, <- app_assoc; reflexivity|].
    split; [rewrite Ht, Ht2, !app_assoc; reflexivity|].
    split.
    { rewrite !waits_app, Hw, Hw2.
      now destruct (validation_quiet os pipeline file) as (_ & -> & _). }
    split; [lia|]. split.
    { constructor; [|exact HF]. exists file.
      eapply Forall2_impl_elem; [exact Hown2|]. cbn. intros p s Hin Hps.
      rewrite Hrest'; [exact Hps|].
      intros Hin2%Hrange. apply elem_of_stage_pids in Hin. lia. }
    split.
    { apply NoDup_app. split; [apply stage_pids_NoDup|]. split; [|exact Hnd].
      intros p Hin%elem_of_stage_pids Hin2%Hrange. lia. }
    split.
    { intros p. rewrite elem_of_app, elem_of_stage_pids.
      intros [Hin|Hin%Hrange]; lia. }
    intros q Hq. rewrite Hrest', Hrest2; [reflexivity| |];
      intros Hin; apply Hq, elem_of_app; auto.
Qed.

Lemma reap_all_owned os pipeline entries :
  forall stats w,
    Forall (entry_owned os pipeline (children w)) entries ->
    NoDup (pending entries) ->
    exists evs,
      trace (snd (reap_all os entries stats w)) = trace w ++ evs /\
      failed_waits evs = [] /\
      (forall q, children (snd (reap_all os entries stats w)) !! q =
                 if decide (q ∈ pending entries) then None else children w !! q).
Proof.
  induction entries as [|[ps|] entries IH]; intros stats w HF Hnd;
    cbn [reap_all pending] in *.
  - exists []. cbn [snd]. split; [now rewrite app_nil_r|]. split; [reflexivity|].
    intros q. now rewrite decide_False by apply not_elem_of_nil.
  - inversion HF as [|? ? He HF']; subst. destruct He as [file Hown].
    apply NoDup_app in Hnd as (Hnd1 & Hdisj & Hnd2).
    destruct (reap_children_owned os ps stats w _ Hnd1 Hown)
      as (w1 & evs1 & -> & _ & Hc1 & Ht1 & Hf1).
    destruct (IH (count_stats stats (stage_statuses os pipeline file)) w1)
      as (evs & Ht & Hf & Hc); [|exact Hnd2|].
    { eapply entry_owned_agree; [|exact HF']. intros p Hp. rewrite Hc1.
      rewrite decide_False; [reflexivity|]. intros Hin. exact (Hdisj p Hin Hp). }
    exists (evs1 ++ evs). split; [rewrite Ht, Ht1, app_assoc; reflexivity|].
    split; [rewrite failed_waits_app, Hf, Hf1; reflexivity|].
    intros q. rewrite Hc, Hc1.
    destruct (decide (q ∈ pending entries)), (decide (q ∈ ps)),
      (decide (q ∈ ps ++ pending entries)) as [Hin|Hout]; try reflexivity;
      try (exfalso; apply Hout, elem_of_app; auto; fail).
    apply elem_of_app in Hin. tauto.
  - inversion HF; subst. now apply IH.
Qed.

Lemma run_pids_forks_length pipeline runs :
  length (run_pids pipeline runs) = length (run_forks pipeline runs).
Proof.
  unfold run_pids, run_forks. induction runs as [|r rs IH]; [reflexivity|].
  cbn [flat_map]. rewrite !length_app, IH. f_equal.
  unfold stage_pids, stage_forks. now rewrite !length_map.
Qed.

(** X3.  In a whole run, in either mode and whatever the interrupt flag
    does, no call of [waitpid] fails: every process waited for is an
    unreaped child, and as many statuses are collected as processes were
    spawned. *)
Theorem run_never_waits_in_vain (os : OS) (pipeline : CommandPipeline)
    (config : Settings) (stats : list Z) (fileList : list string) (w : World) :
  exists evs,
    trace (snd (run_pipeline os pipeline config stats fileList w)) = trace w ++ evs /\
    failed_waits evs = [] /\
    length (reaped evs) = length (forks evs).
Proof.
  assert (Hmain : exists evs,
    trace (snd (run_pipeline os pipeline config stats fileList w)) = trace w ++ evs /\
    failed_waits evs = []).
  { unfold run_pipeline.
    match goal with |- context [run_files ?o ?p ?c ?f ?i ?s ?w0] =>
      pose proof (run_files_iterates o p c f i s w0) as Hit;
      destruct (run_files o p c f i s w0) as [st' w'] end.
    cbn [fst snd] in Hit. destruct (parallel config) eqn:Hmode.
    - apply iterates_parallel_owned with (done := []) in Hit
        as (entries & evs1 & Hp & Ht1 & Hw1 & _ & HF & Hnd & _ & _); auto.
      cbn [app] in Hp. rewrite Hp.
      destruct (reap_all_owned os pipeline entries (rs_stats st') w' HF Hnd)
        as (evs2 & Ht2 & Hf2 & _).
      destruct (reap_all os entries (rs_stats st') w') as [stats' w''].
      cbn [snd] in *. exists (evs1 ++ evs2).
      split; [rewrite Ht2, Ht1, app_assoc; reflexivity|].
      rewrite failed_waits_app, Hf2, (no_waits_none_failed _ Hw1). reflexivity.
    - apply iterates_sequential_owned in Hit as (evs & Ht & Hf); auto.
      exists evs. cbn [snd]. auto. }
  destruct Hmain as (evs & Ht & Hf). exists evs. split; [exact Ht|].
  split; [exact Hf|].
  destruct (run_pipeline_trace os pipeline config stats fileList w)
    as (evs' & spawned & Ht' & Hfk & Hw & _).
  rewrite Ht in Ht'. apply app_inv_head in Ht'. subst evs'.
  pose proof (waits_count evs) as Hc. rewrite Hf in Hc. cbn [length] in Hc.
  rewrite Nat.add_0_r in Hc. rewrite <- Hc, Hfk, Hw.
  apply run_pids_forks_length.
Qed.

Lemma iterates_sequential_children os pipeline count files i st w st' w' :
  iterates os pipeline count files i st w st' w' ->
  parallel (rs_config st) = false ->
  pids_fresh w ->
  pids_fresh w' /\ children w' = children w.
Proof.
  intros Hit. iterates_induction Hit; intros Hmode Hfresh;
    cbn [rs_config] in *; try congruence.
  - auto.
  - apply IH; auto.
  - destruct (sequential_process_spec os pipeline file (rs_stats st)
                (emit (validation os pipeline file) w))
      as (sts & w2 & evs2 & E & _ & _ & _ & _ & _ & Hex).
    rewrite E in Hseq. injection Hseq as _ <-.
    destruct (Hex Hfresh) as (_ & _ & Hc & Hf). auto.
  - destruct (sequential_process_spec os pipeline file (rs_stats st)
                (emit (validation os pipeline file) w))
      as (sts & w2 & evs2 & E & _ & _ & _ & _ & _ & Hex).
    rewrite E in Hseq. injection Hseq as _ <-.
    destruct (Hex Hfresh) as (_ & _ & Hc & Hf).
    destruct (IH Hmode Hf) as [Hf' Hc']. split; [exact Hf'|].
    rewrite Hc', Hc. reflexivity.
  - apply IH; auto.
Qed.

(** X4.  A run leaves no child behind: started in a state whose unreaped
    children are all older than the next process identity, [run_pipeline]
    ends with exactly the children it started with. *)
Theorem run_leaves_no_child (os : OS) (pipeline : CommandPipeline)
    (config : Settings) (stats : list Z) (fileList : list string) (w : World) :
  pids_fresh w ->
  children (snd (run_pipeline os pipeline config stats fileList w)) = children w.
Proof.
  intros Hfresh. unfold run_pipeline.
  match goal with |- context [run_files ?o ?p ?c ?f ?i ?s ?w0] =>
    pose proof (run_files_iterates o p c f i s w0) as Hit;
    destruct (run_files o p c f i s w0) as [st' w'] end.
  cbn [fst snd] in Hit. destruct (parallel config) eqn:Hmode.
  - apply iterates_parallel_owned with (done := []) in Hit
      as (entries & evs1 & Hp & _ & _ & _ & HF & Hnd & Hrange & Hrest); auto.
    cbn [app] in Hp. rewrite Hp.
    destruct (reap_all_owned os pipeline entries (rs_stats st') w' HF Hnd)
      as (evs2 & _ & _ & Hc).
    destruct (reap_all os entries (rs_stats st') w') as [stats' w''].
    cbn [snd] in *. apply map_eq. intros q. rewrite Hc.
    destruct (decide (q ∈ pending entries)) as [Hin|Hout].
    + destruct (children w !! q) as [s|] eqn:E; [|reflexivity].
      apply Hfresh in E. apply Hrange in Hin. lia.
    + now apply Hrest.
  - cbn [snd]. eapply iterates_sequential_children; eauto.
Qed.

Lemma stage_forks_pids pipeline fileName first i n :
  map fork_pid (stage_forks pipeline fileName first i n) = stage_pids first n.
Proof. unfold stage_forks, stage_pids. rewrite map_map. reflexivity. Qed.

Lemma run_forks_pids pipeline runs :
  map fork_pid (run_forks pipeline runs) = run_pids pipeline runs.
Proof.
  unfold run_forks, run_pids. induction runs as [|r runs IH]; [reflexivity|].
  cbn [flat_map]. now rewrite map_app, IH, stage_forks_pids.
Qed.

(** X5.  In parallel mode the run is a spawning phase followed by a
    reaping phase: nothing is waited for before the last pipeline has
    been spawned, nothing is spawned afterwards, and the second phase
    waits for the processes of the first, each exactly once, in the
    order in which they were spawned, and finds every one of them. *)
Theorem parallel_run_spawns_before_it_reaps (os : OS) (pipeline : CommandPipeline)
    (config : Settings) (stats : list Z) (fileList : list string) (w : World) :
  parallel config = true ->
  exists spawning reaping,
    trace (snd (run_pipeline os pipeline config stats fileList w))
    = trace w ++ spawning ++ reaping /\
    waits spawning = [] /\ forks reaping = [] /\
    length (waits reaping) = length (forks spawning) /\
    waits reaping = map fork_pid (forks spawning) /\
    NoDup (waits reaping) /\
    failed_waits reaping = [].
Proof.
  intros Hmode. unfold run_pipeline.
  match goal with |- context [run_files ?o ?p ?c ?f ?i ?s ?w0] =>
    pose proof (run_files_iterates o p c f i s w0) as Hit;
    destruct (run_files o p c f i s w0) as [st' w'] end.
  cbn [fst snd] in Hit. rewrite Hmode in *.
  pose proof Hit as Hit2.
  apply iterates_parallel_trace with (done := []) in Hit
    as (evs1 & spawned & entries & Ht1 & Hfk & Hw1 & _ & Hp & Hpend & _); auto.
  apply iterates_parallel_owned with (done := []) in Hit2
    as (entries' & evs1' & Hp' & _ & _ & _ & HF & Hnd & _ & _); auto.
  cbn [app] in Hp, Hp'. rewrite Hp in Hp'. subst entries'. rewrite Hp.
  destruct (reap_all_trace os entries (rs_stats st') w') as (evs2 & Ht2 & Hf2 & Hw2).
  destruct (reap_all_owned os pipeline entries (rs_stats st') w' HF Hnd)
    as (evs2' & Ht2' & Hfail & _).
  rewrite Ht2 in Ht2'. apply app_inv_head in Ht2'. subst evs2'.
  destruct (reap_all os entries (rs_stats st') w') as [stats' w''].
  cbn [snd] in *. exists evs1, evs2.
  split; [rewrite Ht2, Ht1, app_assoc; reflexivity|].
  split; [exact Hw1|]. split; [exact Hf2|].
  rewrite Hw2, Hpend, Hfk.
  split; [apply run_pids_forks_length|].
  split; [now rewrite run_forks_pids|].
  split; [apply run_pids_from_NoDup | exact Hfail].
Qed.

(** X6.  Sequential mode with the interrupt flag already set at the
    first two polls of every iteration: every file is still validated
    (its redirection files are opened), but nothing is spawned, no
    counter changes and the settings, [sigInt] included, are as they
    were. *)
Theorem sequential_run_interrupted_from_the_start (os : OS)
    (pipeline : CommandPipeline) (config : Settings) (stats : list Z)
    (fileList : list string) (w : World) :
  parallel config = false ->
  (forall i, sigintReceived os i PollValidate = true /\
             sigintReceived os i PollStart = true) ->
  run_pipeline os pipeline config stats fileList w
  = (stats, config, emit (flat_map (validation os pipeline) fileList) w).
Proof.
  intros Hmode Hflag. unfold run_pipeline. rewrite Hmode.
  generalize (Z.of_nat (length fileList)). intros count.
  generalize 0%nat. revert w.
  induction fileList as [|file files IH]; intros w i.
  - cbn. unfold emit. rewrite app_nil_r. now destruct w.
  - rewrite run_files_passed_over by (cbn; auto; apply Hflag).
    specialize (IH (emit (validation os pipeline file) w) (S i)).
    destruct (run_files os pipeline count files (S i) _ _) as [st' w'].
    injection IH as -> -> ->. cbn [flat_map]. unfold emit. cbn.
    now rewrite app_assoc.
Qed.

(** ** The pipes of a pipeline *)

Lemma spawn_child_last os pipeline cmd cmdIdx fileName prevPipe w :
  spawn_child os pipeline cmd cmdIdx fileName prevPipe None w
  = (next_pid w, prevPipe, None,
     let w1 :=
       {| next_pid := next_pid w + 1; pipes_made := pipes_made w;
          children := <[next_pid w := child_status os fileName cmdIdx cmd]> (children w);
          trace := trace w ++ [EvFork (next_pid w) fileName cmdIdx cmd] |} in
     if 0 <? Z.of_nat cmdIdx then emit [EvClose prevPipe] w1 else w1).
Proof.
  unfold spawn_child. cbn zeta. cbv beta iota. rewrite child_main_status. reflexivity.
Qed.

Lemma spawn_child_piped os pipeline cmd cmdIdx fileName prevPipe nextPipe w :
  Z.of_nat cmdIdx < Z.of_nat (numCmds pipeline) - 1 ->
  spawn_child os pipeline cmd cmdIdx fileName prevPipe (Some nextPipe) w
  = let fds := sys_pipe os (pipes_made w) in
    (next_pid w, fst fds, Some fds,
     let w1 :=
       {| next_pid := next_pid w + 1; pipes_made := S (pipes_made w);
          children := <[next_pid w := child_status os fileName cmdIdx cmd]> (children w);
          trace := ((trace w ++ [EvPipe (fst fds) (snd fds)])
                    ++ [EvFork (next_pid w) fileName cmdIdx cmd])
                   ++ [EvClose (snd fds)] |} in
     if 0 <? Z.of_nat cmdIdx then emit [EvClose prevPipe] w1 else w1).
Proof.
  intros Hidx. unfold spawn_child.
  assert (H1 : (1 <? Z.of_nat (numCmds pipeline)) = true) by (apply Z.ltb_lt; lia).
  assert (H2 : (Z.of_nat cmdIdx <? Z.of_nat (numCmds pipeline) - 1) = true)
    by (apply Z.ltb_lt; lia).
  rewrite H1. cbn zeta. cbv beta iota. rewrite H2, child_main_status. reflexivity.
Qed.

Lemma closes_app a b : closes (a ++ b) = closes a ++ closes b.
Proof. apply omap_app. Qed.

Lemma pipes_app a b : pipes (a ++ b) = pipes a ++ pipes b.
Proof. apply omap_app. Qed.

Lemma exec_cmd_loop_pipes os pipeline fileName todo :
  forall i prevPipe nextPipe pids w,
    (i + todo = numCmds pipeline)%nat ->
    exists evs,
      trace (snd (exec_cmd_loop os pipeline fileName todo i prevPipe nextPipe pids w))
      = trace w ++ evs /\
      pipes evs = map (sys_pipe os) (seq (pipes_made w) (Nat.pred todo)) /\
      closes evs ≡ₚ
        (if (0 <? i)%nat && (0 <? todo)%nat then [prevPipe] else [])
        ++ pipe_ends (pipes evs).
Proof.
  induction todo as [|todo' IH]; intros i prevPipe nextPipe pids w Hn.
  - exists []. cbn. rewrite app_nil_r, andb_false_r. auto.
  - assert (Hi : (0 <? Z.of_nat i) = (0 <? i)%nat)
      by (destruct (Nat.ltb_spec 0 i), (Z.ltb_spec 0 (Z.of_nat i)); auto; lia).
    cbn [exec_cmd_loop]. destruct todo' as [|t].
    + rewrite (proj2 (Z.ltb_ge _ _)) by lia. rewrite spawn_child_last.
      cbn [exec_cmd_loop snd Nat.pred seq map]. cbv zeta.
      rewrite andb_true_r, Hi.
      destruct (0 <? i)%nat; cbn [emit trace].
      * exists [EvFork (next_pid w) fileName i (cmd_copy (nth_cmd pipeline i) fileName);
                EvClose prevPipe].
        rewrite <- app_assoc. auto.
      * exists [EvFork (next_pid w) fileName i (cmd_copy (nth_cmd pipeline i) fileName)].
        auto.
    + rewrite (proj2 (Z.ltb_lt _ _)) by lia.
      rewrite spawn_child_piped by lia. cbv zeta. cbn [default]. unfold id.
      rewrite andb_true_r, Hi.
      destruct (sys_pipe os (pipes_made w)) as [rd wr] eqn:Hfds. cbn [fst snd].
      set (fork := EvFork (next_pid w) fileName i
                     (cmd_copy (nth_cmd pipeline i) fileName)).
      destruct (0 <? i)%nat;
        match goal with
        | |- context [exec_cmd_loop _ _ _ _ _ _ _ ?p ?w1] =>
            destruct (IH (S i) rd (rd, wr) p w1) as (evs & Ht & Hp & Hc); [lia|]
        end;
        cbn [andb Nat.ltb Nat.leb Nat.pred emit trace pipes_made] in Hc, Hp, Ht;
        cbn [Nat.pred seq map]; rewrite Hfds.
      * exists ([EvPipe rd wr; fork; EvClose wr; EvClose prevPipe] ++ evs).
        split; [rewrite Ht, <- !app_assoc; reflexivity|].
        split; [rewrite !pipes_app, Hp; reflexivity|].
        rewrite !closes_app, !pipes_app, Hc, Hp. cbn.
        etrans; [apply perm_swap|]. constructor. apply perm_swap.
      * exists ([EvPipe rd wr; fork; EvClose wr] ++ evs).
        split; [rewrite Ht, <- !app_assoc; reflexivity|].
        split; [rewrite !pipes_app, Hp; reflexivity|].
        rewrite !closes_app, !pipes_app, Hc, Hp. cbn. apply perm_swap.
Qed.

(** X7.  [exec_cmd] creates one pipe less than there are stages, and
    the descriptors the parent closes are exactly the two ends of every
    pipe it created, each once; in particular the uninitialised
    [prevPipe] is never closed. *)
Theorem exec_cmd_closes_its_pipes (os : OS) (pipeline : CommandPipeline)
    (fileName : string) (pids : list Z) (w : World) :
  exists evs,
    trace (snd (exec_cmd os pipeline fileName pids w)) = trace w ++ evs /\
    pipes evs = map (sys_pipe os) (seq (pipes_made w) (Nat.pred (numCmds pipeline))) /\
    closes evs ≡ₚ pipe_ends (pipes evs).
Proof.
  unfold exec_cmd.
  destruct (exec_cmd_loop_pipes os pipeline fileName (numCmds pipeline) 0
              (indeterminate os) (indeterminate os, indeterminate os) pids w)
    as (evs & Ht & Hp & Hc); [reflexivity|].
  exists evs. auto.
Qed.

(** ** Uninitialised memory *)

Lemma exec_cmd_loop_world os x pipeline fileName todo :
  forall i prevPipe prevPipe' nextPipe nextPipe' pids pids' w,
    (i + todo = numCmds pipeline)%nat ->
    ((0 < i)%nat -> prevPipe' = prevPipe) ->
    snd (exec_cmd_loop (with_indeterminate os x) pipeline fileName todo i
           prevPipe' nextPipe' pids' w)
    = snd (exec_cmd_loop os pipeline fileName todo i prevPipe nextPipe pids w).
Proof.
  induction todo as [|todo' IH];
    intros i prevPipe prevPipe' nextPipe nextPipe' pids pids' w Hn Hprev.
  - reflexivity.
  - cbn [exec_cmd_loop]. destruct todo' as [|t].
    + rewrite (proj2 (Z.ltb_ge _ _)) by lia. rewrite !spawn_child_last.
      cbn [exec_cmd_loop snd]. cbv zeta.
      destruct (Z.ltb_spec 0 (Z.of_nat i)); [|reflexivity].
      rewrite Hprev by lia. reflexivity.
    + rewrite (proj2 (Z.ltb_lt _ _)) by lia.
      rewrite !spawn_child_piped by lia. cbv zeta. cbn [default]. unfold id.
      change (sys_pipe (with_indeterminate os x)) with (sys_pipe os).
      change (child_status (with_indeterminate os x)) with (child_status os).
      destruct (Z.ltb_spec 0 (Z.of_nat i)).
      * rewrite Hprev by lia. apply IH; [lia | reflexivity].
      * apply IH; [lia | reflexivity].
Qed.

Lemma exec_cmd_indeterminate os x pipeline fileName w :
  exec_cmd (with_indeterminate os x) pipeline fileName
    (malloc_pids (with_indeterminate os x) pipeline) w
  = exec_cmd os pipeline fileName (malloc_pids os pipeline) w.
Proof.
  destruct (exec_cmd_spec os pipeline fileName w) as (w1 & evs1 & E1 & _).
  destruct (exec_cmd_spec (with_indeterminate os x) pipeline fileName w)
    as (w2 & evs2 & E2 & _).
  rewrite E1, E2. f_equal.
  change w2 with (snd (stage_pids (next_pid w) (numCmds pipeline), w2)).
  change w1 with (snd (stage_pids (next_pid w) (numCmds pipeline), w1)).
  rewrite <- E1, <- E2. unfold exec_cmd.
  apply exec_cmd_loop_world; [reflexivity | lia].
Qed.

Lemma reap_loop_status pids :
  forall sts status status' w,
    NoDup pids ->
    Forall2 (fun p s => children w !! p = Some s) pids sts ->
    reap_loop pids status' w = reap_loop pids status w.
Proof.
  induction pids as [|pid pids IH]; intros sts status status' w Hnd Hown.
  - reflexivity.
  - inversion Hown as [|? s ? sts' Hs Hown']; subst.
    inversion Hnd as [|? ? Hnotin Hnd']; subst.
    cbn [reap_loop]. unfold waitpid. rewrite Hs. reflexivity.
Qed.

Lemma reap_children_indeterminate os x pids stats w sts :
  NoDup pids ->
  Forall2 (fun p s => children w !! p = Some s) pids sts ->
  reap_children (with_indeterminate os x) pids stats w
  = reap_children os pids stats w.
Proof.
  intros Hnd Hown. unfold reap_children.
  now rewrite (reap_loop_status pids sts (indeterminate os)
                 (indeterminate (with_indeterminate os x)) w Hnd Hown).
Qed.

Lemma sequential_process_indeterminate os x pipeline fileName stats w :
  sequential_process (with_indeterminate os x) pipeline fileName stats w
  = sequential_process os pipeline fileName stats w.
Proof.
  unfold sequential_process. rewrite exec_cmd_indeterminate.
  destruct (exec_cmd_owned os pipeline fileName w)
    as (w1 & evs1 & -> & _ & _ & _ & Hown & _).
  eapply reap_children_indeterminate; [apply stage_pids_NoDup | exact Hown].
Qed.

Lemma parallel_process_indeterminate os x pipeline fileName pids fileNo w :
  parallel_process (with_indeterminate os x) pipeline fileName pids fileNo w
  = parallel_process os pipeline fileName pids fileNo w.
Proof. unfold parallel_process. now rewrite exec_cmd_indeterminate. Qed.

Lemma run_files_indeterminate os x pipeline count files :
  forall i st w,
    run_files (with_indeterminate os x) pipeline count files i st w
    = run_files os pipeline count files i st w.
Proof.
  induction files as [|file files IH]; intros i st w; [reflexivity|].
  rewrite !run_files_cons. cbv zeta.
  rewrite sequential_process_indeterminate, parallel_process_indeterminate, !IH.
  reflexivity.
Qed.

Lemma reap_all_indeterminate os x pipeline entries :
  forall stats w,
    Forall (entry_owned os pipeline (children w)) entries ->
    NoDup (pending entries) ->
    reap_all (with_indeterminate os x) entries stats w
    = reap_all os entries stats w.
Proof.
  induction entries as [|[ps|] entries IH]; intros stats w HF Hnd;
    cbn [reap_all pending] in *.
  - reflexivity.
  - inversion HF as [|? ? He HF']; subst. destruct He as [file Hown].
    apply NoDup_app in Hnd as (Hnd1 & Hdisj & Hnd2).
    rewrite (reap_children_indeterminate os x ps stats w _ Hnd1 Hown).
    destruct (reap_children_owned os ps stats w _ Hnd1 Hown)
      as (w1 & evs1 & -> & _ & Hc1 & _ & _).
    apply IH; [|exact Hnd2].
    eapply entry_owned_agree; [|exact HF']. intros p Hp. rewrite Hc1.
    rewrite decide_False; [reflexivity|]. intros Hin. exact (Hdisj p Hin Hp).
  - inversion HF; subst. now apply IH.
Qed.

(** X8.  Nothing [run_pipeline] returns or does depends on the content
    of uninitialised memory (the fresh [pids] array, [prevPipe],
    [nextPipe] and [status]): each is written before it is read. *)
Theorem run_ignores_uninitialised_memory (os : OS) (x : Z)
    (pipeline : CommandPipeline) (config : Settings) (stats : list Z)
    (fileList : list string) (w : World) :
  run_pipeline (with_indeterminate os x) pipeline config stats fileList w
  = run_pipeline os pipeline config stats fileList w.
Proof.
  unfold run_pipeline. rewrite run_files_indeterminate.
  match goal with |- context [run_files ?o ?p ?c ?f ?i ?s ?w0] =>
    pose proof (run_files_iterates o p c f i s w0) as Hit;
    destruct (run_files o p c f i s w0) as [st' w'] end.
  cbn [fst snd] in Hit. destruct (parallel config) eqn:Hmode; [|reflexivity].
  apply iterates_parallel_owned with (done := []) in Hit
    as (entries & evs1 & Hp & _ & _ & _ & HF & Hnd & _ & _); auto.
  cbn [app] in Hp. rewrite Hp.
  now rewrite (reap_all_indeterminate os x pipeline entries (rs_stats st') w' HF Hnd).
Qed.

(** ** The command line *)

Lemma check_dd_prefix str : check_dd str = has_prefix str "--".
Proof.
  unfold check_dd, strlen. destruct str as [|a [|b s]]; cbn [String.length has_prefix].
  - reflexivity.
  - cbn. now rewrite andb_false_r.
  - rewrite (proj2 (Z.ltb_ge _ _)) by lia.
    now rewrite andb_true_r, (Ascii.eqb_sym a), (Ascii.eqb_sym b).
Qed.

Lemma process_arguments_cons arg rest config descend :
  process_arguments (arg :: rest) config descend =
  match String.eqb arg dirArg && is_null (dir config), rest with
  | true, value :: rest' =>
      if String.eqb value "" then usage_error
      else process_arguments rest' (set_dir config (Some value)) descend
  | _, _ =>
      if String.eqb arg parallelArg && negb (parallel config) then
        process_arguments rest (set_parallel config true) descend
      else if String.eqb arg statArg && negb (statistics config) then
        process_arguments rest (set_statistics config true) descend
      else if String.eqb arg allFilesArg && negb (allfiles config) then
        process_arguments rest (set_allfiles config true) descend
      else if String.eqb arg descendArg && negb descend then
        process_arguments rest config true
      else if is_last rest && negb (String.eqb arg dirArg)
              && (0 <? strlen arg) && negb (check_dd arg) then
        process_arguments rest (set_cmd config (Some arg)) descend
      else usage_error
  end.
Proof. reflexivity. Qed.

Lemma String_eqb_true a b : String.eqb a b = true -> a = b.
Proof. apply String.eqb_eq. Qed.

(** What the loop does with its first argument when it returns. *)
Lemma process_arguments_inv arg rest config descend config' :
  process_arguments (arg :: rest) config descend = Returned config' ->
  (exists rest' config1 descend1 s,
     iteration config descend (arg :: rest) rest' config1 descend1 s /\
     process_arguments rest' config1 descend1 = Returned config') \/
  (rest = [] /\ arg <> "" /\ has_prefix arg "--" = false /\
   config' = set_cmd config (Some arg)).
Proof.
  rewrite process_arguments_cons.
  assert (Helse :
    (if String.eqb arg parallelArg && negb (parallel config) then
        process_arguments rest (set_parallel config true) descend
      else if String.eqb arg statArg && negb (statistics config) then
        process_arguments rest (set_statistics config true) descend
      else if String.eqb arg allFilesArg && negb (allfiles config) then
        process_arguments rest (set_allfiles config true) descend
      else if String.eqb arg descendArg && negb descend then
        process_arguments rest config true
      else if is_last rest && negb (String.eqb arg dirArg)
              && (0 <? strlen arg) && negb (check_dd arg) then
        process_arguments rest (set_cmd config (Some arg)) descend
      else usage_error) = Returned config' ->
    (exists rest' config1 descend1 s,
       iteration config descend (arg :: rest) rest' config1 descend1 s /\
       process_arguments rest' config1 descend1 = Returned config') \/
    (rest = [] /\ arg <> "" /\ has_prefix arg "--" = false /\
     config' = set_cmd config (Some arg))).
  { destruct (String.eqb arg parallelArg && negb (parallel config)) eqn:E1.
    { apply andb_prop in E1 as [->%String_eqb_true E1%negb_true_iff].
      intros H. left. do 4 eexists. split; [apply iter_parallel, E1 | exact H]. }
    destruct (String.eqb arg statArg && negb (statistics config)) eqn:E2.
    { apply andb_prop in E2 as [->%String_eqb_true E2%negb_true_iff].
      intros H. left. do 4 eexists. split; [apply iter_statistics, E2 | exact H]. }
    destruct (String.eqb arg allFilesArg && negb (allfiles config)) eqn:E3.
    { apply andb_prop in E3 as [->%String_eqb_true E3%negb_true_iff].
      intros H. left. do 4 eexists. split; [apply iter_allfiles, E3 | exact H]. }
    destruct (String.eqb arg descendArg && negb descend) eqn:E4.
    { apply andb_prop in E4 as [->%String_eqb_true E4%negb_true_iff].
      intros H. left. do 4 eexists. split; [apply iter_descend, E4 | exact H]. }
    destruct (is_last rest && negb (String.eqb arg dirArg)
              && (0 <? strlen arg) && negb (check_dd arg)) eqn:E5;
      [|discriminate].
    apply andb_prop in E5 as [E5 Hdd%negb_true_iff].
    apply andb_prop in E5 as [E5 Hlen%Z.ltb_lt].
    apply andb_prop in E5 as [Hlast _].
    destruct rest; [|discriminate]. cbn [process_arguments].
    intros [= <-]. right. rewrite <- check_dd_prefix.
    repeat split; auto. intros ->. unfold strlen in Hlen. cbn in Hlen. lia. }
  destruct (String.eqb arg dirArg && is_null (dir config)) eqn:E0; [|exact Helse].
  destruct rest as [|value rest']; [exact Helse|].
  apply andb_prop in E0 as [->%String_eqb_true E0].
  destruct (String.eqb_spec value ""); [discriminate|].
  intros H. left. do 4 eexists. split; [apply iter_dir; eassumption | exact H].
Qed.

Lemma process_arguments_exits args :
  forall n config descend status diagnostic,
    (length args <= n)%nat ->
    process_arguments args config descend = Exited status diagnostic ->
    status = USAGE_ERROR /\ diagnostic = usageError.
Proof.
  intros n. revert args.
  induction n as [|n IH]; intros [|arg rest] config descend status diagnostic Hn;
    cbn [length] in Hn; try lia; try discriminate.
  assert (IH1 : forall c d, process_arguments rest c d = Exited status diagnostic ->
                            status = USAGE_ERROR /\ diagnostic = usageError).
  { intros c d. apply IH. lia. }
  rewrite process_arguments_cons.
  assert (Helse :
    (if String.eqb arg parallelArg && negb (parallel config) then
        process_arguments rest (set_parallel config true) descend
      else if String.eqb arg statArg && negb (statistics config) then
        process_arguments rest (set_statistics config true) descend
      else if String.eqb arg allFilesArg && negb (allfiles config) then
        process_arguments rest (set_allfiles config true) descend
      else if String.eqb arg descendArg && negb descend then
        process_arguments rest config true
      else if is_last rest && negb (String.eqb arg dirArg)
              && (0 <? strlen arg) && negb (check_dd arg) then
        process_arguments rest (set_cmd config (Some arg)) descend
      else usage_error) = Exited status diagnostic ->
    status = USAGE_ERROR /\ diagnostic = usageError).
  { repeat match goal with
           | |- (if ?b then _ else _) = _ -> _ => destruct b; [apply IH1|]
           end.
    intros [= <- <-]. auto. }
  destruct (String.eqb arg dirArg && is_null (dir config)); [|exact Helse].
  destruct rest as [|value rest']; [exact Helse|].
  destruct (String.eqb value ""); [intros [= <- <-]; auto|].
  apply IH. cbn [length] in Hn. lia.
Qed.

Lemma iteration_room config descend args rest config1 descend1 s :
  iteration config descend args rest config1 descend1 s ->
  (length args + room config1 descend1 <= length rest + room config descend)%nat.
Proof.
  intros H. destruct H as [value rest H _|rest H|rest H|rest H|rest H];
    unfold room; cbn [length set_dir set_parallel set_statistics set_allfiles
                       dir parallel statistics allfiles is_null];
    rewrite ?H; lia.
Qed.

Lemma iteration_shorter config descend args rest config1 descend1 s :
  iteration config descend args rest config1 descend1 s ->
  (length rest < length args)%nat.
Proof. intros H. destruct H; cbn [length]; lia. Qed.

Lemma process_arguments_length args :
  forall n config descend config',
    (length args <= n)%nat ->
    process_arguments args config descend = Returned config' ->
    (length args <= room config descend + 1)%nat.
Proof.
  intros n. revert args.
  induction n as [|n IH]; intros [|arg rest] config descend config' Hn H;
    cbn [length] in *; try lia.
  apply process_arguments_inv in H
    as [(rest' & config1 & descend1 & s & Hit & H)|(-> & _)]; [|cbn; lia].
  pose proof (iteration_room _ _ _ _ _ _ _ Hit) as Hroom.
  pose proof (iteration_shorter _ _ _ _ _ _ _ Hit) as Hshort.
  cbn [length] in *. apply IH in H; lia.
Qed.

Lemma process_command_line_loop (argv : list string) :
  process_command_line argv
  = process_arguments (drop 1 argv) blank_settings false.
Proof.
  unfold process_command_line.
  destruct (Z.ltb_spec MAX_CMD_LEN (Z.of_nat (length argv))) as [Hlong|]; [|reflexivity].
  destruct (process_arguments (drop 1 argv) blank_settings false)
    as [config|status diagnostic] eqn:E.
  - apply process_arguments_length with (n := length (drop 1 argv)) in E; [|lia].
    rewrite length_drop in E. unfold MAX_CMD_LEN in Hlong. cbn in E. lia.
  - apply process_arguments_exits with (n := length (drop 1 argv)) in E as [-> ->];
      [reflexivity | lia].
Qed.

(** X9.  The test [argc > MAX_CMD_LEN] of [process_command_line] never
    decides the outcome: the loop alone rejects every command line of
    more than eight words, with the same status and message. *)
Theorem length_check_decides_nothing (argv : list string) :
  process_command_line argv
  = process_arguments (drop 1 argv) blank_settings false.
Proof. apply process_command_line_loop. Qed.

Lemma elem_cons_bool (s s' : switch) (switches : list switch) :
  bool_decide (s ∈ s' :: switches)
  = bool_decide (s = s') || bool_decide (s ∈ switches).
Proof. rewrite <- bool_decide_or. apply bool_decide_ext, elem_of_cons. Qed.

Ltac decide_switches :=
  repeat match goal with
         | |- context [bool_decide (?a = ?b)] =>
             first [ rewrite (bool_decide_eq_true_2 (a = b)) by reflexivity
                   | rewrite (bool_decide_eq_false_2 (a = b)) by discriminate ]
         end.

Lemma merge_nil config : merge_settings config [] None = config.
Proof.
  unfold merge_settings. cbn [dir_of].
  rewrite !bool_decide_eq_false_2 by apply not_elem_of_nil.
  rewrite !orb_false_r. now destruct config.
Qed.

Lemma merge_command config c : merge_settings config [] (Some c) = set_cmd config (Some c).
Proof.
  unfold merge_settings, set_cmd. cbn [dir_of].
  rewrite !bool_decide_eq_false_2 by apply not_elem_of_nil.
  now rewrite !orb_false_r.
Qed.

Lemma dir_of_None switches :
  (forall value, Dir value ∉ switches) -> dir_of switches = None.
Proof.
  induction switches as [|s switches IH]; intros H; [reflexivity|].
  destruct s as [value| | | |]; cbn [dir_of];
    try (apply IH; intros v Hin; apply (H v); now right).
  exfalso. apply (H value). now left.
Qed.

Lemma iteration_words config descend args rest config1 descend1 s :
  iteration config descend args rest config1 descend1 s ->
  args = switch_words s ++ rest.
Proof. intros H. destruct H; reflexivity. Qed.

Lemma iteration_unset config descend args rest config1 descend1 s :
  iteration config descend args rest config1 descend1 s ->
  option_unset config descend s = true /\
  option_unset config1 descend1 s = false /\
  (forall value, s = Dir value -> value <> "") /\
  (forall s', option_name s' <> option_name s ->
              option_unset config1 descend1 s' = option_unset config descend s').
Proof.
  intros H. destruct H as [value rest H Hv|rest H|rest H|rest H|rest H];
    cbn [option_unset set_dir set_parallel set_statistics set_allfiles
         dir parallel statistics allfiles is_null negb];
    rewrite ?H; (split; [reflexivity|]); (split; [reflexivity|]);
    (split; [intros v [= <-]; try exact Hv|]);
    intros [v| | | |] Hne; cbn [option_unset set_dir set_parallel set_statistics
      set_allfiles dir parallel statistics allfiles is_null negb option_name] in *;
    congruence.
Qed.

Lemma option_name_unset config descend s s' :
  option_name s' = option_name s ->
  option_unset config descend s' = option_unset config descend s.
Proof. destruct s, s'; cbn; (discriminate || reflexivity). Qed.

Lemma iteration_merge config descend args rest config1 descend1 s switches command :
  iteration config descend args rest config1 descend1 s ->
  (forall s', s' ∈ switches -> option_unset config1 descend1 s' = true) ->
  merge_settings config1 switches command = merge_settings config (s :: switches) command.
Proof.
  intros H Hunset. unfold merge_settings. rewrite !(elem_cons_bool _ s).
  destruct H as [value rest H Hv|rest H|rest H|rest H|rest H];
    cbn [dir_of set_dir set_parallel set_statistics set_allfiles
         dir dirDefault parallel statistics allfiles cmd processFailed sigInt];
    decide_switches; rewrite ?orb_false_l, ?orb_true_l, ?orb_true_r; try reflexivity.
  rewrite dir_of_None; [reflexivity|].
  intros v Hin. apply Hunset in Hin. discriminate.
Qed.

Lemma process_arguments_accepted args :
  forall n config descend config',
    (length args <= n)%nat ->
    process_arguments args config descend = Returned config' ->
    exists switches command,
      args = flat_map switch_words switches ++ command_words command /\
      NoDup (map option_name switches) /\
      (forall s, s ∈ switches -> option_unset config descend s = true) /\
      (forall value, Dir value ∈ switches -> value <> "") /\
      (forall c, command = Some c -> c <> "" /\ has_prefix c "--" = false) /\
      config' = merge_settings config switches command.
Proof.
  intros n. revert args.
  induction n as [|n IH]; intros [|arg rest] config descend config' Hn H;
    cbn [length] in Hn; try lia.
  - injection H as <-. exists [], None. rewrite merge_nil.
    repeat split; try constructor; try (intros ? Hin; inversion Hin); discriminate.
  - injection H as <-. exists [], None. rewrite merge_nil.
    repeat split; try constructor; try (intros ? Hin; inversion Hin); discriminate.
  - apply process_arguments_inv in H
      as [(rest' & config1 & descend1 & s & Hit & H)|(-> & Hne & Hdd & ->)].
    + pose proof (iteration_shorter _ _ _ _ _ _ _ Hit) as Hshort.
      cbn [length] in Hshort.
      apply IH in H as (switches & command & Hargs & Hnd & Hunset & Hval & Hcmd & ->);
        [|lia].
      destruct (iteration_unset _ _ _ _ _ _ _ Hit) as (Hs & Hs1 & Hsv & Hother).
      exists (s :: switches), command.
      split.
      { rewrite (iteration_words _ _ _ _ _ _ _ Hit), Hargs.
        cbn [flat_map]. now rewrite <- app_assoc. }
      split.
      { cbn [map]. constructor; [|exact Hnd].
        intros (s' & Hname & Hin)%list_elem_of_fmap.
        apply Hunset in Hin.
        rewrite (option_name_unset config1 descend1 s s') in Hin by auto.
        congruence. }
      split.
      { intros s' [->|Hin]%elem_of_cons; [exact Hs|].
        pose proof (Hunset _ Hin) as Hu.
        destruct (decide (option_name s' = option_name s)) as [E|E].
        - rewrite (option_name_unset config1 descend1 s s') in Hu by auto. congruence.
        - now rewrite <- Hother. }
      split.
      { intros value [E|Hin]%elem_of_cons; [now apply Hsv | now apply Hval]. }
      split; [exact Hcmd|].
      eapply iteration_merge; eassumption.
    + exists [], (Some arg). rewrite merge_command.
      split; [reflexivity|]. split; [constructor|].
      split; [intros ? Hin; inversion Hin|].
      split; [intros ? Hin; inversion Hin|].
      split; [|reflexivity]. intros c [= <-]. auto.
Qed.

Lemma no_dashes_no_option c :
  has_prefix c "--" = false ->
  String.eqb c dirArg = false /\ String.eqb c parallelArg = false /\
  String.eqb c statArg = false /\ String.eqb c allFilesArg = false /\
  String.eqb c descendArg = false.
Proof.
  intros H. repeat split;
    match goal with |- String.eqb c ?x = false =>
      destruct (String.eqb_spec c x) as [->|]; [discriminate | reflexivity] end.
Qed.

Lemma iteration_step config descend args rest config1 descend1 s :
  iteration config descend args rest config1 descend1 s ->
  process_arguments args config descend = process_arguments rest config1 descend1.
Proof.
  intros H. destruct H as [value rest H Hv|rest H|rest H|rest H|rest H];
    rewrite process_arguments_cons.
  - rewrite String.eqb_refl, H. cbn [andb].
    destruct (String.eqb_spec value ""); [contradiction | reflexivity].
  - change (String.eqb parallelArg dirArg) with false.
    rewrite String.eqb_refl, H. reflexivity.
  - change (String.eqb statArg dirArg) with false.
    change (String.eqb statArg parallelArg) with false.
    rewrite String.eqb_refl, H. reflexivity.
  - change (String.eqb allFilesArg dirArg) with false.
    change (String.eqb allFilesArg parallelArg) with false.
    change (String.eqb allFilesArg statArg) with false.
    rewrite String.eqb_refl, H. reflexivity.
  - change (String.eqb descendArg dirArg) with false.
    change (String.eqb descendArg parallelArg) with false.
    change (String.eqb descendArg statArg) with false.
    change (String.eqb descendArg allFilesArg) with false.
    rewrite String.eqb_refl, H. reflexivity.
Qed.

Lemma iteration_of config descend s rest :
  option_unset config descend s = true ->
  (forall value, s = Dir value -> value <> "") ->
  exists config1 descend1,
    iteration config descend (switch_words s ++ rest) rest config1 descend1 s.
Proof.
  intros Hu Hv. destruct s as [value| | | |]; cbn [option_unset] in Hu;
    try apply negb_true_iff in Hu; do 2 eexists.
  - apply iter_dir; [exact Hu | now apply Hv].
  - now apply iter_parallel.
  - now apply iter_statistics.
  - now apply iter_allfiles.
  - now apply iter_descend.
Qed.

Lemma process_arguments_accepts switches :
  forall config descend command,
    NoDup (map option_name switches) ->
    (forall s, s ∈ switches -> option_unset config descend s = true) ->
    (forall value, Dir value ∈ switches -> value <> "") ->
    (forall c, command = Some c -> c <> "" /\ has_prefix c "--" = false) ->
    process_arguments (flat_map switch_words switches ++ command_words command)
      config descend
    = Returned (merge_settings config switches command).
Proof.
  induction switches as [|s switches IH];
    intros config descend command Hnd Hunset Hval Hcmd.
  - destruct command as [c|]; cbn [flat_map app command_words].
    + destruct (Hcmd c eq_refl) as [Hne Hdd].
      destruct (no_dashes_no_option c Hdd) as (E1 & E2 & E3 & E4 & E5).
      rewrite process_arguments_cons, E1, E2, E3, E4, E5, check_dd_prefix, Hdd.
      cbn [andb negb is_last].
      replace (0 <? strlen c) with true
        by (destruct c; [contradiction | reflexivity]).
      cbn [process_arguments]. now rewrite merge_command.
    + cbn [process_arguments]. now rewrite merge_nil.
  - cbn [flat_map map] in *. rewrite <- app_assoc.
    inversion Hnd as [|? ? Hnotin Hnd']; subst.
    destruct (iteration_of config descend s
                (flat_map switch_words switches ++ command_words command))
      as (config1 & descend1 & Hit).
    { apply Hunset. now left. }
    { intros value ->. apply Hval. now left. }
    destruct (iteration_unset _ _ _ _ _ _ _ Hit) as (_ & _ & _ & Hother).
    assert (Hunset1 : forall s', s' ∈ switches ->
                                 option_unset config1 descend1 s' = true).
    { intros s' Hin. rewrite Hother; [apply Hunset; now right|].
      intros E. apply Hnotin. rewrite <- E. apply list_elem_of_fmap. eauto. }
    rewrite (iteration_step _ _ _ _ _ _ _ Hit).
    rewrite IH; auto.
    + f_equal. eapply iteration_merge; eassumption.
    + intros value Hin. apply Hval. now right.
Qed.

Lemma accepted_command_line (argv : list string) (config : Settings) :
  process_command_line argv = Returned config ->
  exists switches command,
    drop 1 argv = flat_map switch_words switches ++ command_words command /\
    well_formed switches command /\
    config = settings_of switches command.
Proof.
  rewrite process_command_line_loop. intros H.
  apply process_arguments_accepted with (n := length (drop 1 argv)) in H
    as (switches & command & Hargs & Hnd & _ & Hval & Hcmd & ->); [|lia].
  exists switches, command. unfold well_formed. auto.
Qed.

(** X10.  Every command line [process_command_line] accepts consists,
    after the program name, of options of which none is given twice
    ([--dir] with a non-empty value that is taken as it stands), followed
    by at most one command that is not empty and does not start with two
    dashes; the settings returned are the ones these ask for. *)
Theorem process_command_line_accepted (argv : list string) (config : Settings) :
  process_command_line argv = Returned config ->
  exists switches command,
    drop 1 argv = flat_map switch_words switches ++ command_words command /\
    well_formed switches command /\
    config = settings_of switches command.
Proof. apply accepted_command_line. Qed.

(** X11.  Every command line of that form is accepted, in any order of
    the options, and yields the settings it asks for. *)
Theorem process_command_line_accepts (prog : string) (switches : list switch)
    (command : option string) :
  well_formed switches command ->
  process_command_line (prog :: flat_map switch_words switches ++ command_words command)
  = Returned (settings_of switches command).
Proof.
  intros (Hnd & Hval & Hcmd). rewrite process_command_line_loop. cbn [drop].
  apply process_arguments_accepts; auto.
  intros s _. now destruct s.
Qed.

(** ** The directory *)

Lemma ends_with_last_char c s :
  ends_with c s = match last_char s with
                  | Some a => Ascii.eqb c a
                  | None => false
                  end.
Proof.
  induction s as [|a s IH]; [reflexivity|].
  destruct s as [|b s]; [reflexivity|]. exact IH.
Qed.

Lemma last_char_append s c : last_char (s +:+ String c "") = Some c.
Proof.
  induction s as [|a s IH]; [reflexivity|].
  rewrite append_cons. cbn [last_char]. rewrite IH.
  destruct (s +:+ String c "") eqn:E; [|reflexivity].
  destruct s; discriminate.
Qed.

Lemma last_char_defined s : s <> "" -> exists c, last_char s = Some c.
Proof.
  induction s as [|a s IH]; [contradiction|]. intros _.
  destruct s as [|b s]; [cbn; eauto|].
  destruct IH as [c Hc]; [discriminate|]. exists c. exact Hc.
Qed.

Lemma check_dir_format_with_slash dir :
  dir <> "" -> check_dir_format dir = Some (with_slash dir).
Proof.
  intros [c Hc]%last_char_defined. unfold check_dir_format, with_slash, strdup.
  rewrite ends_with_last_char, Hc, (Ascii.eqb_sym c).
  now destruct (Ascii.eqb "/" c).
Qed.

Lemma with_slash_ends dir : ends_with "/" (with_slash dir) = true.
Proof.
  unfold with_slash. destruct (ends_with "/" dir) eqn:E; [exact E|].
  now rewrite ends_with_last_char, last_char_append.
Qed.

Lemma with_slash_not_empty dir : with_slash dir <> "".
Proof.
  intros E. pose proof (with_slash_ends dir) as H. rewrite E in H. discriminate.
Qed.

(** X12.  For a non-empty directory [check_dir_format] returns a name
    that ends with a slash, which is the directory itself or the
    directory with one slash appended; applied to its own result it
    changes nothing. *)
Theorem check_dir_format_adds_one_slash (dir : string) :
  dir <> "" ->
  exists fullDir,
    check_dir_format dir = Some fullDir /\
    ends_with "/" fullDir = true /\
    (fullDir = dir \/ (ends_with "/" dir = false /\ fullDir = dir +:+ "/")) /\
    check_dir_format fullDir = Some fullDir.
Proof.
  intros Hne. exists (with_slash dir).
  split; [now apply check_dir_format_with_slash|].
  split; [apply with_slash_ends|]. split.
  - unfold with_slash. destruct (ends_with "/" dir); auto.
  - rewrite check_dir_format_with_slash by apply with_slash_not_empty.
    f_equal. unfold with_slash at 1. now rewrite with_slash_ends.
Qed.

Lemma if_valid_file_listed fs config dir name :
  negb (if_valid_file fs name (with_slash dir) config =? 0) = listed fs config dir name.
Proof.
  unfold if_valid_file, listed, strdup.
  destruct (is_hidden name), (allfiles config); cbn [negb andb orb];
    try reflexivity;
    destruct (sys_stat fs (with_slash dir +:+ name)) as [[|]|]; reflexivity.
Qed.

Lemma store_files_spec fs config dir list :
  forall fileList,
    (count fileList + length list <= length (files fileList))%nat ->
    let kept := map (path_of config dir) (List.filter (listed fs config dir) list) in
    let fileList' := store_files fs config (with_slash dir) list fileList in
    count fileList' = (count fileList + length kept)%nat /\
    files fileList'
    = take (count fileList) (files fileList) ++ map Some kept
      ++ drop (count fileList + length kept) (files fileList).
Proof.
  induction list as [|name list IH]; intros fileList Hroom; cbn zeta.
  - cbn. rewrite Nat.add_0_r, take_drop. auto.
  - cbn [store_files List.filter length] in *. rewrite if_valid_file_listed.
    destruct (listed fs config dir name).
    + assert (E : (if dirDefault config
                   then store_files fs config (with_slash dir) list
                          (store fileList (strdup name))
                   else store_files fs config (with_slash dir) list
                          (store fileList (with_slash dir +:+ strdup name)))
                  = store_files fs config (with_slash dir) list
                      (store fileList (path_of config dir name))).
      { unfold path_of, strdup. now destruct (dirDefault config). }
      rewrite E. clear E.
      destruct (IH (store fileList (path_of config dir name))) as [Hc Hf].
      { unfold store. cbn [count files]. rewrite length_insert. lia. }
      cbn zeta in Hc, Hf. cbn [map length]. split.
      { rewrite Hc. cbn [store count]. lia. }
      rewrite Hf. cbn [store count files].
      rewrite (take_S_r _ _ (Some (path_of config dir name)))
        by (apply list_lookup_insert_eq; lia).
      rewrite take_insert_ge by lia. rewrite <- app_assoc. cbn [app].
      rewrite drop_insert_lt by lia.
      now rewrite Nat.add_succ_r.
    + apply IH. lia.
Qed.

(** X13.  [read_dir] keeps, in the order of [scandir], the entries that
    are regular files and are not hidden (hidden ones too with
    [--allfiles]), as bare names for the default directory and prefixed
    with the directory and a slash otherwise; every write into the array
    of [numFiles] elements lands inside it. *)
Theorem read_dir_lists (fs : FileSystem) (config : Settings) (dir0 : string)
    (names : list string) :
  dir config = Some dir0 ->
  dir0 <> "" ->
  sys_scandir fs dir0 = Some names ->
  exists fileList,
    read_dir fs config = Some fileList /\
    file_names fileList
    = map (path_of config dir0) (List.filter (listed fs config dir0) names) /\
    (count fileList <= length (files fileList))%nat /\
    length (files fileList) = length names.
Proof.
  intros Hdir Hne Hscan. unfold read_dir.
  rewrite Hdir, check_dir_format_with_slash, Hscan by exact Hne.
  eexists. split; [reflexivity|].
  destruct (store_files_spec fs config dir0 names
              {| files := replicate (length names) None; count := 0 |})
    as [Hc Hf].
  { cbn [count files]. rewrite length_replicate. lia. }
  cbn zeta in Hc, Hf. cbn [count files] in Hc, Hf. cbn [take app Nat.add] in Hf.
  set (kept := map (path_of config dir0) (List.filter (listed fs config dir0) names))
    in *.
  assert (Hk : (length kept <= length names)%nat).
  { subst kept. rewrite length_map.
    pose proof (List.filter_length (listed fs config dir0) names). lia. }
  unfold file_names. rewrite Hc, Hf. cbn [Nat.add].
  split.
  { rewrite take_0, app_nil_l, take_app_length' by now rewrite length_map.
    clear. induction kept as [|k kept IH]; [reflexivity|].
    cbn. now rewrite IH. }
  rewrite take_0, app_nil_l, length_app, length_map, length_drop, length_replicate.
  lia.
Qed.

(** ** From the command line to the directory *)

Lemma dir_of_Some switches value :
  dir_of switches = Some value -> Dir value ∈ switches.
Proof.
  induction switches as [|s switches IH]; [discriminate|].
  destruct s; cbn [dir_of]; try (intros H; right; now apply IH).
  intros [= ->]. now left.
Qed.

Lemma settings_of_dir switches command :
  dir (settings_of switches command) = dir_of switches.
Proof. unfold settings_of, merge_settings. cbn. now destruct (dir_of switches). Qed.

(** X14.  When [process_command_line] and [validate_args] both return,
    the directory in the settings is not empty, so that [read_dir] is
    defined unless [scandir] fails; it is either the default [.] or a
    directory that [opendir] could open; and the command is set. *)
Theorem front_end_hands_over_a_directory (fs : FileSystem)
    (parse_pipeline_string : string -> option CommandPipeline)
    (argv : list string) (config config' : Settings)
    (pipeline : option CommandPipeline) :
  process_command_line argv = Returned config ->
  validate_args fs parse_pipeline_string config = Returned (config', pipeline) ->
  exists dir0,
    dir config' = Some dir0 /\ dir0 <> "" /\
    (if dirDefault config' then dir0 = "." /\ dir config = None
     else dir config = Some dir0 /\ sys_opendir fs dir0 = true) /\
    (read_dir fs config' = None <-> sys_scandir fs dir0 = None) /\
    cmd config' <> None /\
    (cmd config <> None -> pipeline <> None).
Proof.
  intros Hargs Hval.
  apply accepted_command_line in Hargs
    as (switches & command & _ & (_ & Hvalue & _) & ->).
  unfold validate_args in Hval. rewrite settings_of_dir in Hval.
  assert (Hread : forall c d, dir c = Some d -> d <> "" ->
            (read_dir fs c = None <-> sys_scandir fs d = None)).
  { intros c d Hd Hne. unfold read_dir.
    rewrite Hd, check_dir_format_with_slash by exact Hne.
    destruct (sys_scandir fs d); split; auto; discriminate. }
  destruct (dir_of switches) as [d|] eqn:Hdir.
  - pose proof (Hvalue d (dir_of_Some _ _ Hdir)) as Hne.
    destruct (sys_opendir fs d) eqn:Hopen; [|discriminate].
    assert (Hd : dir (settings_of switches command) = Some d)
      by now rewrite settings_of_dir.
    destruct (cmd (settings_of switches command)) as [c|] eqn:Hcmd.
    + destruct (parse_pipeline_string c) as [p|]; [|discriminate].
      injection Hval as <- <-. exists d. rewrite Hcmd.
      repeat split; auto; try apply Hread; auto; discriminate.
    + injection Hval as <- <-. exists d.
      cbn [set_cmd dir dirDefault cmd]. rewrite Hd.
      repeat split; auto; try apply (Hread (set_cmd _ _)); auto; try discriminate;
        try contradiction.
  - destruct (cmd (set_dirDefault (set_dir (settings_of switches command) (Some ".")) true))
      as [c|] eqn:Hcmd.
    + destruct (parse_pipeline_string c) as [p|]; [|discriminate].
      injection Hval as <- <-. exists ".". rewrite Hcmd.
      cbn [set_dirDefault set_dir dir dirDefault].
      rewrite settings_of_dir.
      repeat split; auto; try apply (Hread (set_dirDefault _ _)); auto; discriminate.
    + injection Hval as <- <-. exists ".".
      cbn [set_cmd set_dirDefault set_dir dir dirDefault cmd] in *.
      rewrite settings_of_dir.
      repeat split; auto;
        try apply (Hread (set_cmd (set_dirDefault _ _) _)); auto; try discriminate;
        try contradiction.
Qed.

(** X15.  Without [--dir] on the command line [validate_args] does not
    consult the file system at all: the default directory is never
    opened, so that no directory error can be reported. *)
Theorem default_directory_is_never_checked (fs fs' : FileSystem)
    (parse_pipeline_string : string -> option CommandPipeline)
    (argv : list string) (config : Settings) :
  dirArg ∉ argv ->
  process_command_line argv = Returned config ->
  validate_args fs parse_pipeline_string config
  = validate_args fs' parse_pipeline_string config.
Proof.
  intros Hno Hargs.
  apply accepted_command_line in Hargs
    as (switches & command & Hwords & _ & ->).
  unfold validate_args. rewrite settings_of_dir.
  destruct (dir_of switches) as [d|] eqn:Hdir; [|reflexivity].
  exfalso. apply Hno. apply dir_of_Some in Hdir.
  assert (Hin : dirArg ∈ drop 1 argv).
  { rewrite Hwords. apply elem_of_app. left.
    apply list_elem_of_In, in_flat_map. exists (Dir d).
    split; [now apply list_elem_of_In | now left]. }
  destruct argv; [inversion Hin | right; exact Hin].
Qed.

(** ** Substitution and concatenation *)

Lemma ends_with_marker_cons rest :
  ends_with "{" (String "{" (String "}" rest)) = ends_with "{" rest.
Proof. destruct rest; reflexivity. Qed.

Lemma substitute_spec_append (a b fill : string) :
  ends_with "{" a && starts_with "}" b = false ->
  substitute_spec (a +:+ b) fill = substitute_spec a fill +:+ substitute_spec b fill.
Proof.
  revert a. apply (marker_ind (fun a =>
    ends_with "{" a && starts_with "}" b = false ->
    substitute_spec (a +:+ b) fill
    = substitute_spec a fill +:+ substitute_spec b fill)).
  - intros _. now rewrite !append_nil.
  - intros rest IH H. rewrite ends_with_marker_cons in H.
    rewrite !append_cons, !substitute_spec_marker, IH by exact H.
    now rewrite append_assoc.
  - intros c s Hc IH H. rewrite append_cons.
    rewrite ends_with_cons in H. rewrite has_prefix_starts in Hc.
    rewrite (substitute_spec_char c s) by now rewrite has_prefix_starts.
    rewrite substitute_spec_char.
    + rewrite append_cons. f_equal. apply IH.
      destruct (String.eqb_spec s ""); [now subst|exact H].
    + rewrite has_prefix_starts, starts_with_append.
      destruct (String.eqb_spec s ""); [exact H | exact Hc].
Qed.

(** X16.  Substitution distributes over concatenation unless a marker
    straddles the seam, that is unless the first part ends with an
    opening and the second starts with a closing brace. *)
Theorem handle_placeholders_distributes (a b fill : string) :
  ends_with "{" a && starts_with "}" b = false ->
  handle_placeholders (a +:+ b) fill
  = handle_placeholders a fill +:+ handle_placeholders b fill.
Proof.
  intros H. rewrite !handle_placeholders_substitute.
  now apply substitute_spec_append.
Qed.

Lemma handle_placeholders_distributes_witness :
  handle_placeholders ("in/" +:+ "{}.txt") "a"
  = handle_placeholders "in/" "a" +:+ handle_placeholders "{}.txt" "a".
Proof. apply handle_placeholders_distributes. reflexivity. Defined.

Lemma substitute_spec_marker_fill s : substitute_spec s "{}" = s.
Proof.
  revert s. apply marker_ind.
  - reflexivity.
  - intros rest IH. now rewrite substitute_spec_marker, IH.
  - intros c s Hc IH. now rewrite substitute_spec_char, IH.
Qed.

(** X17.  For a file that is itself named [{}], [cmd_copy] returns the
    command unchanged. *)
Theorem marker_for_marker (oldCmd : list string) :
  cmd_copy oldCmd "{}" = oldCmd.
Proof.
  unfold cmd_copy. induction oldCmd as [|arg oldCmd IH]; [reflexivity|].
  cbn [map]. now rewrite IH, handle_placeholders_substitute, substitute_spec_marker_fill.
Qed.

(** ** The child and uninitialised memory *)

(** X18.  Under the calls [exec_cmd] makes (a [nextPipe] for every stage
    but the last), what the child does depends neither on uninitialised
    memory nor, for the first stage, on [prevPipe]. *)
Theorem child_ignores_uninitialised_memory (os : OS) (x : Z)
    (pipeline : CommandPipeline) (cmd0 : list string) (cmdIdx : nat)
    (fileName : string) (prevPipe prevPipe' : Z) (nextPipe : option (Z * Z)) :
  (Z.of_nat cmdIdx < Z.of_nat (numCmds pipeline) - 1 -> nextPipe <> None) ->
  ((0 < cmdIdx)%nat -> prevPipe' = prevPipe) ->
  child_main (with_indeterminate os x) pipeline cmd0 cmdIdx fileName prevPipe' nextPipe
  = child_main os pipeline cmd0 cmdIdx fileName prevPipe nextPipe.
Proof.
  intros Hnext Hprev. unfold child_main. cbv zeta.
  change (sys_execvp (with_indeterminate os x)) with (sys_execvp os).
  change (redirect_from_file (with_indeterminate os x)) with (redirect_from_file os).
  change (redirect_to_file (with_indeterminate os x)) with (redirect_to_file os).
  assert (Hin :
    (if (0 <? Z.of_nat cmdIdx) && (1 <? Z.of_nat (numCmds pipeline))
     then redirect_from_pipe prevPipe' else [])
    = (if (0 <? Z.of_nat cmdIdx) && (1 <? Z.of_nat (numCmds pipeline))
       then redirect_from_pipe prevPipe else [])).
  { destruct (Z.ltb_spec 0 (Z.of_nat cmdIdx)); [|reflexivity].
    rewrite Hprev by lia. reflexivity. }
  assert (Hout :
    (if (Z.of_nat cmdIdx <? Z.of_nat (numCmds pipeline) - 1)
        && (1 <? Z.of_nat (numCmds pipeline))
     then redirect_to_pipe
            (default (indeterminate (with_indeterminate os x),
                      indeterminate (with_indeterminate os x)) nextPipe)
     else [])
    = (if (Z.of_nat cmdIdx <? Z.of_nat (numCmds pipeline) - 1)
          && (1 <? Z.of_nat (numCmds pipeline))
       then redirect_to_pipe (default (indeterminate os, indeterminate os) nextPipe)
       else [])).
  { destruct (Z.ltb_spec (Z.of_nat cmdIdx) (Z.of_nat (numCmds pipeline) - 1));
      [|reflexivity].
    destruct nextPipe as [fds|]; [reflexivity|]. now destruct Hnext. }
  rewrite Hin, Hout. reflexivity.
Qed.

Lemma child_ignores_uninitialised_memory_witness :
  child_main (with_indeterminate no_wc_os 7) echo_wc_pipeline ["echo"; "a"] 0 "a"
    7 (Some (3, 4))
  = child_main no_wc_os echo_wc_pipeline ["echo"; "a"] 0 "a" 0 (Some (3, 4)).
Proof.
  apply child_ignores_uninitialised_memory; [discriminate | lia].
Defined.

(** ** Instances *)

Lemma quiet_run_counts_every_file_witness :
  stat (run_stats no_wc_os echo_wc_pipeline (settings true) ["a"; "b"]
          (initial_world 100)) TOTAL_STATS
  = Z.of_nat (length ["a"; "b"]).
Proof. apply quiet_run_counts_every_file. intros i p. reflexivity. Defined.

Lemma run_leaves_no_child_witness :
  children (snd (run_pipeline no_wc_os echo_wc_pipeline (settings true)
                   [0; 0; 0; 0; 0] ["a"; "b"] (initial_world 100)))
  = children (initial_world 100).
Proof. apply run_leaves_no_child. apply pids_fresh_initial. Defined.

Lemma parallel_run_spawns_before_it_reaps_witness :
  exists spawning reaping,
    trace (snd (run_pipeline no_wc_os echo_wc_pipeline (settings true)
                  [0; 0; 0; 0; 0] ["a"; "b"] (initial_world 100)))
    = trace (initial_world 100) ++ spawning ++ reaping /\
    waits spawning = [] /\ forks reaping = [] /\
    length (waits reaping) = length (forks spawning) /\
    waits reaping = map fork_pid (forks spawning) /\
    NoDup (waits reaping) /\
    failed_waits reaping = [].
Proof. apply parallel_run_spawns_before_it_reaps. reflexivity. Defined.

Lemma sequential_run_interrupted_from_the_start_witness :
  run_pipeline interrupted_os cat_pipeline (settings false) [0; 0; 0; 0; 0]
    ["a"; "b"] (initial_world 100)
  = ([0; 0; 0; 0; 0], settings false,
     emit (flat_map (validation interrupted_os cat_pipeline) ["a"; "b"])
       (initial_world 100)).
Proof.
  apply sequential_run_interrupted_from_the_start; [reflexivity|].
  intros i. split; reflexivity.
Defined.

Lemma process_command_line_accepted_witness :
  exists switches command,
    drop 1 demo_argv = flat_map switch_words switches ++ command_words command /\
    well_formed switches command /\
    demo_settings = settings_of switches command.
Proof. apply process_command_line_accepted. reflexivity. Defined.

Lemma process_command_line_accepts_witness :
  process_command_line
    ("uqfindexec" :: flat_map switch_words [Dir "/tmp"; Parallel]
                     ++ command_words (Some "cat {}"))
  = Returned (settings_of [Dir "/tmp"; Parallel] (Some "cat {}")).
Proof.
  apply process_command_line_accepts. split; [|split].
  - cbn [map option_name]. apply NoDup_cons. split; [|apply NoDup_singleton].
    intros Hin. apply elem_of_cons in Hin as [Hin|Hin]; [discriminate | inversion Hin].
  - intros value Hin.
    apply elem_of_cons in Hin as [[= ->]|Hin]; [discriminate|].
    apply elem_of_cons in Hin as [Hin|Hin]; [discriminate | inversion Hin].
  - intros c [= <-]. split; [discriminate | reflexivity].
Defined.

Lemma check_dir_format_adds_one_slash_witness :
  exists fullDir,
    check_dir_format "/tmp" = Some fullDir /\
    ends_with "/" fullDir = true /\
    (fullDir = "/tmp" \/ (ends_with "/" "/tmp" = false /\ fullDir = "/tmp" +:+ "/")) /\
    check_dir_format fullDir = Some fullDir.
Proof. apply check_dir_format_adds_one_slash. discriminate. Defined.

Lemma read_dir_lists_witness :
  exists fileList,
    read_dir demo_fs demo_settings = Some fileList /\
    file_names fileList
    = map (path_of demo_settings "/tmp")
        (List.filter (listed demo_fs demo_settings "/tmp")
           ["."; ".."; ".profile"; "a.txt"; "sub"]) /\
    (count fileList <= length (files fileList))%nat /\
    length (files fileList) = length ["."; ".."; ".profile"; "a.txt"; "sub"].
Proof.
  apply read_dir_lists; [reflexivity | discriminate | reflexivity].
Defined.

Lemma front_end_hands_over_a_directory_witness :
  exists dir0,
    dir demo_settings = Some dir0 /\ dir0 <> "" /\
    (if dirDefault demo_settings then dir0 = "." /\ dir demo_settings = None
     else dir demo_settings = Some dir0 /\ sys_opendir demo_fs dir0 = true) /\
    (read_dir demo_fs demo_settings = None <-> sys_scandir demo_fs dir0 = None) /\
    cmd demo_settings <> None /\
    (cmd demo_settings <> None -> Some cat_pipeline <> None).
Proof.
  apply (front_end_hands_over_a_directory demo_fs demo_parse demo_argv);
    reflexivity.
Defined.

Lemma default_directory_is_never_checked_witness :
  validate_args demo_fs demo_parse (settings_of [Parallel] None)
  = validate_args
      {| sys_opendir := fun _ => false; sys_scandir := fun _ => None;
         sys_stat := fun _ => None |}
      demo_parse (settings_of [Parallel] None).
Proof.
  apply (default_directory_is_never_checked _ _ _ ["uqfindexec"; "--parallel"]).
  - intros Hin. apply elem_of_cons in Hin as [Hin|Hin]; [discriminate|].
    apply elem_of_cons in Hin as [Hin|Hin]; [discriminate | inversion Hin].
  - reflexivity.
Defined.

(** ** Children alive at the same time *)

Lemma alive_after_app a t1 t2 :
  alive_after a (t1 ++ t2) = alive_after (alive_after a t1) t2.
Proof. apply fold_left_app. Qed.

Lemma peak_app t1 : forall a t2,
  peak a (t1 ++ t2) = Nat.max (peak a t1) (peak (alive_after a t1) t2).
Proof.
  induction t1 as [|e t1 IH]; intros a t2; cbn [app peak alive_after fold_left].
  - destruct t2; cbn [peak]; lia.
  - rewrite IH. unfold alive_after. lia.
Qed.

Lemma peak_start tr : forall a, (a <= peak a tr)%nat.
Proof. destruct tr; intros a; cbn [peak]; lia. Qed.

Lemma alive_after_cons a e tr :
  alive_after a (e :: tr) = alive_after (alive_step a e) tr.
Proof. reflexivity. Qed.

Lemma forks_cons e tr :
  forks (e :: tr)
  = match fork_of e with Some x => x :: forks tr | None => forks tr end.
Proof. reflexivity. Qed.

Lemma reaped_cons e tr :
  reaped (e :: tr)
  = match reaped_of e with Some x => x :: reaped tr | None => reaped tr end.
Proof. reflexivity. Qed.

(** Events that spawn and do not reap. *)
Lemma spawning_alive tr :
  forall a,
    reaped tr = [] ->
    alive_after a tr = (a + length (forks tr))%nat /\
    peak a tr = (a + length (forks tr))%nat.
Proof.
  induction tr as [|e tr IH]; intros a Hr.
  - cbn. lia.
  - rewrite reaped_cons in Hr. rewrite forks_cons, alive_after_cons.
    destruct e as [| | | | |pid f i argv| | |pid [status|]];
      cbn [reaped_of fork_of alive_step peak length] in *; try discriminate;
      match goal with |- context [alive_after ?x tr] =>
        destruct (IH x Hr) as [H1 H2] end;
      rewrite H1, H2; cbn [length]; lia.
Qed.

(** Events that reap and do not spawn. *)
Lemma reaping_alive tr :
  forall a,
    forks tr = [] ->
    alive_after a tr = (a - length (reaped tr))%nat /\ peak a tr = a.
Proof.
  induction tr as [|e tr IH]; intros a Hf.
  - cbn. lia.
  - rewrite forks_cons in Hf. rewrite reaped_cons, alive_after_cons.
    destruct e as [| | | | |pid f i argv| | |pid [status|]];
      cbn [reaped_of fork_of alive_step peak length] in *; try discriminate;
      match goal with |- context [alive_after ?x tr] =>
        destruct (IH x Hf) as [H1 H2] end;
      rewrite H1, H2; cbn [length]; lia.
Qed.

Lemma validation_alive os pipeline file a :
  alive_after a (validation os pipeline file) = a /\
  peak a (validation os pipeline file) = a.
Proof.
  destruct (validation_quiet os pipeline file) as (Hf & _ & Hr).
  destruct (spawning_alive _ a Hr) as [H1 H2]. rewrite Hf in *. cbn in *. lia.
Qed.

(** One file in sequential mode: spawn, then reap. *)
Lemma sequential_process_phases os pipeline fileName stats w :
  exists w' spawning reaping,
    snd (sequential_process os pipeline fileName stats w) = w' /\
    trace w' = trace w ++ spawning ++ reaping /\
    reaped spawning = [] /\
    length (forks spawning) = numCmds pipeline /\
    forks reaping = [] /\
    length (reaped reaping) = numCmds pipeline.
Proof.
  unfold sequential_process.
  destruct (exec_cmd_spec os pipeline fileName w)
    as (w1 & evs1 & E1 & _ & _ & Ht1 & Hf1 & _ & Hr1).
  destruct (exec_cmd_owned os pipeline fileName w)
    as (w1' & evs1' & E1' & _ & _ & _ & Hown & _).
  rewrite E1 in E1'. injection E1' as <-. rewrite E1.
  destruct (reap_children_spec os (stage_pids (next_pid w) (numCmds pipeline)) stats w1)
    as (statuses & w2 & evs2 & E2 & _ & _ & Ht2 & Hf2 & _ & _ & Hex).
  destruct (Hex _ (stage_pids_NoDup _ _) Hown) as [_ Hr2].
  rewrite E2. exists w2, evs1, evs2. cbn [snd].
  split; [reflexivity|]. split; [rewrite Ht2, Ht1, app_assoc; reflexivity|].
  split; [exact Hr1|]. split.
  { rewrite Hf1. unfold stage_forks. now rewrite length_map, length_seq. }
  split; [exact Hf2|].
  rewrite Hr2. unfold stage_statuses. now rewrite length_map, length_seq.
Qed.

Lemma sequential_process_alive os pipeline fileName stats w :
  exists evs,
    trace (snd (sequential_process os pipeline fileName stats w)) = trace w ++ evs /\
    forall a, alive_after a evs = a /\ peak a evs = (a + numCmds pipeline)%nat.
Proof.
  destruct (sequential_process_phases os pipeline fileName stats w)
    as (w' & evs1 & evs2 & -> & Ht & Hr1 & Hf1 & Hf2 & Hr2).
  exists (evs1 ++ evs2). split; [exact Ht|]. intros a.
  destruct (spawning_alive evs1 a Hr1) as [H1 H2].
  destruct (reaping_alive evs2 (alive_after a evs1) Hf2) as [H3 H4].
  rewrite alive_after_app, peak_app, H3, H4, H2, H1, Hf1, Hr2. lia.
Qed.

Lemma iterates_sequential_alive os pipeline count files i st w st' w' :
  iterates os pipeline count files i st w st' w' ->
  parallel (rs_config st) = false ->
  exists evs,
    trace w' = trace w ++ evs /\
    forall a, alive_after a evs = a /\
              (a <= peak a evs <= a + numCmds pipeline)%nat.
Proof.
  intros H. iterates_induction H; intros Hmode;
    cbn [rs_config] in *; try congruence.
  - exists []. split; [now rewrite app_nil_r|]. intros a. cbn. lia.
  - destruct (IH Hmode) as (evs & Ht & Ha).
    exists (validation os pipeline file ++ evs). cbn [emit trace] in Ht.
    split; [rewrite Ht, app_assoc; reflexivity|]. intros a.
    destruct (validation_alive os pipeline file a) as [H1 H2].
    rewrite alive_after_app, peak_app, H1, H2.
    destruct (Ha a) as [H3 H4]. rewrite H3. split; [reflexivity | lia].
  - destruct (sequential_process_alive os pipeline file (rs_stats st)
                (emit (validation os pipeline file) w)) as (evs2 & Ht2 & Ha2).
    rewrite Hseq in Ht2. cbn [snd emit trace] in Ht2.
    exists (validation os pipeline file ++ evs2).
    split; [rewrite Ht2, app_assoc; reflexivity|]. intros a.
    destruct (validation_alive os pipeline file a) as [H1 H2].
    rewrite alive_after_app, peak_app, H1, H2.
    destruct (Ha2 a) as [H3 H4]. rewrite H3, H4. split; [reflexivity | lia].
  - destruct (sequential_process_alive os pipeline file (rs_stats st)
                (emit (validation os pipeline file) w)) as (evs2 & Ht2 & Ha2).
    rewrite Hseq in Ht2. cbn [snd emit trace] in Ht2.
    destruct (IH Hmode) as (evs & Ht & Ha).
    exists ((validation os pipeline file ++ evs2) ++ evs).
    split; [rewrite Ht, Ht2, !app_assoc; reflexivity|]. intros a.
    destruct (validation_alive os pipeline file a) as [H1 H2].
    rewrite !peak_app, !alive_after_app, H1, H2.
    destruct (Ha2 a) as [H3 H4]. rewrite !H3, H4.
    destruct (Ha a) as [H5 H6]. rewrite H5. split; [reflexivity | lia].
  - destruct (IH Hmode) as (evs & Ht & Ha).
    exists (validation os pipeline file ++ evs). cbn [emit trace] in Ht.
    split; [rewrite Ht, app_assoc; reflexivity|]. intros a.
    destruct (validation_alive os pipeline file a) as [H1 H2].
    rewrite alive_after_app, peak_app, H1, H2.
    destruct (Ha a) as [H3 H4]. rewrite H3. split; [reflexivity | lia].
Qed.

(** X19.  In sequential mode the children of at most one pipeline are
    alive at any moment of a run: never more than [numCmds] processes
    have been spawned and not yet reaped, and none is left at the
    end. *)
Theorem sequential_run_one_pipeline_at_a_time (os : OS)
    (pipeline : CommandPipeline) (config : Settings) (stats : list Z)
    (fileList : list string) (w : World) :
  parallel config = false ->
  exists evs,
    trace (snd (run_pipeline os pipeline config stats fileList w)) = trace w ++ evs /\
    (peak 0 evs <= numCmds pipeline)%nat /\
    alive_after 0 evs = 0%nat.
Proof.
  intros Hmode. unfold run_pipeline.
  match goal with |- context [run_files ?o ?p ?c ?f ?i ?s ?w0] =>
    pose proof (run_files_iterates o p c f i s w0) as Hit;
    destruct (run_files o p c f i s w0) as [st' w'] end.
  cbn [fst snd] in Hit. rewrite Hmode in *. cbn [snd].
  apply iterates_sequential_alive in Hit as (evs & Ht & Ha); [|exact Hmode].
  exists evs. split; [exact Ht|]. specialize (Ha 0%nat). lia.
Qed.

(** X20.  In parallel mode every process of the run is alive at the same
    moment: the largest number of children spawned and not yet reaped is
    the number of processes spawned in the whole run; none is left at
    the end. *)
Theorem parallel_run_all_pipelines_at_once (os : OS)
    (pipeline : CommandPipeline) (config : Settings) (stats : list Z)
    (fileList : list string) (w : World) :
  parallel config = true ->
  exists evs,
    trace (snd (run_pipeline os pipeline config stats fileList w)) = trace w ++ evs /\
    peak 0 evs = length (forks evs) /\
    alive_after 0 evs = 0%nat.
Proof.
  intros Hmode. unfold run_pipeline.
  match goal with |- context [run_files ?o ?p ?c ?f ?i ?s ?w0] =>
    pose proof (run_files_iterates o p c f i s w0) as Hit;
    destruct (run_files o p c f i s w0) as [st' w'] end.
  cbn [fst snd] in Hit. rewrite Hmode in *.
  pose proof Hit as Hit2.
  apply iterates_parallel_trace with (done := []) in Hit
    as (evs1 & spawned & entries & Ht1 & Hfk & Hw1 & _ & Hp & Hpend & _); auto.
  apply iterates_parallel_owned with (done := []) in Hit2
    as (entries' & evs1' & Hp' & Ht1' & _ & _ & HF & Hnd & _ & _); auto.
  cbn [app] in Hp, Hp'. rewrite Hp in Hp'. subst entries'.
  rewrite Hp.
  destruct (reap_all_trace os entries (rs_stats st') w') as (evs2 & Ht2 & Hf2 & Hw2).
  destruct (reap_all_owned os pipeline entries (rs_stats st') w' HF Hnd)
    as (evs2' & Ht2' & Hfail & _).
  rewrite Ht2 in Ht2'. apply app_inv_head in Ht2'. subst evs2'.
  destruct (reap_all os entries (rs_stats st') w') as [stats' w''].
  cbn [snd] in *. exists (evs1 ++ evs2).
  split; [rewrite Ht2, Ht1, app_assoc; reflexivity|].
  assert (Hr1 : reaped evs1 = []).
  { pose proof (waits_count evs1) as Hc. rewrite Hw1 in Hc.
    destruct (reaped evs1); [reflexivity | cbn in Hc; lia]. }
  assert (Hr2 : length (reaped evs2) = length (forks evs1)).
  { pose proof (waits_count evs2) as Hc. rewrite Hfail in Hc. cbn [length] in Hc.
    rewrite Nat.add_0_r in Hc. rewrite <- Hc, Hw2, Hpend, Hfk.
    apply run_pids_forks_length. }
  destruct (spawning_alive evs1 0%nat Hr1) as [H1 H2].
  destruct (reaping_alive evs2 (alive_after 0 evs1) Hf2) as [H3 H4].
  rewrite alive_after_app, peak_app, forks_app, length_app, H3, H4, H2, H1, Hf2, Hr2.
  cbn [length]. lia.
Qed.

Lemma sequential_run_one_pipeline_at_a_time_witness :
  exists evs,
    trace (snd (run_pipeline no_wc_os echo_wc_pipeline (settings false)
                  [0; 0; 0; 0; 0] ["a"; "b"] (initial_world 100)))
    = trace (initial_world 100) ++ evs /\
    (peak 0 evs <= numCmds echo_wc_pipeline)%nat /\
    alive_after 0 evs = 0%nat.
Proof. apply sequential_run_one_pipeline_at_a_time. reflexivity. Defined.

Lemma parallel_run_all_pipelines_at_once_witness :
  exists evs,
    trace (snd (run_pipeline no_wc_os echo_wc_pipeline (settings true)
                  [0; 0; 0; 0; 0] ["a"; "b"] (initial_world 100)))
    = trace (initial_world 100) ++ evs /\
    peak 0 evs = length (forks evs) /\
    alive_after 0 evs = 0%nat.
Proof. apply parallel_run_all_pipelines_at_once. reflexivity. Defined.

(** ** Exit statuses of the program *)

Lemma main_exit_status os pipeline config fileList w :
  let status := fst (fst (main os pipeline config fileList w)) in
  status = 0 \/ status = PROCESS_ERROR \/ status = SIGINT_REC.
Proof.
  unfold main. destruct (run_pipeline _ _ _ _ _ _) as [[stats config'] w'].
  cbn [fst]. unfold exit_status.
  destruct (negb _); [auto|]. destruct (sigInt config'); auto.
Qed.

(** X21.  Whenever the program ends, its exit status is one of 18, 6, 9,
    0, 16 and 17.  It is 18 exactly for a command line that is not
    accepted, 6 when the directory given cannot be opened (whatever the
    command is), and 9 when the directory is fine and the command given
    does not parse; in these three cases the only thing done is to write
    the diagnostic. *)
Theorem uqfindexec_exit_statuses (fs : FileSystem)
    (parse_pipeline_string : string -> option CommandPipeline) (os : OS)
    (argv : list string) (w w' : World) (status : Z) :
  uqfindexec fs parse_pipeline_string os argv w = Some (status, w') ->
  (status = USAGE_ERROR /\
   (forall config, process_command_line argv <> Returned config) /\
   w' = emit [EvStderr usageError] w) \/
  (exists config,
     process_command_line argv = Returned config /\
     ((status = DIR_ERROR /\
       exists d, dir config = Some d /\ sys_opendir fs d = false /\
                 w' = emit [EvStderr (dirError d)] w) \/
      (status = CMD_ERROR /\
       (forall d, dir config = Some d -> sys_opendir fs d = true) /\
       (exists c, cmd config = Some c /\ parse_pipeline_string c = None) /\
       w' = emit [EvStderr cmdError] w) \/
      ((status = 0 \/ status = PROCESS_ERROR \/ status = SIGINT_REC) /\
       (forall d, dir config = Some d -> sys_opendir fs d = true) /\
       (forall c, cmd config = Some c -> parse_pipeline_string c <> None)))).
Proof.
  unfold uqfindexec.
  destruct (process_command_line argv) as [config|st diagnostic] eqn:Hargs.
  - intros H. right. exists config. split; [reflexivity|].
    unfold validate_args in H.
    destruct (dir config) as [d|] eqn:Hdir.
    + destruct (sys_opendir fs d) eqn:Hopen.
      * assert (Hd : forall d', Some d = Some d' -> sys_opendir fs d' = true)
          by (intros d' [= <-]; exact Hopen).
        destruct (cmd config) as [c|] eqn:Hcmd.
        -- destruct (parse_pipeline_string c) as [p|] eqn:Hparse.
           ++ destruct (read_dir fs config) as [fl|]; [|discriminate].
              pose proof (main_exit_status os p config (file_names fl) w) as Hst.
              destruct (main os p config (file_names fl) w) as [[st stats] w2].
              injection H as <- <-. right. right.
              split; [exact Hst|]. split; [exact Hd|].
              intros c' [= <-]. congruence.
           ++ injection H as <- <-. right. left.
              split; [reflexivity|]. split; [exact Hd|]. eauto.
        -- destruct (parse_pipeline_string "echo {}") as [p|]; [|discriminate].
           destruct (read_dir fs _) as [fl|]; [|discriminate].
           match type of H with context [main ?o ?p ?c ?f ?w0] =>
             pose proof (main_exit_status o p c f w0) as Hst;
             destruct (main o p c f w0) as [[st stats] w2] end.
           injection H as <- <-. right. right.
           split; [exact Hst|]. split; [exact Hd|]. discriminate.
      * injection H as <- <-. left. split; [reflexivity|]. eauto.
    + cbn [set_dirDefault set_dir cmd] in H.
      destruct (cmd config) as [c|] eqn:Hcmd.
      * destruct (parse_pipeline_string c) as [p|] eqn:Hparse.
        -- destruct (read_dir fs _) as [fl|]; [|discriminate].
           match type of H with context [main ?o ?p ?c ?f ?w0] =>
             pose proof (main_exit_status o p c f w0) as Hst;
             destruct (main o p c f w0) as [[st stats] w2] end.
           injection H as <- <-. right. right.
           split; [exact Hst|]. split; [discriminate|].
           intros c' [= <-]. congruence.
        -- injection H as <- <-. right. left.
           split; [reflexivity|]. split; [discriminate|]. eauto.
      * destruct (parse_pipeline_string "echo {}") as [p|]; [|discriminate].
        destruct (read_dir fs _) as [fl|]; [|discriminate].
        match type of H with context [main ?o ?p ?c ?f ?w0] =>
          pose proof (main_exit_status o p c f w0) as Hst;
          destruct (main o p c f w0) as [[st stats] w2] end.
        injection H as <- <-. right. right.
        split; [exact Hst|]. split; discriminate.
  - intros [= <- <-]. left.
    rewrite process_command_line_loop in Hargs.
    apply process_arguments_exits with (n := length (drop 1 argv)) in Hargs
      as [-> ->]; [|lia].
    split; [reflexivity|]. split; [discriminate | reflexivity].
Qed.

Lemma uqfindexec_exit_statuses_witness :
  (DIR_ERROR = USAGE_ERROR /\
   (forall config,
      process_command_line ["uqfindexec"; "--dir"; "/nowhere"] <> Returned config) /\
   emit [EvStderr (dirError "/nowhere")] (initial_world 100)
   = emit [EvStderr usageError] (initial_world 100)) \/
  (exists config,
     process_command_line ["uqfindexec"; "--dir"; "/nowhere"] = Returned config /\
     ((DIR_ERROR = DIR_ERROR /\
       exists d, dir config = Some d /\ sys_opendir demo_fs d = false /\
                 emit [EvStderr (dirError "/nowhere")] (initial_world 100)
                 = emit [EvStderr (dirError d)] (initial_world 100)) \/
      (DIR_ERROR = CMD_ERROR /\
       (forall d, dir config = Some d -> sys_opendir demo_fs d = true) /\
       (exists c, cmd config = Some c /\ demo_parse c = None) /\
       emit [EvStderr (dirError "/nowhere")] (initial_world 100)
       = emit [EvStderr cmdError] (initial_world 100)) \/
      ((DIR_ERROR = 0 \/ DIR_ERROR = PROCESS_ERROR \/ DIR_ERROR = SIGINT_REC) /\
       (forall d, dir config = Some d -> sys_opendir demo_fs d = true) /\
       (forall c, cmd config = Some c -> demo_parse c <> None)))).
Proof.
  apply (uqfindexec_exit_statuses demo_fs demo_parse no_wc_os
           ["uqfindexec"; "--dir"; "/nowhere"] (initial_world 100)).
  reflexivity.
Defined.

(** ** Reaping, wait by wait *)

Lemma reaps_app a b : reaps (a ++ b) = reaps a ++ reaps b.
Proof. apply omap_app. Qed.

Lemma reaps_cons e tr :
  reaps (e :: tr)
  = match reap_of e with Some x => x :: reaps tr | None => reaps tr end.
Proof. reflexivity. Qed.

Lemma waits_reaps tr : waits tr = map fst (reaps tr).
Proof.
  induction tr as [|e tr IH]; [reflexivity|].
  rewrite reaps_cons.
  destruct e; cbn [reap_of map fst]; try exact IH.
  change (waits (EvWait pid status :: tr)) with (pid :: waits tr).
  now rewrite IH.
Qed.

Lemma no_waits_no_reaps tr : waits tr = [] -> reaps tr = [].
Proof.
  rewrite waits_reaps. destruct (reaps tr); [reflexivity | discriminate].
Qed.

(** A trace whose waits all find their process. *)
Lemma reaps_zip tr :
  forall pids sts,
    waits tr = pids -> reaped tr = sts -> length pids = length sts ->
    reaps tr = zip pids (Some <$> sts).
Proof.
  induction tr as [|e tr IH]; intros pids sts Hw Hr Hlen.
  - cbn in Hw, Hr. subst. reflexivity.
  - rewrite reaps_cons.
    destruct e as [| | | | | | | |pid [status|]]; cbn [reap_of];
      try (apply IH; assumption).
    + change (waits (EvWait pid (Some status) :: tr)) with (pid :: waits tr) in Hw.
      change (reaped (EvWait pid (Some status) :: tr)) with (status :: reaped tr) in Hr.
      subst pids sts. cbn [length] in Hlen. cbn [fmap list_fmap zip zip_with].
      f_equal. apply IH; auto.
    + change (waits (EvWait pid None :: tr)) with (pid :: waits tr) in Hw.
      change (reaped (EvWait pid None :: tr)) with (reaped tr) in Hr.
      subst pids sts. cbn [length] in Hlen.
      pose proof (waits_count tr) as Hc. lia.
Qed.

Lemma zip_stage_reaps os pipeline fileName first :
  zip (stage_pids first (numCmds pipeline))
      (Some <$> stage_statuses os pipeline fileName)
  = stage_reaps os pipeline fileName first.
Proof.
  unfold stage_pids, stage_statuses, stage_reaps.
  induction (seq 0 (numCmds pipeline)) as [|j l IH]; [reflexivity|].
  cbn [map fmap list_fmap zip zip_with]. f_equal. exact IH.
Qed.

Lemma stage_reaps_pids os pipeline fileName first :
  map fst (stage_reaps os pipeline fileName first)
  = stage_pids first (numCmds pipeline).
Proof. unfold stage_reaps, stage_pids. rewrite map_map. reflexivity. Qed.

Lemma run_reaps_pids os pipeline runs :
  map fst (run_reaps os pipeline runs) = run_pids pipeline runs.
Proof.
  unfold run_reaps, run_pids. induction runs as [|r runs IH]; [reflexivity|].
  cbn [flat_map]. now rewrite map_app, IH, stage_reaps_pids.
Qed.

(** Reaping children that are there. *)
Lemma reap_children_reaps os pids stats w sts :
  NoDup pids ->
  Forall2 (fun p s => children w !! p = Some s) pids sts ->
  exists w' evs,
    reap_children os pids stats w = (count_stats stats sts, w') /\
    next_pid w' = next_pid w /\
    (forall q, children w' !! q =
               if decide (q ∈ pids) then None else children w !! q) /\
    trace w' = trace w ++ evs /\
    forks evs = [] /\
    reaps evs = zip pids (Some <$> sts).
Proof.
  intros Hnd Hown.
  destruct (reap_children_spec os pids stats w)
    as (statuses & w' & evs & E & Hn & Hc & Ht & Hf & Hw & _ & Hex).
  destruct (Hex _ Hnd Hown) as [-> Hr].
  exists w', evs. repeat split; try assumption.
  apply reaps_zip; auto. eapply Forall2_length, Hown.
Qed.

(** One file in sequential mode, from any state. *)
Lemma sequential_process_reaps os pipeline fileName stats w :
  exists w' evs,
    sequential_process os pipeline fileName stats w
    = (count_stats stats (stage_statuses os pipeline fileName), w') /\
    next_pid w' = next_pid w + Z.of_nat (numCmds pipeline) /\
    trace w' = trace w ++ evs /\
    forks evs = stage_forks pipeline fileName (next_pid w) 0 (numCmds pipeline) /\
    reaps evs = stage_reaps os pipeline fileName (next_pid w).
Proof.
  unfold sequential_process.
  destruct (exec_cmd_spec os pipeline fileName w)
    as (w1 & evs1 & E1 & Hn1 & _ & Ht1 & Hf1 & Hw1 & _).
  destruct (exec_cmd_owned os pipeline fileName w)
    as (w1' & evs1' & E1' & _ & _ & _ & Hown & _).
  rewrite E1 in E1'. injection E1' as <-. rewrite E1.
  destruct (reap_children_reaps os _ stats w1 _ (stage_pids_NoDup _ _) Hown)
    as (w2 & evs2 & -> & Hn2 & _ & Ht2 & Hf2 & Hr2).
  exists w2, (evs1 ++ evs2). split; [reflexivity|].
  split; [lia|]. split; [rewrite Ht2, Ht1, app_assoc; reflexivity|].
  rewrite forks_app, reaps_app, Hf1, Hf2, Hr2, (no_waits_no_reaps _ Hw1), app_nil_r.
  split; [reflexivity | apply zip_stage_reaps].
Qed.

Lemma validation_no_reaps os pipeline file :
  reaps (validation os pipeline file) = [].
Proof. apply no_waits_no_reaps, validation_quiet. Qed.

Lemma iterates_sequential_reaps os pipeline count files i st w st' w' :
  iterates os pipeline count files i st w st' w' ->
  parallel (rs_config st) = false ->
  exists evs spawned,
    trace w' = trace w ++ evs /\
    forks evs = run_forks pipeline (runs_from pipeline (next_pid w) spawned) /\
    reaps evs = run_reaps os pipeline (runs_from pipeline (next_pid w) spawned) /\
    spawned `sublist_of` files /\
    (quiet os -> spawned = List.filter (valid os pipeline) files).
Proof.
  intros H. iterates_induction H; intros Hmode; cbn [rs_config] in *.
  - exists [], []. rewrite app_nil_r. repeat split; reflexivity.
  - destruct (IH Hmode) as (evs & spawned & Ht & Hf & Hr & Hsub & Hq).
    destruct (validation_quiet os pipeline file) as (Hvf & _).
    exists (validation os pipeline file ++ evs), spawned.
    split; [rewrite Ht; cbn [emit trace]; now rewrite app_assoc|].
    rewrite forks_app, reaps_app, Hvf, validation_no_reaps. cbn [app].
    repeat split; auto.
    + now apply sublist_cons.
    + intros Hquiet. cbn [List.filter]. rewrite Hv. auto.
  - destruct (sequential_process_reaps os pipeline file (rs_stats st)
                (emit (validation os pipeline file) w))
      as (w2 & evs & E & _ & Ht & Hf & Hr).
    rewrite E in Hseq. injection Hseq as <- <-.
    destruct (validation_quiet os pipeline file) as (Hvf & _).
    exists (validation os pipeline file ++ evs), [file].
    split; [rewrite Ht; cbn [emit trace]; now rewrite app_assoc|].
    rewrite forks_app, reaps_app, Hvf, validation_no_reaps, Hf, Hr.
    cbn [app emit next_pid].
    unfold run_forks, run_reaps. cbn [runs_from flat_map fst snd]. rewrite !app_nil_r.
    repeat split; auto.
    + apply sublist_skip, sublist_nil_l.
    + intros Hquiet. rewrite Hquiet in Hbetween. discriminate.
  - destruct (sequential_process_reaps os pipeline file (rs_stats st)
                (emit (validation os pipeline file) w))
      as (w2 & evs & E & Hn & Ht & Hf & Hr).
    rewrite E in Hseq. injection Hseq as <- <-.
    destruct (IH Hmode) as (evs' & spawned & Ht' & Hf' & Hr' & Hsub & Hq).
    rewrite Hn in Hf', Hr'. cbn [emit next_pid] in *.
    destruct (validation_quiet os pipeline file) as (Hvf & _).
    exists (validation os pipeline file ++ evs ++ evs'), (file :: spawned).
    split; [rewrite Ht', Ht; cbn [emit trace]; now rewrite !app_assoc|].
    rewrite !forks_app, !reaps_app, Hvf, validation_no_reaps, Hf, Hr, Hf', Hr'.
    cbn [app]. unfold run_forks, run_reaps. cbn [runs_from flat_map fst snd].
    repeat split; auto.
    + now apply sublist_skip.
    + intros Hquiet. cbn [List.filter].
      rewrite (quiet_valid os pipeline file i Hquiet Hv). f_equal. auto.
  - congruence.
  - destruct (IH Hmode) as (evs & spawned & Ht & Hf & Hr & Hsub & Hq).
    destruct (validation_quiet os pipeline file) as (Hvf & _).
    exists (validation os pipeline file ++ evs), spawned.
    split; [rewrite Ht; cbn [emit trace]; now rewrite app_assoc|].
    rewrite forks_app, reaps_app, Hvf, validation_no_reaps. cbn [app].
    repeat split; auto.
    + now apply sublist_cons.
    + intros Hquiet. rewrite Hquiet in Hstart. discriminate.
Qed.

Lemma entries_own_agree os pipeline (m m' : gmap Z Z) entries :
  forall runs,
    (forall p, p ∈ pending entries -> m' !! p = m !! p) ->
    entries_own os pipeline m runs entries ->
    entries_own os pipeline m' runs entries.
Proof.
  induction entries as [|[ps|] entries IH]; intros runs Hagree H;
    cbn [entries_own pending] in *.
  - exact H.
  - destruct runs as [|r runs]; [contradiction|].
    destruct H as (Hps & Hown & H). split; [exact Hps|]. split.
    + eapply Forall2_impl_elem; [exact Hown|]. cbn. intros p s Hp Hs.
      rewrite Hagree; [exact Hs|]. apply elem_of_app. now left.
    + apply IH; [|exact H]. intros p Hp. apply Hagree, elem_of_app. now right.
  - apply IH; assumption.
Qed.

Lemma entries_own_pending os pipeline m entries :
  forall runs,
    entries_own os pipeline m runs entries ->
    pending entries = run_pids pipeline runs.
Proof.
  induction entries as [|[ps|] entries IH]; intros runs H;
    cbn [entries_own pending] in *.
  - now subst.
  - destruct runs as [|r runs]; [contradiction|].
    destruct H as (-> & _ & H). unfold run_pids. cbn [flat_map].
    f_equal. now apply IH.
  - now apply IH.
Qed.

(** The first pass of a parallel run, whatever the interrupt flag does. *)
Lemma iterates_parallel_reaps os pipeline count files i st w st' w' :
  iterates os pipeline count files i st w st' w' ->
  parallel (rs_config st) = true ->
  forall done,
    rs_pids st = done ++ replicate (length files) None ->
    length done = i ->
    exists evs spawned entries,
      trace w' = trace w ++ evs /\
      forks evs = run_forks pipeline (runs_from pipeline (next_pid w) spawned) /\
      waits evs = [] /\
      spawned `sublist_of` files /\
      rs_pids st' = done ++ entries /\
      entries_own os pipeline (children w')
        (runs_from pipeline (next_pid w) spawned) entries /\
      next_pid w <= next_pid w' /\
      (forall p, p ∈ pending entries -> next_pid w <= p < next_pid w') /\
      (forall q, q ∉ pending entries -> children w' !! q = children w !! q) /\
      (quiet os -> spawned = List.filter (valid os pipeline) files).
Proof.
  intros H. iterates_induction H; intros Hmode done Hpids Hdone;
    cbn [rs_config rs_pids] in *; try congruence.
  - exists [], [], []. rewrite app_nil_r. cbn [replicate length] in Hpids.
    cbn [runs_from entries_own pending].
    split; [reflexivity|]. split; [reflexivity|]. split; [reflexivity|].
    split; [reflexivity|]. split; [exact Hpids|]. split; [reflexivity|].
    split; [lia|]. split; [intros p Hp; inversion Hp|]. split; reflexivity.
  - destruct (IH Hmode (done ++ [None]))
      as (evs & spawned & entries & Ht & Hf & Hw & Hsub & Hp & Hown & Hn & Hrange
          & Hframe & Hq).
    { rewrite Hpids. cbn [length replicate]. now rewrite <- app_assoc. }
    { rewrite length_app. cbn [length]. lia. }
    destruct (validation_quiet os pipeline file) as (Hvf & Hvw & _).
    exists (validation os pipeline file ++ evs), spawned, (None :: entries).
    cbn [emit trace next_pid children entries_own pending] in *.
    split; [rewrite Ht; now rewrite app_assoc|].
    rewrite forks_app, waits_app, Hvf, Hvw. cbn [app].
    split; [exact Hf|]. split; [exact Hw|]. split; [now apply sublist_cons|].
    split; [rewrite Hp, <- app_assoc; reflexivity|].
    split; [exact Hown|]. split; [exact Hn|]. split; [exact Hrange|].
    split; [exact Hframe|].
    intros Hquiet. cbn [List.filter]. rewrite Hv. auto.
  - destruct (exec_cmd_spec os pipeline file (emit (validation os pipeline file) w))
      as (w2 & evs1 & E & Hn1 & _ & Ht1 & Hf1 & Hw1 & _).
    destruct (exec_cmd_owned os pipeline file (emit (validation os pipeline file) w))
      as (w2' & evs1' & E' & _ & _ & _ & Hown2 & Hframe2).
    rewrite E in E'. injection E' as <-.
    unfold parallel_process in Hpp. rewrite E in Hpp. injection Hpp as <- <-.
    cbn [emit trace next_pid children] in *.
    destruct (IH Hmode (done ++ [Some (stage_pids (next_pid w) (numCmds pipeline))]))
      as (evs & spawned & entries & Ht & Hf & Hw & Hsub & Hp & Hown & Hn & Hrange
          & Hframe & Hq).
    { rewrite Hpids, <- Hdone. cbn [length replicate]. apply insert_middle. }
    { rewrite length_app. cbn [length]. lia. }
    rewrite Hn1 in Hf, Hown.
    destruct (validation_quiet os pipeline file) as (Hvf & Hvw & _).
    exists (validation os pipeline file ++ evs1 ++ evs), (file :: spawned),
      (Some (stage_pids (next_pid w) (numCmds pipeline)) :: entries).
    split; [rewrite Ht, Ht1; now rewrite !app_assoc|].
    rewrite !forks_app, !waits_app, Hvf, Hvw, Hf1, Hw1, Hf, Hw. cbn [app].
    cbn [runs_from entries_own pending fst snd].
    split; [reflexivity|]. split; [reflexivity|]. split; [now apply sublist_skip|].
    split; [rewrite Hp, <- app_assoc; reflexivity|].
    split.
    { split; [reflexivity|]. split; [|exact Hown].
      eapply Forall2_impl_elem; [exact Hown2|]. cbn. intros p s Hin Hps.
      rewrite Hframe; [exact Hps|].
      intros Hin2%Hrange. apply elem_of_stage_pids in Hin. lia. }
    split; [lia|]. split.
    { intros p. rewrite elem_of_app, elem_of_stage_pids.
      intros [Hin|Hin%Hrange]; lia. }
    split.
    { intros q Hq'. rewrite Hframe, Hframe2; [reflexivity| |];
        intros Hin; apply Hq', elem_of_app; auto. }
    intros Hquiet. cbn [List.filter].
    rewrite (quiet_valid os pipeline file i Hquiet Hv). f_equal. auto.
Qed.

Lemma reap_all_reaps os pipeline entries :
  forall runs stats w,
    entries_own os pipeline (children w) runs entries ->
    NoDup (pending entries) ->
    exists evs,
      trace (snd (reap_all os entries stats w)) = trace w ++ evs /\
      forks evs = [] /\
      reaps evs = run_reaps os pipeline runs.
Proof.
  induction entries as [|[ps|] entries IH]; intros runs stats w Hown Hnd;
    cbn [reap_all pending entries_own] in *.
  - subst runs. exists []. cbn [snd]. now rewrite app_nil_r.
  - destruct runs as [|r runs]; [contradiction|].
    destruct Hown as (Hps & Hown1 & Hown).
    apply NoDup_app in Hnd as (Hnd1 & Hdisj & Hnd2).
    destruct (reap_children_reaps os ps stats w _ Hnd1 Hown1)
      as (w1 & evs1 & -> & _ & Hc1 & Ht1 & Hf1 & Hr1).
    destruct (IH runs (count_stats stats (stage_statuses os pipeline (fst r))) w1)
      as (evs & Ht & Hf & Hr); [|exact Hnd2|].
    { eapply entries_own_agree; [|exact Hown]. intros p Hp. rewrite Hc1.
      rewrite decide_False; [reflexivity|]. intros Hin. exact (Hdisj p Hin Hp). }
    exists (evs1 ++ evs). split; [rewrite Ht, Ht1, app_assoc; reflexivity|].
    rewrite forks_app, reaps_app, Hf, Hf1, Hr, Hr1. split; [reflexivity|].
    unfold run_reaps. cbn [flat_map]. f_equal. subst ps. apply zip_stage_reaps.
  - now apply IH.
Qed.

(** A whole run, wait by wait. *)
Lemma run_pipeline_reaps os pipeline config stats fileList w :
  exists evs spawned,
    trace (snd (run_pipeline os pipeline config stats fileList w)) = trace w ++ evs /\
    forks evs = run_forks pipeline (runs_from pipeline (next_pid w) spawned) /\
    reaps evs = run_reaps os pipeline (runs_from pipeline (next_pid w) spawned) /\
    spawned `sublist_of` fileList /\
    (quiet os -> spawned = List.filter (valid os pipeline) fileList).
Proof.
  unfold run_pipeline.
  match goal with |- context [run_files ?o ?p ?c ?f ?i ?s ?w0] =>
    pose proof (run_files_iterates o p c f i s w0) as Hit;
    destruct (run_files o p c f i s w0) as [st' w'] end.
  cbn [fst snd] in Hit. destruct (parallel config) eqn:Hmode.
  - apply iterates_parallel_reaps with (done := []) in Hit
      as (evs & spawned & entries & Ht & Hf & Hw & Hsub & Hp & Hown & _ & _ & _ & Hq);
      auto.
    cbn [app] in Hp. rewrite Hp.
    destruct (reap_all_reaps os pipeline entries _ (rs_stats st') w' Hown)
      as (evs' & Ht' & Hf' & Hr').
    { rewrite (entries_own_pending _ _ _ _ _ Hown). apply run_pids_from_NoDup. }
    destruct (reap_all os entries (rs_stats st') w') as [stats' w''].
    cbn [snd] in *. exists (evs ++ evs'), spawned.
    rewrite Ht', Ht, forks_app, reaps_app, Hf, Hf', Hr', (no_waits_no_reaps _ Hw).
    rewrite app_nil_r, app_assoc. auto.
  - apply iterates_sequential_reaps in Hit
      as (evs & spawned & Ht & Hf & Hr & Hsub & Hq); auto.
    exists evs, spawned. auto.
Qed.

(** C7.  One run of a file's pipeline spawns exactly [numCmds] children,
    one per stage in stage order, with distinct identities kept in that
    order, each an unreaped child with the status of its stage.  Reaping
    waits for exactly the identities of the array, in array order; when
    these are distinct unreaped children, every wait finds its child and
    collects its status, whatever the statuses are, the statuses are
    what is counted, and the children are gone afterwards.  So the
    pipeline of one file, run and reaped, forks its [numCmds] stages in
    stage order and then performs [numCmds] waits, stage by stage, each
    collecting the status of its stage.  In either mode and under any
    interrupt, the whole run spawns the stages of every file it runs in
    stage order, its sequence of waits is its sequence of forks, no
    process is waited for twice, and every wait finds its process and
    collects the status of that stage; without an interrupt the files
    run are exactly those whose redirection validates. *)
Theorem stages_spawned_and_reaped_in_order (os : OS) (pipeline : CommandPipeline) :
  (forall fileName w,
     let spawned := exec_cmd os pipeline fileName (malloc_pids os pipeline) w in
     fst spawned = stage_pids (next_pid w) (numCmds pipeline) /\
     length (fst spawned) = numCmds pipeline /\
     NoDup (fst spawned) /\
     forks (trace (snd spawned))
     = forks (trace w) ++ stage_forks pipeline fileName (next_pid w) 0 (numCmds pipeline) /\
     waits (trace (snd spawned)) = waits (trace w) /\
     Forall2 (fun p s => children (snd spawned) !! p = Some s)
       (fst spawned) (stage_statuses os pipeline fileName)) /\
  (forall pids stats w,
     forks (trace (snd (reap_children os pids stats w))) = forks (trace w) /\
     waits (trace (snd (reap_children os pids stats w))) = waits (trace w) ++ pids /\
     (forall sts,
        NoDup pids ->
        Forall2 (fun p s => children w !! p = Some s) pids sts ->
        reaps (trace (snd (reap_children os pids stats w)))
        = reaps (trace w) ++ zip pids (Some <$> sts) /\
        fst (reap_children os pids stats w) = count_stats stats sts /\
        forall p, p ∈ pids ->
                  children (snd (reap_children os pids stats w)) !! p = None)) /\
  (forall fileName stats w,
     let ran := sequential_process os pipeline fileName stats w in
     forks (trace (snd ran))
     = forks (trace w) ++ stage_forks pipeline fileName (next_pid w) 0 (numCmds pipeline) /\
     reaps (trace (snd ran))
     = reaps (trace w) ++ stage_reaps os pipeline fileName (next_pid w) /\
     length (stage_reaps os pipeline fileName (next_pid w)) = numCmds pipeline) /\
  (forall config fileList first_pid,
     exists spawned,
       spawned `sublist_of` fileList /\
       forks (run_trace os pipeline config fileList (initial_world first_pid))
       = run_forks pipeline (runs_from pipeline first_pid spawned) /\
       waits (run_trace os pipeline config fileList (initial_world first_pid))
       = run_pids pipeline (runs_from pipeline first_pid spawned) /\
       NoDup (waits (run_trace os pipeline config fileList (initial_world first_pid))) /\
       (quiet os -> spawned = List.filter (valid os pipeline) fileList) /\
       reaps (run_trace os pipeline config fileList (initial_world first_pid))
       = run_reaps os pipeline (runs_from pipeline first_pid spawned)).
Proof.
  split; [|split; [|split]].
  - intros fileName w spawned. subst spawned.
    destruct (exec_cmd_spec os pipeline fileName w)
      as (w' & evs & E & _ & _ & Ht & Hf & Hw & _).
    destruct (exec_cmd_owned os pipeline fileName w)
      as (w2 & evs2 & E2 & _ & _ & _ & Hown & _).
    rewrite E in E2. injection E2 as <-. rewrite E.
    cbn [fst snd]. rewrite Ht, forks_app, waits_app, Hf, Hw, app_nil_r.
    repeat split; try reflexivity;
      [apply stage_pids_length | apply stage_pids_NoDup | exact Hown].
  - intros pids stats w.
    destruct (reap_children_spec os pids stats w)
      as (statuses & w' & evs & E & _ & _ & Ht & Hf & Hw & _).
    rewrite E. cbn [snd]. rewrite Ht, forks_app, waits_app, Hf, Hw, app_nil_r.
    split; [reflexivity|]. split; [reflexivity|].
    intros sts Hnd Hown.
    destruct (reap_children_reaps os pids stats w sts Hnd Hown)
      as (w2 & evs2 & E2 & _ & Hc & Ht2 & _ & Hr).
    rewrite E in E2. injection E2 as Hstats <-.
    rewrite Ht in Ht2. apply app_inv_head in Ht2. subst evs2.
    rewrite reaps_app, Hr. split; [reflexivity|].
    split; [rewrite <- E; cbn [fst]; rewrite E; exact Hstats|].
    intros p Hp. rewrite Hc. now rewrite decide_True.
  - intros fileName stats w ran. subst ran.
    destruct (sequential_process_reaps os pipeline fileName stats w)
      as (w' & evs & -> & _ & Ht & Hf & Hr).
    cbn [snd]. rewrite Ht, forks_app, reaps_app, Hf, Hr.
    split; [reflexivity|]. split; [reflexivity|].
    unfold stage_reaps. now rewrite length_map, length_seq.
  - intros config fileList first_pid. unfold run_trace.
    destruct (run_pipeline_reaps os pipeline config [0; 0; 0; 0; 0] fileList
                (initial_world first_pid)) as (evs & spawned & -> & Hf & Hr & Hsub & Hq).
    exists spawned. cbn [initial_world trace next_pid app] in *.
    assert (Hw : waits evs = run_pids pipeline (runs_from pipeline first_pid spawned))
      by (rewrite waits_reaps, Hr; apply run_reaps_pids).
    split; [exact Hsub|]. split; [exact Hf|]. split; [exact Hw|].
    split; [rewrite Hw; apply run_pids_from_NoDup|]. split; [exact Hq | exact Hr].
Qed.

(** C7 at a parallel run of a two-stage pipeline over two files. *)
Lemma stages_spawned_and_reaped_in_order_witness :
  forks (run_trace no_wc_os echo_wc_pipeline (settings true) ["a"; "b"]
           (initial_world 100))
  = run_forks echo_wc_pipeline (runs_from echo_wc_pipeline 100 ["a"; "b"]) /\
  waits (run_trace no_wc_os echo_wc_pipeline (settings true) ["a"; "b"]
           (initial_world 100))
  = [100; 101; 102; 103] /\
  reaps (run_trace no_wc_os echo_wc_pipeline (settings true) ["a"; "b"]
           (initial_world 100))
  = [(100, Some EXIT_OK); (101, Some (W_EXITCODE CHILD_PROCESS_ERROR 0));
     (102, Some EXIT_OK); (103, Some (W_EXITCODE CHILD_PROCESS_ERROR 0))].
Proof.
  destruct (stages_spawned_and_reaped_in_order no_wc_os echo_wc_pipeline)
    as (_ & _ & _ & H).
  destruct (H (settings true) ["a"; "b"] 100)
    as (spawned & _ & Hf & Hw & _ & Hq & Hr).
  rewrite Hf, Hw, Hr, Hq; [repeat split; reflexivity|].
  intros i p. reflexivity.
Defined.

(** ** The tallies of the two modes *)

Lemma fold_tally_same_outcomes os1 os2 pipeline fileList :
  same_outcomes os1 os2 pipeline fileList ->
  forall stats,
    fold_left (tally os1 pipeline) fileList stats
    = fold_left (tally os2 pipeline) fileList stats.
Proof.
  induction fileList as [|file fileList IH]; intros Hsame stats; [reflexivity|].
  cbn [fold_left].
  destruct (Hsame file) as [Hv Hs]; [now left|].
  assert (E : tally os1 pipeline stats file = tally os2 pipeline stats file).
  { unfold tally. rewrite <- Hv.
    destruct (valid os1 pipeline file); [now rewrite Hs | reflexivity]. }
  rewrite E. apply IH. intros f Hf. apply Hsame. now right.
Qed.

(** C6.  When the interrupt flag is never seen set, and the environment
    gives every file of the list the same result of validation and the
    same statuses of its stages in the sequential as in the parallel
    run, the two runs end with the same five counters. *)
Theorem sequential_parallel_same_tally (os_seq os_par : OS)
    (pipeline : CommandPipeline) (sequential concurrent : Settings)
    (fileList : list string) (first_pid : Z) :
  parallel sequential = false ->
  parallel concurrent = true ->
  quiet os_seq ->
  quiet os_par ->
  same_outcomes os_seq os_par pipeline fileList ->
  snd (fst (main os_seq pipeline sequential fileList (initial_world first_pid)))
  = snd (fst (main os_par pipeline concurrent fileList (initial_world first_pid))).
Proof.
  intros Hseq Hpar Hquiet1 Hquiet2 Hsame.
  pose proof (run_pipeline_sequential_quiet os_seq pipeline sequential [0; 0; 0; 0; 0]
                fileList (initial_world first_pid) Hseq Hquiet1
                (pids_fresh_initial first_pid)) as H1.
  pose proof (run_pipeline_parallel_quiet os_par pipeline concurrent [0; 0; 0; 0; 0]
                fileList (initial_world first_pid) Hpar Hquiet2
                (pids_fresh_initial first_pid)) as H2.
  rewrite (fold_tally_same_outcomes _ _ _ _ Hsame) in H1.
  unfold main.
  destruct (run_pipeline os_seq pipeline sequential [0; 0; 0; 0; 0] fileList
              (initial_world first_pid)) as [[s1 c1] w1].
  destruct (run_pipeline os_par pipeline concurrent [0; 0; 0; 0; 0] fileList
              (initial_world first_pid)) as [[s2 c2] w2].
  cbn [fst snd] in *. congruence.
Qed.

(** C6 at two environments that differ on a file that is not in the
    list. *)
Lemma sequential_parallel_same_tally_witness :
  snd (fst (main sequential_view remove_b_pipeline (settings false) ["a"; "c"]
              (initial_world 100)))
  = snd (fst (main parallel_view remove_b_pipeline (settings true) ["a"; "c"]
                (initial_world 100))).
Proof.
  apply sequential_parallel_same_tally;
    [reflexivity | reflexivity | intros i p; reflexivity
    | intros i p; reflexivity |].
  intros file Hin.
  apply elem_of_cons in Hin as [->|Hin]; [split; reflexivity|].
  apply elem_of_cons in Hin as [->|Hin]; [split; reflexivity | inversion Hin].
Defined.

(** Without that condition C6 fails.  The pipeline
    [sleep 1 < {} | xargs rm -f b] over the files [a] and [b], never
    interrupted: in sequential mode [b] has been removed when it is
    validated, so it is counted NotExecuted; in parallel mode it is
    validated while it is still there, and both pipelines succeed. *)
Lemma sequential_parallel_tally_counterexample :
  quiet sequential_view /\ quiet parallel_view /\
  snd (fst (main sequential_view remove_b_pipeline (settings false) ["a"; "b"]
              (initial_world 100)))
  = [1; 0; 0; 1; 2] /\
  snd (fst (main parallel_view remove_b_pipeline (settings true) ["a"; "b"]
              (initial_world 100)))
  = [2; 0; 0; 0; 2] /\
  ~ (forall (os_seq os_par : OS) (pipeline : CommandPipeline)
            (sequential concurrent : Settings) (fileList : list string)
            (first_pid : Z),
       parallel sequential = false ->
       parallel concurrent = true ->
       quiet os_seq ->
       quiet os_par ->
       snd (fst (main os_seq pipeline sequential fileList (initial_world first_pid)))
       = snd (fst (main os_par pipeline concurrent fileList
                     (initial_world first_pid)))).
Proof.
  assert (Hq1 : quiet sequential_view) by (intros i p; reflexivity).
  assert (Hq2 : quiet parallel_view) by (intros i p; reflexivity).
  assert (E1 : snd (fst (main sequential_view remove_b_pipeline (settings false)
                           ["a"; "b"] (initial_world 100))) = [1; 0; 0; 1; 2])
    by (vm_compute; reflexivity).
  assert (E2 : snd (fst (main parallel_view remove_b_pipeline (settings true)
                           ["a"; "b"] (initial_world 100))) = [2; 0; 0; 0; 2])
    by (vm_compute; reflexivity).
  split; [exact Hq1|]. split; [exact Hq2|]. split; [exact E1|]. split; [exact E2|].
  intros H.
  specialize (H sequential_view parallel_view remove_b_pipeline (settings false)
                (settings true) ["a"; "b"] 100 eq_refl eq_refl Hq1 Hq2).
  rewrite E1, E2 in H. discriminate.
Qed.

(** ** The exit decision after an interrupt *)

Lemma forks_validations os pipeline files :
  forks (flat_map (validation os pipeline) files) = [].
Proof.
  induction files as [|file files IH]; [reflexivity|].
  cbn [flat_map]. rewrite forks_app, IH.
  now destruct (validation_quiet os pipeline file) as (-> & _).
Qed.

(** Sequential mode with the flag set from iteration [i] on: the files
    left are passed over. *)
Lemma run_files_all_passed_over os pipeline count files :
  forall i st w,
    parallel (rs_config st) = false ->
    (forall j, (i <= j)%nat ->
               sigintReceived os j PollValidate = true /\
               sigintReceived os j PollStart = true) ->
    run_files os pipeline count files i st w
    = (st, emit (flat_map (validation os pipeline) files) w).
Proof.
  induction files as [|file files IH]; intros i st w Hmode Hflag.
  - cbn. unfold emit. rewrite app_nil_r. now destruct w.
  - rewrite run_files_passed_over by (auto; apply Hflag; lia).
    rewrite IH by (auto; intros j Hj; apply Hflag; lia).
    f_equal. unfold emit. cbn. now rewrite app_assoc.
Qed.

(** C5.  Sequential mode, a first file whose redirection validates and
    whose pipeline is started, and more files after it.  When the flag
    is seen set at the poll that follows the first file, the loop is left
    with [sigInt] recorded and the exit status is [SIGINT_REC], or
    [PROCESS_ERROR] when the file was counted NotExecuted.  When the
    flag is set a moment later, after that poll and before the next file
    is started, the files left are passed over all the same, with the
    same counters and the same processes, but [sigInt] is not recorded:
    the run was cut short by the interrupt and its exit status is [0],
    or [PROCESS_ERROR] when the file was counted NotExecuted. *)
Theorem interrupt_before_start_is_not_recorded (os : OS)
    (pipeline : CommandPipeline) (config : Settings) (file : string)
    (files : list string) (first_pid : Z) :
  parallel config = false ->
  sigInt config = false ->
  sigintReceived os 0 PollValidate = false ->
  sigintReceived os 0 PollStart = false ->
  valid os pipeline file = true ->
  files <> [] ->
  let w := initial_world first_pid in
  let stats := run_stats os pipeline config (file :: files) w in
  let config' := run_config os pipeline config (file :: files) w in
  let status := fst (fst (main os pipeline config (file :: files) w)) in
  let outcome := classify_spec (stage_statuses os pipeline file) in
  let first_only :=
    stats = bump outcome [0; 0; 0; 0; 0] /\
    stat stats TOTAL_STATS = 1 /\
    forks (run_trace os pipeline config (file :: files) w)
    = stage_forks pipeline file first_pid 0 (numCmds pipeline) in
  (sigintReceived os 0 PollBetween = true ->
   first_only /\
   sigInt config' = true /\
   status = match outcome with
            | NotExecuted => PROCESS_ERROR
            | _ => SIGINT_REC
            end) /\
  (sigintReceived os 0 PollBetween = false ->
   (forall i, sigintReceived os (S i) PollValidate = true /\
              sigintReceived os (S i) PollStart = true) ->
   first_only /\
   sigInt config' = false /\
   status = match outcome with
            | NotExecuted => PROCESS_ERROR
            | _ => 0
            end).
Proof.
  intros Hmode Hsig Hpv Hps Hvalid Hfiles w stats config' status outcome first_only.
  subst first_only outcome status config' stats w.
  unfold run_stats, run_config, run_trace, main, run_pipeline.
  rewrite Hmode, run_files_cons. cbv zeta. cbn [rs_config rs_stats rs_pids].
  rewrite Hvalid, Hmode, Hpv, Hps. cbn [negb andb].
  destruct (sequential_process_reaps os pipeline file [0; 0; 0; 0; 0]
              (emit (validation os pipeline file) (initial_world first_pid)))
    as (w1 & evs & E & _ & Ht & Hf & _).
  rewrite count_stats_bump in E.
  rewrite E. cbn [fst snd emit trace next_pid initial_world app] in *.
  set (outcome := classify_spec (stage_statuses os pipeline file)) in *.
  assert (Htotal : stat (bump outcome [0; 0; 0; 0; 0]) TOTAL_STATS = 1)
    by (destruct outcome; reflexivity).
  assert (Hforks : forks (validation os pipeline file ++ evs)
                   = stage_forks pipeline file first_pid 0 (numCmds pipeline)).
  { rewrite forks_app, Hf.
    now destruct (validation_quiet os pipeline file) as (-> & _). }
  assert (Hlen : (Z.of_nat 0 <? Z.of_nat (length (file :: files)) - 1) = true).
  { apply Z.ltb_lt. destruct files; [contradiction | cbn [length]; lia]. }
  split.
  - intros Hb. rewrite Hb, Hlen. cbn [andb fst snd rs_stats rs_config set_sigInt sigInt].
    rewrite Ht. unfold exit_status. cbn [sigInt].
    split; [repeat split; assumption|]. split; [reflexivity|].
    destruct outcome; reflexivity.
  - intros Hb Hlater. rewrite Hb. cbn [andb].
    rewrite run_files_all_passed_over;
      [|exact Hmode | intros [|j] Hj; [lia | apply Hlater]].
    cbn [fst snd rs_stats rs_config emit trace]. rewrite Ht.
    rewrite forks_app, forks_validations, app_nil_r.
    unfold exit_status. rewrite Hsig.
    split; [repeat split; assumption|]. split; [reflexivity|].
    destruct outcome; reflexivity.
Qed.

(** C5 at three files: the interrupt seen at the poll after the first
    file, and the interrupt that arrives right after that poll. *)
Lemma interrupt_before_start_is_not_recorded_witness :
  (run_stats after_first_os echo_wc_pipeline (settings false) ["a"; "b"; "c"]
     (initial_world 100) = [1; 0; 0; 0; 1] /\
   fst (fst (main after_first_os echo_wc_pipeline (settings false) ["a"; "b"; "c"]
               (initial_world 100))) = SIGINT_REC) /\
  (run_stats before_second_os echo_wc_pipeline (settings false) ["a"; "b"; "c"]
     (initial_world 100) = [1; 0; 0; 0; 1] /\
   forks (run_trace before_second_os echo_wc_pipeline (settings false)
            ["a"; "b"; "c"] (initial_world 100))
   = [(100, "a", 0%nat, ["echo"; "a"]); (101, "a", 1%nat, ["wc"])] /\
   sigInt (run_config before_second_os echo_wc_pipeline (settings false)
             ["a"; "b"; "c"] (initial_world 100)) = false /\
   fst (fst (main before_second_os echo_wc_pipeline (settings false) ["a"; "b"; "c"]
               (initial_world 100))) = 0).
Proof.
  split.
  - pose proof (interrupt_before_start_is_not_recorded after_first_os
                  echo_wc_pipeline (settings false) "a" ["b"; "c"] 100
                  eq_refl eq_refl eq_refl eq_refl eq_refl) as H.
    cbv zeta in H. destruct H as [H _]; [discriminate|].
    destruct (H eq_refl) as ((Hs & _ & _) & _ & He).
    rewrite He, Hs. split; reflexivity.
  - pose proof (interrupt_before_start_is_not_recorded before_second_os
                  echo_wc_pipeline (settings false) "a" ["b"; "c"] 100
                  eq_refl eq_refl eq_refl eq_refl eq_refl) as H.
    cbv zeta in H. destruct H as [_ H]; [discriminate|].
    destruct (H eq_refl) as ((Hs & _ & Hf) & Hc & He);
      [intros i; split; reflexivity|].
    rewrite He, Hs, Hf, Hc. repeat split; reflexivity.
Defined.
